(** * Hydra-Watch: the OTP handler of [js/otp.js]

    A shallow embedding of the [OTPHandler] class (code generation, simulated
    delivery, verification, resend countdown, phone helpers) together with the
    small part of the browser it runs on: the clock behind [Date.now()], the
    timer table behind [setTimeout] / [setInterval] / [clearInterval], the
    random source behind [Math.random()], and a log of what collaborators
    observe (writes to the countdown element, [onComplete] calls, promise
    resolutions, the demo notification). *)

From Stdlib Require Import ZArith QArith Qround List String Ascii Bool Lia.
From Stdlib Require Import DecimalString.
From Stdlib Require Lqa DecimalPos DecimalFacts DecimalZ.
Import ListNotations.

Local Open Scope Z_scope.

(** ** JavaScript values used by the handler *)

Module JS.

(** A JavaScript string is a sequence of code units; every code unit the
    handler ever inspects ([0-9], the mask character) is ASCII, so one
    [ascii] stands for one code unit and [String.length] for [.length]. *)

(** [!v] for a value that is [null] or a string: [null] and the empty string
    are falsy. *)
Definition truthy (v : option string) : bool :=
  match v with
  | None => false
  | Some EmptyString => false
  | Some (String _ _) => true
  end.

(** [ToNumber] on a value that is [null] or a number, as the relational
    operators apply it: [null] becomes [0]. *)
Definition to_number (v : option Z) : Z :=
  match v with
  | None => 0
  | Some n => n
  end.

(** [s.substring(a, b)]: both indices are clamped to the length and swapped
    when out of order. *)
Definition substring (s : string) (a b : nat) : string :=
  let a' := Nat.min a (String.length s) in
  let b' := Nat.min b (String.length s) in
  String.substring (Nat.min a' b') (Nat.max a' b' - Nat.min a' b') s.

(** [s.substring(a)]: the end index defaults to the length. *)
Definition substring_from (s : string) (a : nat) : string :=
  substring s a (String.length s).

(** [n.toString()] for an integer-valued number (decimal digits, with a
    leading minus sign for negatives; the handler only ever prints six-digit
    values, far below the range where exponents appear). *)
Definition Number_toString (n : Z) : string :=
  NilZero.string_of_int (Z.to_int n).

(** [Math.floor]; a double is read as the rational it denotes. *)
Definition Math_floor (x : Q) : Z := Qfloor x.

(** The character class [[0-9]]. *)
Definition is_digit (c : ascii) : bool :=
  ((48 <=? nat_of_ascii c) && (nat_of_ascii c <=? 57))%nat.

(** The regular expression [/^[0-9]{n}$/] run on a string: exactly [n]
    digit characters, then the end of the input. *)
Fixpoint test_digits (n : nat) (s : string) : bool :=
  match n, s with
  | O, EmptyString => true
  | S n', String c s' => is_digit c && test_digits n' s'
  | _, _ => false
  end.

End JS.

(** ** The handler object and its runtime *)

(** The fields of [OTPHandler], as the constructor declares them. *)
Record OTPHandler := mkOTPHandler {
  generatedOTP : option string;          (* null, or the code as a string *)
  otpExpiry : option Z;                  (* null, or a timestamp in ms *)
  countdownInterval : option positive;   (* null, or an interval handle *)
  resendCooldown : Z                     (* seconds *)
}.

(** [constructor()]. *)
Definition constructor : OTPHandler :=
  {| generatedOTP := None;
     otpExpiry := None;
     countdownInterval := None;
     resendCooldown := 60 |}.

(** The code a timer runs: the two closures the handler registers, and the
    two DOM clean-up closures of [showOTPNotification].  A closure carries
    what it captured; [timeLeft] is the captured mutable local of
    [startCountdown]. *)
Inductive callback :=
| CountdownTick (timeLeft : Z) (displayElement : nat) (onComplete : option nat)
| DeliverOTP (phoneNumber : string)
| SlideOutNotification
| RemoveNotification.

(** An entry of the timer table.  [t_every] is [Some period] for an interval
    and [None] for a one-shot timeout. *)
Record timer := mkTimer {
  t_handle : positive;
  t_due : Z;
  t_every : option Z;
  t_code : callback
}.

(** What [verifyOTP] returns and what the promise of [sendOTP] resolves to. *)
Record verdict := mkVerdict {
  success : bool;
  message : string
}.

Record sent := mkSent {
  sent_success : bool;
  sent_message : string;
  expiresIn : Z
}.

(** What the collaborators of the handler observe, in order. *)
Inductive event :=
| TextContent (displayElement : nat) (value : Z)  (* displayElement.textContent = value *)
| Called (onComplete : nat)                       (* onComplete() *)
| ConsoleLog (line : string)
| NotificationShown (phone otp : string)
| NotificationSlidOut
| NotificationRemoved
| Resolved (request : positive) (result : sent).  (* resolve(result) of the promise *)

(** The browser side: the clock, the timer table in registration order, the
    next free handle, the random source with the number of values drawn so
    far, and the log. *)
Record Runtime := mkRuntime {
  clock : Z;
  timers : list timer;
  next_handle : positive;
  entropy : nat -> Q;
  draws : nat;
  log : list event
}.

Record World := mkWorld {
  this : OTPHandler;
  rt : Runtime
}.

(** A page that has just executed [const otpHandler = new OTPHandler()]. *)
Definition boot (rnd : nat -> Q) (t0 : Z) : World :=
  {| this := constructor;
     rt := {| clock := t0; timers := []; next_handle := 1%positive;
              entropy := rnd; draws := O; log := [] |} |}.

(** *** Field assignments *)

Definition set_generatedOTP (v : option string) (w : World) : World :=
  {| this := {| generatedOTP := v;
                otpExpiry := otpExpiry (this w);
                countdownInterval := countdownInterval (this w);
                resendCooldown := resendCooldown (this w) |};
     rt := rt w |}.

Definition set_otpExpiry (v : option Z) (w : World) : World :=
  {| this := {| generatedOTP := generatedOTP (this w);
                otpExpiry := v;
                countdownInterval := countdownInterval (this w);
                resendCooldown := resendCooldown (this w) |};
     rt := rt w |}.

Definition set_countdownInterval (v : option positive) (w : World) : World :=
  {| this := {| generatedOTP := generatedOTP (this w);
                otpExpiry := otpExpiry (this w);
                countdownInterval := v;
                resendCooldown := resendCooldown (this w) |};
     rt := rt w |}.

Definition set_timers (ts : list timer) (w : World) : World :=
  {| this := this w;
     rt := {| clock := clock (rt w); timers := ts;
              next_handle := next_handle (rt w);
              entropy := entropy (rt w); draws := draws (rt w);
              log := log (rt w) |} |}.

(** The simulated clock moved to [t]. *)
Definition at_time (t : Z) (w : World) : World :=
  {| this := this w;
     rt := {| clock := t; timers := timers (rt w);
              next_handle := next_handle (rt w);
              entropy := entropy (rt w); draws := draws (rt w);
              log := log (rt w) |} |}.

(** *** Browser primitives *)

Definition Date_now (w : World) : Z := clock (rt w).

Definition Math_random (w : World) : Q * World :=
  (entropy (rt w) (draws (rt w)),
   {| this := this w;
      rt := {| clock := clock (rt w); timers := timers (rt w);
               next_handle := next_handle (rt w);
               entropy := entropy (rt w); draws := S (draws (rt w));
               log := log (rt w) |} |}).

Definition emit (e : event) (w : World) : World :=
  {| this := this w;
     rt := {| clock := clock (rt w); timers := timers (rt w);
              next_handle := next_handle (rt w);
              entropy := entropy (rt w); draws := draws (rt w);
              log := log (rt w) ++ [e] |} |}.

(** Registration of a timer: a fresh handle, due [delay] ms from now. *)
Definition register (every : option Z) (code : callback) (delay : Z)
    (w : World) : positive * World :=
  let h := next_handle (rt w) in
  (h,
   {| this := this w;
      rt := {| clock := clock (rt w);
               timers := timers (rt w)
                         ++ [ {| t_handle := h; t_due := clock (rt w) + delay;
                                 t_every := every; t_code := code |} ];
               next_handle := Pos.succ h;
               entropy := entropy (rt w); draws := draws (rt w);
               log := log (rt w) |} |}).

Definition setTimeout (code : callback) (delay : Z) (w : World)
    : positive * World :=
  register None code delay w.

Definition setInterval (code : callback) (period : Z) (w : World)
    : positive * World :=
  register (Some period) code period w.

Definition has_handle (h : positive) (t : timer) : bool :=
  Pos.eqb (t_handle t) h.

(** [clearInterval(v)]: drops the timer with that handle; [null] and handles
    that are not in the table are ignored. *)
Definition clearInterval (v : option positive) (w : World) : World :=
  match v with
  | None => w
  | Some h => set_timers (filter (fun t => negb (has_handle h t)) (timers (rt w))) w
  end.

(** ** The methods of [OTPHandler] *)

(** [validatePhoneNumber(phone)]: [/^[0-9]{10}$/.test(phone)]. *)
Definition validatePhoneNumber (phone : string) : bool :=
  JS.test_digits 10 phone.

(** [maskPhoneNumber(phone)]. *)
Definition maskPhoneNumber (phone : string) : string :=
  if (String.length phone <? 10)%nat then phone
  else (JS.substring phone 0 3 ++ "****" ++ JS.substring_from phone 7)%string.

(** [generateOTP()]. *)
Definition generateOTP (w : World) : string * World :=
  let '(r, w1) := Math_random w in
  let otp := JS.Number_toString (JS.Math_floor (100000 + r * 900000)%Q) in
  let w2 := set_generatedOTP (Some otp) w1 in
  let w3 := set_otpExpiry (Some (Date_now w2 + 5 * 60 * 1000)) w2 in
  (otp, w3).

(** [showOTPNotification(phone, otp)]: the element is appended to the page
    and a timeout is set that slides it out after ten seconds. *)
Definition showOTPNotification (phone otp : string) (w : World) : World :=
  let w1 := emit (NotificationShown phone otp) w in
  snd (setTimeout SlideOutNotification 10000 w1).

(** The result object of [sendOTP]'s promise. *)
Definition otp_sent (phoneNumber : string) : sent :=
  {| sent_success := true;
     sent_message := ("OTP sent to " ++ maskPhoneNumber phoneNumber)%string;
     expiresIn := 300 |}.

(** The arrow function [sendOTP] passes to [setTimeout]; [request] is the
    handle of that timeout and names the promise it resolves. *)
Definition deliver (request : positive) (phoneNumber : string) (w : World)
    : World :=
  let '(otp, w1) := generateOTP w in
  let w2 := emit (ConsoleLog ("[DEV] OTP sent to " ++ phoneNumber ++ ": " ++ otp)%string) w1 in
  let w3 := showOTPNotification phoneNumber otp w2 in
  emit (Resolved request (otp_sent phoneNumber)) w3.

(** The promise [sendOTP] returns: already rejected with an [Error] carrying a
    message, or pending until the timeout with the given handle fires. *)
Inductive promise :=
| Rejected (error : string)
| Pending (request : positive).

Definition invalid_phone_message : string :=
  "Invalid phone number format. Please enter a 10-digit number.".

(** [sendOTP(phoneNumber)]. *)
Definition sendOTP (phoneNumber : string) (w : World) : promise * World :=
  if negb (validatePhoneNumber phoneNumber) then
    (Rejected invalid_phone_message, w)
  else
    let '(h, w1) := setTimeout (DeliverOTP phoneNumber) 1500 w in
    (Pending h, w1).

(** The four result objects of [verifyOTP]. *)
Definition no_otp_generated : verdict :=
  {| success := false;
     message := "No OTP has been generated. Please request a new OTP." |}.

Definition otp_expired : verdict :=
  {| success := false;
     message := "OTP has expired. Please request a new OTP." |}.

Definition otp_verified : verdict :=
  {| success := true;
     message := "OTP verified successfully!" |}.

Definition otp_invalid : verdict :=
  {| success := false;
     message := "Invalid OTP. Please try again." |}.

(** [enteredOTP === this.generatedOTP] for a string [enteredOTP]. *)
Definition strict_equal (entered : string) (stored : option string) : bool :=
  match stored with
  | None => false
  | Some otp => String.eqb entered otp
  end.

(** [verifyOTP(enteredOTP)]. *)
Definition verifyOTP (enteredOTP : string) (w : World) : verdict * World :=
  if negb (JS.truthy (generatedOTP (this w))) then
    (no_otp_generated, w)
  else if Date_now w >? JS.to_number (otpExpiry (this w)) then
    (otp_expired, set_generatedOTP None w)
  else if strict_equal enteredOTP (generatedOTP (this w)) then
    (otp_verified, set_generatedOTP None w)
  else
    (otp_invalid, w).

(** The names the specification gives to the outcomes of the two fallible
    operations. *)
Inductive outcome :=
| Verified
| NoCodeRequested
| CodeExpired
| CodeMismatch.

Definition outcome_of (v : verdict) : option outcome :=
  if success v then
    if String.eqb (message v) (message otp_verified) then Some Verified else None
  else if String.eqb (message v) (message no_otp_generated) then Some NoCodeRequested
  else if String.eqb (message v) (message otp_expired) then Some CodeExpired
  else if String.eqb (message v) (message otp_invalid) then Some CodeMismatch
  else None.

Definition InvalidPhoneFormat : promise := Rejected invalid_phone_message.

(** [startCountdown(displayElement, onComplete)]. *)
Definition startCountdown (displayElement : nat) (onComplete : option nat)
    (w : World) : World :=
  let timeLeft := resendCooldown (this w) in
  let w1 := match countdownInterval (this w) with
            | Some h => clearInterval (Some h) w
            | None => w
            end in
  let w2 := emit (TextContent displayElement timeLeft) w1 in
  let '(h, w3) := setInterval (CountdownTick timeLeft displayElement onComplete) 1000 w2 in
  set_countdownInterval (Some h) w3.

(** [stopCountdown()]. *)
Definition stopCountdown (w : World) : World :=
  match countdownInterval (this w) with
  | Some h => set_countdownInterval None (clearInterval (Some h) w)
  | None => w
  end.

(** ** The event loop *)

(** The closure of the timer [h] with its captured variables updated. *)
Definition update_closure (h : positive) (code : callback) (w : World) : World :=
  set_timers
    (map (fun t => if has_handle h t
                   then {| t_handle := t_handle t; t_due := t_due t;
                           t_every := t_every t; t_code := code |}
                   else t)
         (timers (rt w))) w.

(** The body of the timer [h]. *)
Definition run_callback (h : positive) (code : callback) (w : World) : World :=
  match code with
  | CountdownTick timeLeft displayElement onComplete =>
      let timeLeft := timeLeft - 1 in
      let w1 := update_closure h (CountdownTick timeLeft displayElement onComplete) w in
      let w2 := emit (TextContent displayElement timeLeft) w1 in
      if timeLeft <=? 0 then
        let w3 := clearInterval (countdownInterval (this w2)) w2 in
        match onComplete with
        | Some f => emit (Called f) w3
        | None => w3
        end
      else w2
  | DeliverOTP phoneNumber => deliver h phoneNumber w
  | SlideOutNotification =>
      snd (setTimeout RemoveNotification 500 (emit NotificationSlidOut w))
  | RemoveNotification => emit NotificationRemoved w
  end.

(** A timer that has come due: an interval is moved one period ahead, a
    timeout leaves the table; then its body runs. *)
Definition reschedule (t : timer) (w : World) : World :=
  match t_every t with
  | Some period =>
      set_timers
        (map (fun u => if has_handle (t_handle t) u
                       then {| t_handle := t_handle u; t_due := t_due u + period;
                               t_every := t_every u; t_code := t_code u |}
                       else u)
             (timers (rt w))) w
  | None =>
      set_timers (filter (fun u => negb (has_handle (t_handle t) u)) (timers (rt w))) w
  end.

Definition fire (t : timer) (w : World) : World :=
  run_callback (t_handle t) (t_code t) (reschedule t w).

Definition is_due (now : Z) (t : timer) : bool := t_due t <=? now.

(** Firing the timer with handle [h] unless an earlier callback of the same
    instant cleared it. *)
Definition fire_handle (w : World) (h : positive) : World :=
  match find (has_handle h) (timers (rt w)) with
  | Some t => fire t w
  | None => w
  end.

(** One millisecond passes: the clock advances and the timers that are due
    fire in registration order. *)
Definition tick (w : World) : World :=
  let w1 := at_time (clock (rt w) + 1) w in
  fold_left fire_handle
    (map t_handle (filter (is_due (clock (rt w1))) (timers (rt w1)))) w1.

(** [n] milliseconds pass. *)
Definition elapse (n : nat) (w : World) : World := Nat.iter n tick w.

(** ** Sessions *)

(** What can happen to a page: a call of one of the public methods, or the
    passage of a millisecond. *)
Inductive action :=
| CallGenerateOTP
| CallSendOTP (phoneNumber : string)
| CallVerifyOTP (enteredOTP : string)
| CallStartCountdown (displayElement : nat) (onComplete : option nat)
| CallStopCountdown
| Millisecond.

Definition exec (w : World) (a : action) : World :=
  match a with
  | CallGenerateOTP => snd (generateOTP w)
  | CallSendOTP phoneNumber => snd (sendOTP phoneNumber w)
  | CallVerifyOTP enteredOTP => snd (verifyOTP enteredOTP w)
  | CallStartCountdown displayElement onComplete =>
      startCountdown displayElement onComplete w
  | CallStopCountdown => stopCountdown w
  | Millisecond => tick w
  end.

Definition run (acts : list action) (w : World) : World :=
  fold_left exec acts w.

(** The states a session can be in: those a freshly constructed handler
    reaches through some sequence of actions. *)
Inductive reachable : World -> Prop :=
| reachable_boot rnd t0 : reachable (boot rnd t0)
| reachable_exec w a : reachable w -> reachable (exec w a).

(** ** Vocabulary of the properties *)

(** An ASCII digit, and a string of exactly ten of them. *)
Definition ascii_digit (c : ascii) : Prop :=
  (48 <= nat_of_ascii c <= 57)%nat.

Definition ten_digits (s : string) : Prop :=
  String.length s = 10%nat /\ Forall ascii_digit (list_ascii_of_string s).

(** The stored code is present, the stored expiry is present. *)
Definition code_present (w : World) : Prop := generatedOTP (this w) <> None.
Definition expiry_present (w : World) : Prop := otpExpiry (this w) <> None.

(** [code] and [expiresAt] are both set or both cleared. *)
Definition set_and_cleared_together (w : World) : Prop :=
  code_present w <-> expiry_present w.

(** The part of the state that [requestCode] must leave alone when it
    rejects its input. *)
Definition session_state (w : World)
    : option string * option Z * option positive :=
  (generatedOTP (this w), otpExpiry (this w), countdownInterval (this w)).

(** The events of a countdown: writes to a display element and calls of a
    completion callback. *)
Definition countdown_event (e : event) : bool :=
  match e with
  | TextContent _ _ => true
  | Called _ => true
  | _ => false
  end.

Definition countdown_log (w : World) : list event :=
  filter countdown_event (log (rt w)).

(** [hi, hi-1, ..., hi-n+1] written to a display element. *)
Fixpoint count_down (displayElement : nat) (hi : Z) (n : nat) : list event :=
  match n with
  | O => []
  | S n' => TextContent displayElement hi :: count_down displayElement (hi - 1) n'
  end.

Definition completion (onComplete : option nat) : list event :=
  match onComplete with
  | Some f => [Called f]
  | None => []
  end.

(** What the verification path reads: the stored code, its expiry, and how
    many random values have been drawn (one per generated code); with it,
    the configured cooldown. *)
Definition code_view (w : World) : option string * option Z * nat * Z :=
  (generatedOTP (this w), otpExpiry (this w), draws (rt w),
   resendCooldown (this w)).

(** A random source that always returns one half. *)
Definition one_half : nat -> Q := fun _ => (1 # 2)%Q.

(** Two requests for the same phone number, each given the 1.5 s its
    delivery takes. *)
Definition one_request : list action :=
  CallSendOTP "0811234567" :: repeat Millisecond 1500.

Definition two_requests : list action := one_request ++ one_request.

(** No code has been generated since [w0], and the stored code is either
    cleared or still [c]. *)
Definition still_current (c : string) (w0 w : World) : Prop :=
  (draws (rt w0) <= draws (rt w))%nat
  /\ (draws (rt w) = draws (rt w0) ->
      generatedOTP (this w) = None \/ generatedOTP (this w) = Some c).

(** A stored code is a non-empty string and comes with an expiry. *)
Definition issued_ok (w : World) : Prop :=
  forall c, generatedOTP (this w) = Some c ->
    JS.truthy (Some c) = true /\ otpExpiry (this w) <> None.

(** A session in which a code is requested directly and then verified. *)
Definition request_then_verify : list action :=
  [CallGenerateOTP; CallVerifyOTP "550000"].

(** The timers that belong to a countdown. *)
Definition is_countdown (t : timer) : bool :=
  match t_code t with
  | CountdownTick _ _ _ => true
  | _ => false
  end.

(** How the timer table, the next free handle and the [countdownInterval]
    field fit together in a running page: handles in the table are distinct
    and were all handed out already; a countdown timer is a one-second
    interval and is the one named by the field; the field names no other
    timer. *)
Record table_ok (ts : list timer) (next : positive) (field : option positive)
    : Prop := mkTableOk {
  ok_fresh : forall t, In t ts -> (t_handle t < next)%positive;
  ok_nodup : NoDup (map t_handle ts);
  ok_owned : forall t, In t ts -> is_countdown t = true ->
               field = Some (t_handle t) /\ t_every t = Some 1000;
  ok_field : forall h, field = Some h -> (h < next)%positive;
  ok_named : forall t, In t ts -> field = Some (t_handle t) ->
               is_countdown t = true
}.

Definition timers_ok (w : World) : Prop :=
  table_ok (timers (rt w)) (next_handle (rt w)) (countdownInterval (this w)).

(** No countdown is running. *)
Definition no_countdown (w : World) : Prop :=
  forall t, In t (timers (rt w)) -> is_countdown t = false.

(** The countdown timers in the table. *)
Definition running (w : World) : list timer :=
  filter is_countdown (timers (rt w)).

(** What a countdown reads and writes: the handle field, the countdown
    timers, the clock, and the countdown events logged so far. *)
Definition countdown_view (w : World)
    : option positive * list timer * Z * list event :=
  (countdownInterval (this w), running w, clock (rt w), countdown_log w).

(** The table entry of a countdown with handle [h] that is next due at [due]
    and has [timeLeft] seconds to go. *)
Definition countdown_timer (h : positive) (due timeLeft : Z)
    (displayElement : nat) (onComplete : option nat) : timer :=
  {| t_handle := h; t_due := due; t_every := Some 1000;
     t_code := CountdownTick timeLeft displayElement onComplete |}.

(** The table entry of the timeout that delivers a code. *)
Definition delivery (h : positive) (due : Z) (phoneNumber : string) : timer :=
  {| t_handle := h; t_due := due; t_every := None;
     t_code := DeliverOTP phoneNumber |}.

(** A request completes in [w], leaving [w']: [generateOTP] runs, called
    directly or from the delivery timeout of [sendOTP], and produces the
    code [c]. *)
Definition request_completes (w : World) (c : string) (w' : World) : Prop :=
  generateOTP w = (c, w')
  \/ exists h phoneNumber,
       fst (generateOTP w) = c /\ w' = deliver h phoneNumber w.

(** Every promise resolved so far belongs to a handle that has been handed
    out. *)
Definition resolutions_known (w : World) : Prop :=
  forall h r, In (Resolved h r) (log (rt w)) -> (h < next_handle (rt w))%positive.

(** ** Further vocabulary *)

(** The timers that deliver a code, and those of them in the table. *)
Definition is_delivery (t : timer) : bool :=
  match t_code t with
  | DeliverOTP _ => true
  | _ => false
  end.

Definition deliveries (w : World) : list timer :=
  filter is_delivery (timers (rt w)).

(** A run of verification attempts, one per entered string. *)
Definition attempts (guesses : list string) : list action :=
  map CallVerifyOTP guesses.

(** The decimal digit [k] written in front of the digits [d]. *)
Definition digit (k : N) (d : Decimal.uint) : Decimal.uint :=
  match k with
  | 0 => Decimal.D0 d
  | 1 => Decimal.D1 d
  | 2 => Decimal.D2 d
  | 3 => Decimal.D3 d
  | 4 => Decimal.D4 d
  | 5 => Decimal.D5 d
  | 6 => Decimal.D6 d
  | 7 => Decimal.D7 d
  | 8 => Decimal.D8 d
  | _ => Decimal.D9 d
  end%N.

(** ** The login and registration pages ([auth.js])

    What the form handlers decide is modelled as values: the alert a
    handler shows through [showAlert] and the session it stores are returned
    instead of being written to the page. *)

Module Form.

(** [FormData]: the entries of the form, in document order. *)
Definition FormData := list (string * string).

(** [formData.get(name)]: the first value under that name, or null. *)
Fixpoint get (formData : FormData) (name : string) : option string :=
  match formData with
  | [] => None
  | (key, value) :: rest =>
      if String.eqb key name then Some value else get rest name
  end.

(** The white space and line terminators [trim] strips, among the code
    units a [string] holds: tab, line feed, vertical tab, form feed, carriage
    return, space and no-break space. *)
Definition is_white_space (c : ascii) : bool :=
  match N_of_ascii c with
  | 9 | 10 | 11 | 12 | 13 | 32 | 160 => true
  | _ => false
  end%N.

Fixpoint trimStart (s : string) : string :=
  match s with
  | EmptyString => EmptyString
  | String c s' => if is_white_space c then trimStart s' else s
  end.

Fixpoint trimEnd (s : string) : string :=
  match s with
  | EmptyString => EmptyString
  | String c s' =>
      match trimEnd s' with
      | EmptyString => if is_white_space c then EmptyString else String c EmptyString
      | String c' r => String c (String c' r)
      end
  end.

(** [s.trim()]. *)
Definition trim (s : string) : string := trimEnd (trimStart s).

(** The regular expressions the pages use: [/^[0-9]{n}$/]. *)
Inductive RegExp :=
| ExactDigits (n : nat).

Definition test (re : RegExp) (s : string) : bool :=
  match re with
  | ExactDigits n => JS.test_digits n s
  end.

(** A validation rule; an absent key is [false] or [None]. *)
Record rule := mkRule {
  required : bool;
  label : option string;
  minLength : option nat;
  pattern : option RegExp;
  patternMessage : option string;
  matches : option string                (* the key [match] *)
}.

(** [a || b] for a string or undefined [a]. *)
Definition or_else (a : option string) (b : string) : string :=
  match a with
  | Some (String c a') => String c a'
  | _ => b
  end.

(** [a === b] for two values that are strings or null. *)
Definition strict_equal (a b : option string) : bool :=
  match a, b with
  | Some x, Some y => String.eqb x y
  | None, None => true
  | _, _ => false
  end.

(** [!value || value.trim() === ''] *)
Definition blank (value : option string) : bool :=
  match value with
  | Some v => negb (JS.truthy value) || String.eqb (trim v) EmptyString
  | None => true
  end.

(** What [validateForm] returns: [{ valid: true }] or
    [{ valid: false, message }]. *)
Record validation := mkValidation {
  valid : bool;
  message : option string
}.

(** One turn of the loop of [validateForm]: the message of the first check
    the field fails, if any. *)
Definition check (formData : FormData) (field : string) (r : rule)
    : option string :=
  let value := get formData field in
  let name := or_else (label r) field in
  if required r && blank value then
    Some (name ++ " is required.")%string
  else if match minLength r, value with
          | Some (S n), Some (String c v) =>
              (String.length (String c v) <? S n)%nat
          | _, _ => false
          end then
    Some (name ++ " must be at least "
          ++ JS.Number_toString
               (Z.of_nat (match minLength r with Some n => n | None => 0 end))
          ++ " characters.")%string
  else if match pattern r, value with
          | Some re, Some (String c v) => negb (test re (String c v))
          | _, _ => false
          end then
    Some (or_else (patternMessage r) (name ++ " format is invalid."))%string
  else if match matches r with
          | Some (String c m) =>
              negb (strict_equal value (get formData (String c m)))
          | _ => false
          end then
    Some (name ++ " does not match.")%string
  else None.

(** [validateForm(formData, rules)]; [rules] lists the entries of the rules
    object in insertion order. *)
Fixpoint validateForm (formData : FormData) (rules : list (string * rule))
    : validation :=
  match rules with
  | [] => {| valid := true; message := None |}
  | (field, r) :: rest =>
      match check formData field r with
      | Some m => {| valid := false; message := Some m |}
      | None => validateForm formData rest
      end
  end.

Definition only_required (l : string) : rule :=
  {| required := true; label := Some l; minLength := None; pattern := None;
     patternMessage := None; matches := None |}.

(** The rules of the login form. *)
Definition login_rules : list (string * rule) :=
  [ ("username", only_required "Username");
    ("password", only_required "Password");
    ("phone",
     {| required := true; label := Some "Phone Number"; minLength := None;
        pattern := Some (ExactDigits 10);
        patternMessage := Some "Phone number must be 10 digits.";
        matches := None |}) ]%string.

Definition thirteen_digits (l m : string) : rule :=
  {| required := true; label := Some l; minLength := None;
     pattern := Some (ExactDigits 13); patternMessage := Some m;
     matches := None |}.

(** The rules of the registration form for the submitted role. *)
Definition registration_rules (role : option string) : list (string * rule) :=
  (List.app
   [ ("firstName", only_required "First Name");
     ("lastName", only_required "Last Name");
     ("phone",
      {| required := true; label := Some "Phone Number"; minLength := None;
         pattern := Some (ExactDigits 10);
         patternMessage := Some "Phone number must be 10 digits.";
         matches := None |});
     ("role", only_required "Role");
     ("password",
      {| required := true; label := Some "Password"; minLength := Some 8%nat;
         pattern := None; patternMessage := None; matches := None |});
     ("confirmPassword",
      {| required := true; label := Some "Confirm Password"; minLength := None;
         pattern := None; patternMessage := None;
         matches := Some "password" |}) ]
      (if strict_equal role (Some "risk_management") then
         [ ("employeeId", only_required "Employee ID");
           ("bankName", only_required "Bank Name") ]
       else if strict_equal role (Some "admin") then
         [ ("personalId",
            thirteen_digits "Personal ID" "Personal ID must be 13 digits.");
           ("idCard", thirteen_digits "ID Card" "ID Card must be 13 digits.") ]
       else []))%string.

End Form.

Module Users.

(** The object the registration page passes to [storeUserData]. *)
Record userData := mkUserData {
  firstName : string;
  lastName : string;
  username : string;
  phone : string;
  role : string;
  password : string;
  employeeId : option string;
  bankName : option string;
  personalId : option string;
  idCard : option string
}.

(** A stored user: [{ ...userData, id, createdAt }]. *)
Record user := mkUser {
  data : userData;
  id : Z;
  createdAt : string
}.

(** [localStorage] under the key ['hydra_users']: nothing, or the stored
    array. *)
Definition storage := option (list user).

(** [JSON.parse(localStorage.getItem('hydra_users') || '[]')] *)
Definition stored_users (st : storage) : list user :=
  match st with
  | Some users => users
  | None => []
  end.

(** [s === v] for a string [s] and a value [v] that is a string or null. *)
Definition same (s : string) (v : option string) : bool :=
  match v with
  | Some x => String.eqb s x
  | None => false
  end.

Section Clock.

(** [new Date(t).toISOString()], a function of the browser. *)
Variable toISOString : Z -> string.

(** [storeUserData(userData)] at the instant [now]. *)
Definition storeUserData (u : userData) (now : Z) (st : storage)
    : verdict * storage :=
  let users := stored_users st in
  match find (fun x => String.eqb (phone (data x)) (phone u)) users with
  | Some _ =>
      ({| success := false;
          message := "An account with this phone number already exists." |},
       st)
  | None =>
      ({| success := true; message := "Account created successfully!" |},
       Some (users ++ [ {| data := u; id := now; createdAt := toISOString now |} ]))
  end.

End Clock.

(** [findUser(username, phone)]. *)
Definition findUser (name number : option string) (st : storage)
    : option user :=
  find (fun u => (same (username (data u)) name || same (phone (data u)) number)
                 && same (phone (data u)) number)
       (stored_users st).

(** [verifyPassword(user, password)], as the truth value of its result. *)
Definition verifyPassword (u : option user) (pass : option string) : bool :=
  match u with
  | Some x => same (password (data x)) pass
  | None => false
  end.

End Users.

Module Login.

(** What the login page stores under ['hydra_session']. *)
Record session := mkSession {
  userId : Z;
  username : string;
  role : string;
  loggedInAt : string
}.

(** What a submission of the login form does: the alert it shows (text and
    kind) and the session it stores; the redirect to the dashboard is
    scheduled exactly when a session is stored. *)
Record submitted := mkSubmitted {
  alert : option string * string;
  stored : option session
}.

Definition refused (text : option string) : submitted :=
  {| alert := (text, "error"%string); stored := None |}.

Section Clock.

Variable toISOString : Z -> string.

(** The [submit] handler of the login form; [otpSent] is the flag the
    send button sets once a code has been sent. *)
Definition submit (formData : Form.FormData) (otpSent : bool)
    (st : Users.storage) (w : World) : submitted * World :=
  let name := Form.get formData "username" in
  let pass := Form.get formData "password" in
  let number := Form.get formData "phone" in
  let otp := Form.get formData "otp" in
  let validation := Form.validateForm formData Form.login_rules in
  if negb (Form.valid validation) then
    (refused (Form.message validation), w)
  else if negb otpSent then
    (refused (Some "Please send and verify OTP first."%string), w)
  else
    match otp with
    | Some (String c o) =>
        let '(otpResult, w1) := verifyOTP (String c o) w in
        if negb (success otpResult) then
          (refused (Some (message otpResult)), w1)
        else
          match Users.findUser name number st with
          | None =>
              (refused (Some "No account found. Please register first."%string), w1)
          | Some u =>
              if negb (Users.verifyPassword (Some u) pass) then
                (refused (Some "Invalid password."%string), w1)
              else
                ({| alert := (Some "Login successful! Redirecting..."%string,
                              "success"%string);
                    stored :=
                      Some {| userId := Users.id u;
                              username :=
                                Form.or_else
                                  (Some (Users.username (Users.data u)))
                                  (Users.firstName (Users.data u));
                              role := Users.role (Users.data u);
                              loggedInAt := toISOString (Date_now w1) |} |},
                 w1)
          end
    | _ => (refused (Some "Please enter the OTP code."%string), w)
    end.

End Clock.

End Login.

(** A string of white space only (the empty string included). *)
Definition all_white_space (s : string) : Prop :=
  Forall (fun c => Form.is_white_space c = true) (list_ascii_of_string s).

(** A form value that is present and not blank. *)
Definition filled (v : option string) : Prop :=
  exists s, v = Some s /\ ~ all_white_space s.

(** A form value that is present and consists of exactly [n] digits. *)
Definition digits (n : nat) (v : option string) : Prop :=
  exists s, v = Some s /\ JS.test_digits n s = true.

(** Every rule of the list is satisfied. *)
Definition all_pass (formData : Form.FormData) (rules : list (string * Form.rule))
    : Prop :=
  Forall (fun fr => Form.check formData (fst fr) (snd fr) = None) rules.

(** No two stored users share a phone number. *)
Definition distinct_phones (st : Users.storage) : Prop :=
  NoDup (map (fun u => Users.phone (Users.data u)) (Users.stored_users st)).

(** The session the login page stores for the user [u] at the instant
    [now]. *)
Definition session_of (toISOString : Z -> string) (u : Users.user) (now : Z)
    : Login.session :=
  {| Login.userId := Users.id u;
     Login.username :=
       Form.or_else (Some (Users.username (Users.data u)))
                    (Users.firstName (Users.data u));
     Login.role := Users.role (Users.data u);
     Login.loggedInAt := toISOString now |}.

(** A stand-in for [toISOString] in worked examples. *)
Definition sample_iso : Z -> string :=
  fun t => ("T" ++ JS.Number_toString t)%string.

(** A filled-in login form, a user and the storage holding that user. *)
Definition sample_login : Form.FormData :=
  [ ("username", "anyone"); ("password", "secret12");
    ("phone", "0811234567"); ("otp", "550000") ]%string.

Definition sample_user : Users.userData :=
  {| Users.firstName := "Ada"; Users.lastName := "Byron";
     Users.username := "adab"; Users.phone := "0811234567";
     Users.role := "admin"; Users.password := "secret12";
     Users.employeeId := None; Users.bankName := None;
     Users.personalId := Some "1234567890123"%string;
     Users.idCard := Some "1234567890123"%string |}%string.

(** *** Mock data and its helpers (mockData.js) *)

Module HydraData.

Record account : Type := mkAccount
  { id : string; name : string; bank : string; type : string;
    riskScore : Z }.

Definition mockAccounts : list account :=
  [ mkAccount "ACC001" "สมชาย มั่งมี" "SCB" "normal" 15;
    mkAccount "ACC002" "สมหญิง รวยดี" "Kbank" "normal" 8;
    mkAccount "ACC003" "Mule_Alpha" "TTB" "mule" 92;
    mkAccount "ACC004" "Mule_Beta" "BBL" "mule" 88;
    mkAccount "ACC005" "Mule_Gamma" "BAY" "mule" 95;
    mkAccount "ACC006" "Boss_X" "SCB" "suspect" 78;
    mkAccount "ACC007" "วิชัย ธรรมดา" "Kbank" "normal" 12;
    mkAccount "ACC008" "นารี ปกติ" "TTB" "normal" 5;
    mkAccount "ACC009" "Suspect_Y" "BBL" "suspect" 72;
    mkAccount "ACC010" "Mule_Delta" "BAY" "mule" 85;
    mkAccount "ACC011" "องค์กร_Z" "SCB" "suspect" 68;
    mkAccount "ACC012" "ประชา ดี" "Kbank" "normal" 3 ]%string.

(** [getRiskLevel(score)]; a score is read as the rational it denotes. *)
Definition getRiskLevel (score : Q) : string :=
  (if Qle_bool 80 score then "critical"
   else if Qle_bool 60 score then "high"
   else if Qle_bool 40 score then "medium"
   else "low")%string.

(** [arr[k]] for a whole number [k]: [undefined] outside the array. *)
Definition at_index {A : Type} (arr : list A) (k : Z) : option A :=
  if k <? 0 then None else nth_error arr (Z.to_nat k).

Record money : Type := { Ccy : string; Val : Z }.
Record party : Type := { AcctId : string; Nm : string }.

Record transaction : Type :=
  { TxId : string; CreDtTm : string; Amt : money; Dbtr : party;
    Cdtr : party; RiskScore : Z; Status : string; Flags : list string }.

Section Clock.

(** [new Date(ms).toISOString()] and the instant a timestamp denotes
    ([new Date(timestamp)], [None] for an invalid date); the text form of
    dates is left to the browser. *)
Variable toISOString : Z -> string.
Variable Date_parse : string -> option Z.

(** [generateRandomTransaction()].  Reading a property of [undefined]
    throws: the result is then [None], with the draws made so far kept. *)
Definition generateRandomTransaction (w : World)
    : option transaction * World :=
  let senders :=
    filter (fun a => String.eqb (type a) "normal"%string) mockAccounts in
  let receivers := mockAccounts in
  let '(r1, w1) := Math_random w in
  let sender :=
    at_index senders
      (JS.Math_floor (r1 * inject_Z (Z.of_nat (List.length senders)))%Q) in
  let '(r2, w2) := Math_random w1 in
  let receiver :=
    at_index receivers
      (JS.Math_floor (r2 * inject_Z (Z.of_nat (List.length receivers)))%Q) in
  let '(r3, w3) := Math_random w2 in
  let amount := JS.Math_floor (r3 * 100000)%Q + 1000 in
  match receiver with
  | None => (None, w3)
  | Some r =>
      let '(r4, w4) := Math_random w3 in
      let riskScore :=
        if String.eqb (type r) "mule"%string then 80 + JS.Math_floor (r4 * 20)%Q
        else if String.eqb (type r) "suspect"%string
             then 60 + JS.Math_floor (r4 * 20)%Q
             else JS.Math_floor (r4 * 30)%Q in
      match sender with
      | None => (None, w4)
      | Some s =>
          (Some {| TxId := ("TX" ++ JS.Number_toString (Date_now w4))%string;
                   CreDtTm := toISOString (Date_now w4);
                   Amt := {| Ccy := "THB"%string; Val := amount |};
                   Dbtr := {| AcctId := id s; Nm := name s |};
                   Cdtr := {| AcctId := id r; Nm := name r |};
                   RiskScore := riskScore;
                   Status := if 80 <=? riskScore then "blocked"%string
                             else if 60 <=? riskScore then "flagged"%string
                             else "pending"%string;
                   Flags := if 80 <=? riskScore then ["auto_block"%string]
                            else [] |},
           w4)
      end
  end.

(** [formatRelativeTime(timestamp)] at the instant [now]; an invalid date
    makes every comparison false and prints as [NaN]. *)
Definition formatRelativeTime (timestamp : string) (now : Z) : string :=
  match Date_parse timestamp with
  | None => "NaNd ago"%string
  | Some date =>
      let diff := (now - date) / 1000 in
      if diff <? 60 then (JS.Number_toString diff ++ "s ago")%string
      else if diff <? 3600
      then (JS.Number_toString (diff / 60) ++ "m ago")%string
      else if diff <? 86400
      then (JS.Number_toString (diff / 3600) ++ "h ago")%string
      else (JS.Number_toString (diff / 86400) ++ "d ago")%string
  end.

End Clock.

End HydraData.

(** The next [k] values of the random source lie in [0, 1), as the values
    of [Math.random()] do. *)
Definition fair_draws (k : nat) (w : World) : Prop :=
  forall i, (i < k)%nat ->
    (0 <= entropy (rt w) (draws (rt w) + i))%Q
    /\ (entropy (rt w) (draws (rt w) + i) < 1)%Q.

(** The world after [k] more values have been drawn. *)
Definition drawn (w : World) (k : nat) : World :=
  {| this := this w;
     rt := {| clock := clock (rt w); timers := timers (rt w);
              next_handle := next_handle (rt w);
              entropy := entropy (rt w);
              draws := (k + draws (rt w))%nat; log := log (rt w) |} |}.

(** A stand-in for the parsing of dates in worked examples. *)
Definition sample_parse (s : string) : option Z :=
  if String.eqb s "then" then Some 1000000 else None.

(** The party entry a transaction carries for an account. *)
Definition party_of (a : HydraData.account) : HydraData.party :=
  {| HydraData.AcctId := HydraData.id a; HydraData.Nm := HydraData.name a |}.

(** The timeouts of a notification, and the events of its life. *)
Definition is_slide_out (t : timer) : bool :=
  match t_code t with
  | SlideOutNotification => true
  | _ => false
  end.

Definition is_removal (t : timer) : bool :=
  match t_code t with
  | RemoveNotification => true
  | _ => false
  end.

Definition shown_event (e : event) : bool :=
  match e with
  | NotificationShown _ _ => true
  | _ => false
  end.

Definition slid_event (e : event) : bool :=
  match e with
  | NotificationSlidOut => true
  | _ => false
  end.

Definition removed_event (e : event) : bool :=
  match e with
  | NotificationRemoved => true
  | _ => false
  end.

(** How many elements of a list satisfy [p]. *)
Definition how_many {A : Type} (p : A -> bool) (l : list A) : nat :=
  List.length (filter p l).

(** The notifications are accounted for: each one shown has slid out or
    has its slide-out timeout pending, each one that slid out has been
    removed or has its removal pending, and those timers are timeouts. *)
Record notifications_ok (w : World) : Prop := mkNotificationsOk {
  ok_shown :
    how_many shown_event (log (rt w))
    = (how_many slid_event (log (rt w))
       + how_many is_slide_out (timers (rt w)))%nat;
  ok_slid :
    how_many slid_event (log (rt w))
    = (how_many removed_event (log (rt w))
       + how_many is_removal (timers (rt w)))%nat;
  ok_timeouts :
    forall t, In t (timers (rt w)) ->
      is_slide_out t || is_removal t = true -> t_every t = None
}.

(** ** Phone helpers *)

Section PhoneHelpers.

Local Open Scope string_scope.

Lemma is_digit_spec c : JS.is_digit c = true <-> ascii_digit c.
Proof.
  unfold JS.is_digit, ascii_digit.
  rewrite andb_true_iff, !Nat.leb_le. tauto.
Qed.

Lemma test_digits_spec n s :
  JS.test_digits n s = true <->
  String.length s = n /\ Forall ascii_digit (list_ascii_of_string s).
Proof.
  revert s; induction n as [|n IH]; intros [|c s]; simpl.
  - split; [intros _; split; [reflexivity | constructor] | reflexivity].
  - split; [discriminate | intros [E _]; discriminate].
  - split; [discriminate | intros [E _]; discriminate].
  - rewrite andb_true_iff, is_digit_spec, IH. split.
    + intros (Hc & Hl & Hs). split; [congruence | constructor; assumption].
    + intros (Hl & Hs). inversion Hs; subst.
      split; [assumption | split; [congruence | assumption]].
Qed.

Lemma validatePhoneNumber_spec phone :
  validatePhoneNumber phone = true <-> ten_digits phone.
Proof. apply test_digits_spec. Qed.

Lemma validatePhoneNumber_false phone :
  validatePhoneNumber phone = false <-> ~ ten_digits phone.
Proof.
  rewrite <- validatePhoneNumber_spec.
  destruct (validatePhoneNumber phone); split; congruence.
Qed.

(** C9. For every string of exactly ten digits, [maskPhoneNumber] returns
    its first three characters, then four ['*'], then its last three
    characters; ["0811234567"] masks to ["081****567"]. *)
Theorem maskPhoneNumber_ten_digits :
  (forall phone, ten_digits phone ->
     exists c0 c1 c2 c3 c4 c5 c6 c7 c8 c9,
       phone = String c0 (String c1 (String c2 (String c3 (String c4
                 (String c5 (String c6 (String c7 (String c8 (String c9 "")))))))))
       /\ maskPhoneNumber phone
          = String c0 (String c1 (String c2
              (String "*" (String "*" (String "*" (String "*"
                 (String c7 (String c8 (String c9 ""))))))))))
  /\ maskPhoneNumber "0811234567" = "081****567".
Proof.
  split; [| reflexivity].
  intros phone [Hlen _].
  do 10 (destruct phone as [|? phone]; [discriminate Hlen |]).
  destruct phone; [| discriminate Hlen].
  do 10 eexists. split; reflexivity.
Qed.

Lemma maskPhoneNumber_ten_digits_witness :
  ten_digits "0811234567" /\
  exists c0 c1 c2 c3 c4 c5 c6 c7 c8 c9,
    "0811234567" = String c0 (String c1 (String c2 (String c3 (String c4
                     (String c5 (String c6 (String c7 (String c8 (String c9 "")))))))))
    /\ maskPhoneNumber "0811234567"
       = String c0 (String c1 (String c2
           (String "*" (String "*" (String "*" (String "*"
              (String c7 (String c8 (String c9 ""))))))))).
Proof.
  assert (H : ten_digits "0811234567").
  { apply validatePhoneNumber_spec. reflexivity. }
  split; [exact H |].
  exact (proj1 maskPhoneNumber_ten_digits "0811234567" H).
Defined.

(** C10. For every string shorter than ten characters, [maskPhoneNumber]
    returns its input unchanged. *)
Theorem maskPhoneNumber_short :
  forall phone, (String.length phone < 10)%nat -> maskPhoneNumber phone = phone.
Proof.
  intros phone H. unfold maskPhoneNumber.
  apply Nat.ltb_lt in H. rewrite H. reflexivity.
Qed.

Lemma maskPhoneNumber_short_witness :
  (String.length "08112345" < 10)%nat /\ maskPhoneNumber "08112345" = "08112345".
Proof.
  assert (H : (String.length "08112345" < 10)%nat) by (simpl; lia).
  split; [exact H | exact (maskPhoneNumber_short "08112345" H)].
Defined.

End PhoneHelpers.

(** ** Verification *)

Section Verification.

Local Open Scope string_scope.

Lemma outcome_names :
  outcome_of otp_verified = Some Verified
  /\ outcome_of no_otp_generated = Some NoCodeRequested
  /\ outcome_of otp_expired = Some CodeExpired
  /\ outcome_of otp_invalid = Some CodeMismatch.
Proof. repeat split. Qed.

Lemma Number_toString_truthy n : JS.truthy (Some (JS.Number_toString n)) = true.
Proof.
  unfold JS.Number_toString, NilZero.string_of_int.
  destruct (Z.to_int n) as [d|d]; [| reflexivity].
  unfold NilZero.string_of_uint. destruct d; reflexivity.
Qed.

Lemma generateOTP_fields w :
  generatedOTP (this (snd (generateOTP w))) = Some (fst (generateOTP w))
  /\ otpExpiry (this (snd (generateOTP w))) = Some (Date_now w + 300000)
  /\ JS.truthy (Some (fst (generateOTP w))) = true
  /\ draws (rt (snd (generateOTP w))) = S (draws (rt w)).
Proof.
  unfold generateOTP; simpl. repeat split.
  apply Number_toString_truthy.
Qed.

(** The four rows of the verification table. *)
Lemma verifyOTP_no_code entered w :
  JS.truthy (generatedOTP (this w)) = false ->
  verifyOTP entered w = (no_otp_generated, w).
Proof. intros H. unfold verifyOTP. rewrite H. reflexivity. Qed.

Lemma verifyOTP_expired entered w :
  JS.truthy (generatedOTP (this w)) = true ->
  JS.to_number (otpExpiry (this w)) < Date_now w ->
  verifyOTP entered w = (otp_expired, set_generatedOTP None w).
Proof.
  intros H L. unfold verifyOTP. rewrite H. simpl.
  apply Z.gtb_lt in L. rewrite L. reflexivity.
Qed.

Lemma verifyOTP_match c w :
  JS.truthy (generatedOTP (this w)) = true ->
  Date_now w <= JS.to_number (otpExpiry (this w)) ->
  generatedOTP (this w) = Some c ->
  verifyOTP c w = (otp_verified, set_generatedOTP None w).
Proof.
  intros H L E. unfold verifyOTP. rewrite H. simpl.
  destruct (Z.gtb_spec (Date_now w) (JS.to_number (otpExpiry (this w)))); [lia |].
  rewrite E. simpl. rewrite String.eqb_refl. reflexivity.
Qed.

Lemma verifyOTP_mismatch entered c w :
  JS.truthy (generatedOTP (this w)) = true ->
  Date_now w <= JS.to_number (otpExpiry (this w)) ->
  generatedOTP (this w) = Some c -> entered <> c ->
  verifyOTP entered w = (otp_invalid, w).
Proof.
  intros H L E N. unfold verifyOTP. rewrite H. simpl.
  destruct (Z.gtb_spec (Date_now w) (JS.to_number (otpExpiry (this w)))); [lia |].
  rewrite E. simpl. apply String.eqb_neq in N. rewrite N. reflexivity.
Qed.

(** Whatever the verdict, the state afterwards is the state before with the
    code possibly cleared. *)
Lemma verifyOTP_state entered w :
  snd (verifyOTP entered w) = w
  \/ snd (verifyOTP entered w) = set_generatedOTP None w.
Proof.
  unfold verifyOTP.
  destruct (negb _); [left; reflexivity |].
  destruct (_ >? _); [right; reflexivity |].
  destruct (strict_equal _ _); [right | left]; reflexivity.
Qed.

Lemma verifyOTP_keeps_expiry entered w :
  otpExpiry (this (snd (verifyOTP entered w))) = otpExpiry (this w).
Proof. destruct (verifyOTP_state entered w) as [E|E]; rewrite E; reflexivity. Qed.

(** Only the matching row succeeds. *)
Lemma verifyOTP_success entered w :
  success (fst (verifyOTP entered w)) = true ->
  verifyOTP entered w = (otp_verified, set_generatedOTP None w).
Proof.
  unfold verifyOTP.
  destruct (negb _); [discriminate |].
  destruct (_ >? _); [discriminate |].
  destruct (strict_equal _ _); [reflexivity | discriminate].
Qed.

(** C2. When [verifyOTP(c)] succeeds, an immediately following
    [verifyOTP(c)] (same clock, nothing in between) fails with "no OTP has
    been generated" (NoCodeRequested): the successful call cleared the
    code. *)
Theorem verifyOTP_single_use :
  forall w c,
    success (fst (verifyOTP c w)) = true ->
    generatedOTP (this (snd (verifyOTP c w))) = None
    /\ fst (verifyOTP c (snd (verifyOTP c w))) = no_otp_generated
    /\ outcome_of (fst (verifyOTP c (snd (verifyOTP c w)))) = Some NoCodeRequested.
Proof.
  intros w c H. apply verifyOTP_success in H.
  rewrite H; simpl. repeat split.
Qed.

Lemma verifyOTP_single_use_witness :
  let w := snd (generateOTP (boot one_half 0)) in
  success (fst (verifyOTP "550000" w)) = true
  /\ fst (verifyOTP "550000" (snd (verifyOTP "550000" w))) = no_otp_generated.
Proof.
  intros w.
  assert (H : success (fst (verifyOTP "550000" w)) = true) by reflexivity.
  split; [exact H |].
  exact (proj1 (proj2 (verifyOTP_single_use w "550000" H))).
Defined.

End Verification.

(** ** Invariants of the stored code *)

(** A property of the stored code, its expiry and the number of codes drawn
    holds throughout a session as soon as generating a code and clearing the
    code preserve it: nothing else in the handler or in the event loop writes
    these fields. *)
Section CodeInvariant.

Variable P : World -> Prop.
Hypothesis P_view : forall w w', code_view w = code_view w' -> P w -> P w'.
Hypothesis P_generate : forall w, P w -> P (snd (generateOTP w)).
Hypothesis P_clear : forall w, P w -> P (set_generatedOTP None w).

Lemma inv_clearInterval v w : P w -> P (clearInterval v w).
Proof. destruct v; [apply P_view; reflexivity | trivial]. Qed.

Lemma inv_deliver h phone w : P w -> P (deliver h phone w).
Proof.
  intros H. apply P_generate in H. revert H.
  apply P_view. reflexivity.
Qed.

Lemma inv_run_callback h code w : P w -> P (run_callback h code w).
Proof.
  intros H. destruct code as [timeLeft d f| phone | |]; simpl.
  - destruct (timeLeft - 1 <=? 0).
    + destruct f; (eapply P_view; [| exact H]);
        destruct (countdownInterval (this w)); reflexivity.
    + revert H. apply P_view. reflexivity.
  - apply inv_deliver, H.
  - revert H. apply P_view. reflexivity.
  - revert H. apply P_view. reflexivity.
Qed.

Lemma inv_fire t w : P w -> P (fire t w).
Proof.
  intros H. apply inv_run_callback. revert H. apply P_view.
  unfold reschedule. destruct (t_every t); reflexivity.
Qed.

Lemma inv_fire_handle w h : P w -> P (fire_handle w h).
Proof.
  unfold fire_handle. destruct (find _ _); [apply inv_fire | trivial].
Qed.

Lemma inv_fold_fire hs : forall w, P w -> P (fold_left fire_handle hs w).
Proof.
  induction hs as [|h hs IH]; simpl; intros w H; [exact H |].
  apply IH, inv_fire_handle, H.
Qed.

Lemma inv_tick w : P w -> P (tick w).
Proof.
  intros H. apply inv_fold_fire. revert H. apply P_view. reflexivity.
Qed.

Lemma inv_verifyOTP entered w : P w -> P (snd (verifyOTP entered w)).
Proof.
  intros H. destruct (verifyOTP_state entered w) as [E|E]; rewrite E; auto.
Qed.

Lemma inv_sendOTP phone w : P w -> P (snd (sendOTP phone w)).
Proof.
  unfold sendOTP. destruct (negb _); simpl; [trivial |].
  apply P_view. reflexivity.
Qed.

Lemma inv_startCountdown d f w : P w -> P (startCountdown d f w).
Proof.
  apply P_view. unfold startCountdown.
  destruct (countdownInterval (this w)); reflexivity.
Qed.

Lemma inv_stopCountdown w : P w -> P (stopCountdown w).
Proof.
  apply P_view. unfold stopCountdown.
  destruct (countdownInterval (this w)); reflexivity.
Qed.

Lemma inv_exec w a : P w -> P (exec w a).
Proof.
  destruct a; simpl.
  - apply P_generate.
  - apply inv_sendOTP.
  - apply inv_verifyOTP.
  - apply inv_startCountdown.
  - apply inv_stopCountdown.
  - apply inv_tick.
Qed.

Lemma inv_run acts : forall w, P w -> P (run acts w).
Proof.
  induction acts as [|a acts IH]; simpl; intros w H; [exact H |].
  apply IH, inv_exec, H.
Qed.

Lemma inv_reachable :
  (forall rnd t0, P (boot rnd t0)) -> forall w, reachable w -> P w.
Proof.
  intros B w R. induction R; [apply B | apply inv_exec; assumption].
Qed.

End CodeInvariant.

Section StoredCode.

Local Open Scope string_scope.

Lemma reachable_run acts : forall w, reachable w -> reachable (run acts w).
Proof.
  induction acts as [|a acts IH]; simpl; intros w R; [exact R |].
  apply IH. constructor. exact R.
Qed.

Lemma reachable_issued_ok w : reachable w -> issued_ok w.
Proof.
  apply inv_reachable.
  - intros u u' V H c E. unfold code_view in V.
    injection V as E1 E2 _ _. rewrite <- E1 in E. rewrite <- E2.
    apply H, E.
  - intros u _ c E.
    destruct (generateOTP_fields u) as (Hc & He & Ht & _).
    rewrite Hc in E. injection E as <-. split; [exact Ht |].
    rewrite He. discriminate.
  - intros u _ c E. discriminate E.
  - intros rnd t0 c E. discriminate E.
Qed.

(** C1, as the code has it.  In every reachable state a stored code comes
    with a stored expiry; [generateOTP] sets both together (the expiry to
    five minutes from now); [verifyOTP] never writes the expiry, so when it
    clears the code (on success and on expiry) the old expiry stays. *)
Theorem code_comes_with_expiry :
  forall w, reachable w ->
    (code_present w -> expiry_present w)
    /\ (code_present (snd (generateOTP w))
        /\ otpExpiry (this (snd (generateOTP w))) = Some (Date_now w + 300000))
    /\ (forall entered,
          otpExpiry (this (snd (verifyOTP entered w))) = otpExpiry (this w)).
Proof.
  intros w R. split; [| split].
  - unfold code_present, expiry_present. intros H.
    destruct (generatedOTP (this w)) as [c|] eqn:E; [| congruence].
    exact (proj2 (reachable_issued_ok w R c E)).
  - destruct (generateOTP_fields w) as (Hc & He & _).
    split; [unfold code_present; rewrite Hc; discriminate | exact He].
  - intros entered. apply verifyOTP_keeps_expiry.
Qed.

Lemma code_comes_with_expiry_witness :
  let w := run request_then_verify (boot one_half 0) in
  reachable w
  /\ (code_present w -> expiry_present w)
  /\ otpExpiry (this (snd (verifyOTP "550000" w))) = otpExpiry (this w).
Proof.
  intros w.
  assert (R : reachable w) by (apply reachable_run; constructor).
  destruct (code_comes_with_expiry w R) as (H1 & _ & H3).
  split; [exact R | split; [exact H1 | exact (H3 "550000")]].
Defined.

(** C1, as stated, fails: after a code has been requested and verified the
    code is cleared while the expiry is still set. *)
Lemma code_cleared_expiry_kept :
  let w := run request_then_verify (boot one_half 0) in
  reachable w
  /\ generatedOTP (this w) = None
  /\ otpExpiry (this w) = Some 300000
  /\ ~ set_and_cleared_together w.
Proof.
  intros w. split; [apply reachable_run; constructor |].
  split; [reflexivity |]. split; [reflexivity |].
  intros [_ H].
  assert (E : expiry_present w) by (unfold expiry_present; simpl; discriminate).
  apply (H E). reflexivity.
Qed.

(** C6. For a session holding the code [c] with expiry [e]: [verifyOTP(c)]
    with the clock at [e - 1] ms succeeds, and with the clock at [e + 1] ms
    it fails with "OTP has expired" (CodeExpired). *)
Theorem verifyOTP_expiry_boundary :
  forall w c e,
    reachable w ->
    generatedOTP (this w) = Some c ->
    otpExpiry (this w) = Some e ->
    fst (verifyOTP c (at_time (e - 1) w)) = otp_verified
    /\ fst (verifyOTP c (at_time (e + 1) w)) = otp_expired.
Proof.
  intros w c e R Ec Ee.
  destruct (reachable_issued_ok w R c Ec) as [Ht _].
  split.
  - rewrite (verifyOTP_match c (at_time (e - 1) w)); [reflexivity | | |]; unfold Date_now; simpl.
    + rewrite Ec. exact Ht.
    + rewrite Ee. simpl. lia.
    + exact Ec.
  - rewrite (verifyOTP_expired c (at_time (e + 1) w)); [reflexivity | |]; unfold Date_now; simpl.
    + rewrite Ec. exact Ht.
    + rewrite Ee. simpl. lia.
Qed.

Lemma verifyOTP_expiry_boundary_witness :
  let w := snd (generateOTP (boot one_half 0)) in
  reachable w
  /\ generatedOTP (this w) = Some "550000"
  /\ otpExpiry (this w) = Some 300000
  /\ fst (verifyOTP "550000" (at_time (300000 - 1) w)) = otp_verified
  /\ fst (verifyOTP "550000" (at_time (300000 + 1) w)) = otp_expired.
Proof.
  intros w.
  assert (R : reachable w) by (apply (reachable_exec _ CallGenerateOTP); constructor).
  assert (Ec : generatedOTP (this w) = Some "550000") by reflexivity.
  assert (Ee : otpExpiry (this w) = Some 300000) by reflexivity.
  repeat (split; [assumption |]).
  exact (verifyOTP_expiry_boundary w "550000" 300000 R Ec Ee).
Defined.



End StoredCode.

(** ** Overwriting a code *)

Section Overwrite.

Local Open Scope string_scope.

(** A successful verification means the entered string is the stored code. *)
Lemma verifyOTP_success_code entered w :
  success (fst (verifyOTP entered w)) = true ->
  generatedOTP (this w) = Some entered.
Proof.
  unfold verifyOTP.
  destruct (negb _); [discriminate |].
  destruct (_ >? _); [discriminate |].
  destruct (generatedOTP (this w)) as [c|]; simpl; [| discriminate].
  destruct (String.eqb_spec entered c); [congruence | discriminate].
Qed.

Lemma verifyOTP_verdicts entered w :
  let v := fst (verifyOTP entered w) in
  v = no_otp_generated \/ v = otp_expired \/ v = otp_verified \/ v = otp_invalid.
Proof.
  unfold verifyOTP.
  destruct (negb _); [auto |].
  destruct (_ >? _); [auto |].
  destruct (strict_equal _ _); simpl; auto.
Qed.

Lemma still_current_run c w0 later : 
  generatedOTP (this w0) = Some c -> still_current c w0 (run later w0).
Proof.
  intros E. apply inv_run with (P := still_current c w0).
  - intros u u' V [H1 H2]. unfold code_view in V. injection V as E1 _ E3 _.
    unfold still_current. rewrite <- E1, <- E3. split; assumption.
  - intros u [H1 _]. unfold still_current.
    rewrite (proj2 (proj2 (proj2 (generateOTP_fields u)))).
    split; [lia | intros; lia].
  - intros u [H1 _]. split; [exact H1 | intros _; left; reflexivity].
  - split; [lia | intros _; right; exact E].
Qed.

(** While no new code is generated, only the current code can verify. *)
Lemma other_code_rejected c entered w0 later :
  generatedOTP (this w0) = Some c ->
  entered <> c ->
  draws (rt (run later w0)) = draws (rt w0) ->
  let v := fst (verifyOTP entered (run later w0)) in
  v = otp_invalid \/ v = otp_expired \/ v = no_otp_generated.
Proof.
  intros E N D v.
  destruct (still_current_run c w0 later E) as [_ H]. specialize (H D).
  destruct (verifyOTP_verdicts entered (run later w0)) as [V|[V|[V|V]]];
    fold v in V; auto.
  exfalso.
  assert (S : success (fst (verifyOTP entered (run later w0))) = true)
    by (fold v; rewrite V; reflexivity).
  apply verifyOTP_success_code in S.
  destruct H as [H|H]; rewrite H in S; congruence.
Qed.

Lemma request_completes_fields w c w' :
  request_completes w c w' ->
  generatedOTP (this w') = Some c
  /\ otpExpiry (this w') = Some (Date_now w + 300000)
  /\ JS.truthy (Some c) = true
  /\ Date_now w' = Date_now w.
Proof.
  destruct (generateOTP_fields w) as (Hc & He & Ht & _).
  intros [G | (h & phone & G & ->)].
  - rewrite G in Hc, He, Ht. simpl in Hc, He, Ht.
    repeat split; try assumption.
    replace w' with (snd (generateOTP w)) by (rewrite G; reflexivity).
    reflexivity.
  - rewrite G in Hc, Ht. repeat split; assumption.
Qed.

(** C4, as the code has it.  When two requests complete with different
    codes [c1] and [c2], verifying [c1] right after the second request fails
    with "invalid OTP" (CodeMismatch), and for as long as no further code is
    generated it never succeeds: it fails with "invalid OTP", or "OTP has
    expired" once the expiry of [c2] has passed, or "no OTP has been
    generated" once the state has been cleared.  When the two requests
    produce the same code, verifying it after the second request succeeds. *)
Theorem overwritten_code_rejected :
  forall w0 c1 w1 mid c2 w2 later,
    request_completes w0 c1 w1 ->
    request_completes (run mid w1) c2 w2 ->
    (c1 <> c2 ->
       fst (verifyOTP c1 w2) = otp_invalid
       /\ (draws (rt (run later w2)) = draws (rt w2) ->
           let v := fst (verifyOTP c1 (run later w2)) in
           v = otp_invalid \/ v = otp_expired \/ v = no_otp_generated))
    /\ (c1 = c2 -> fst (verifyOTP c1 w2) = otp_verified).
Proof.
  intros w0 c1 w1 mid c2 w2 later _ G2.
  destruct (request_completes_fields _ _ _ G2) as (Hc & He & Ht & Hn).
  assert (L : Date_now w2 <= JS.to_number (otpExpiry (this w2)))
    by (rewrite He, Hn; simpl; lia).
  split.
  - intros N. split.
    + rewrite (verifyOTP_mismatch c1 c2 w2); auto. rewrite Hc. exact Ht.
    + intros D. apply other_code_rejected with (c := c2); assumption.
  - intros ->. rewrite (verifyOTP_match c2 w2); auto. rewrite Hc. exact Ht.
Qed.

Lemma overwritten_code_rejected_witness :
  let w0 := boot (fun n => match n with O => (1 # 2)%Q | _ => (1 # 4)%Q end) 0 in
  let w1 := snd (generateOTP w0) in
  let w2 := snd (generateOTP w1) in
  let w3 := run [CallVerifyOTP "325000"] w2 in
  request_completes w0 "550000" w1
  /\ request_completes w1 "325000" w2
  /\ "550000" <> "325000"
  /\ draws (rt w3) = draws (rt w2)
  /\ fst (verifyOTP "550000" w2) = otp_invalid
  /\ (fst (verifyOTP "550000" w3) = otp_invalid
      \/ fst (verifyOTP "550000" w3) = otp_expired
      \/ fst (verifyOTP "550000" w3) = no_otp_generated).
Proof.
  intros w0 w1 w2 w3.
  assert (G1 : request_completes w0 "550000" w1) by (left; reflexivity).
  assert (G2 : request_completes (run [] w1) "325000" w2) by (left; reflexivity).
  assert (N : "550000" <> "325000") by discriminate.
  assert (D : draws (rt w3) = draws (rt w2)) by reflexivity.
  repeat (split; [assumption |]).
  destruct (proj1 (overwritten_code_rejected w0 "550000" w1 [] "325000" w2
                     [CallVerifyOTP "325000"] G1 G2) N) as [H1 H2].
  split; [exact H1 | exact (H2 D)].
Defined.

(** C4, as stated, fails: when the random source gives the same value to
    two successful requests, the first code is also the second code and
    verifying it after the second request succeeds. *)
Lemma same_code_twice_verifies :
  let w1 := run one_request (boot one_half 0) in
  let w2 := run two_requests (boot one_half 0) in
  generatedOTP (this w1) = Some "550000"
  /\ generatedOTP (this w2) = Some "550000"
  /\ log (rt w2)
     = [ ConsoleLog "[DEV] OTP sent to 0811234567: 550000";
         NotificationShown "0811234567" "550000";
         Resolved 1 (otp_sent "0811234567");
         ConsoleLog "[DEV] OTP sent to 0811234567: 550000";
         NotificationShown "0811234567" "550000";
         Resolved 3 (otp_sent "0811234567") ]
  /\ fst (verifyOTP "550000" w2) = otp_verified.
Proof. vm_compute. repeat split. Qed.

End Overwrite.

(** ** The timer table *)

Section TimerTable.

Lemma handles_filter_in (p : timer -> bool) ts h :
  In h (map t_handle (filter p ts)) -> In h (map t_handle ts).
Proof.
  rewrite !in_map_iff. intros (t & E & I). apply filter_In in I.
  exists t. tauto.
Qed.

Lemma handles_filter_nodup (p : timer -> bool) ts :
  NoDup (map t_handle ts) -> NoDup (map t_handle (filter p ts)).
Proof.
  induction ts as [|t ts IH]; simpl; intros N; [constructor |].
  inversion N as [|? ? Hn Hd]; subst.
  destruct (p t); simpl; auto.
  constructor; auto. intros I. apply Hn. eapply handles_filter_in, I.
Qed.

Lemma handles_map (f : timer -> timer) ts :
  (forall u, t_handle (f u) = t_handle u) ->
  map t_handle (map f ts) = map t_handle ts.
Proof. intros H. rewrite map_map. apply map_ext. exact H. Qed.

Lemma nodup_snoc (l : list positive) x :
  NoDup l -> ~ In x l -> NoDup (l ++ [x]).
Proof.
  induction l as [|y l IH]; simpl; intros N I.
  - constructor; [intros [] | constructor].
  - inversion N as [|? ? Hn Hd]; subst. constructor.
    + rewrite in_app_iff. simpl. intros [H|[H|[]]]; [tauto | subst; tauto].
    + apply IH; tauto.
Qed.

Variables (ts : list timer) (next : positive) (field : option positive).
Hypothesis OK : table_ok ts next field.

Lemma table_ok_filter (p : timer -> bool) : table_ok (filter p ts) next field.
Proof.
  destruct OK as [F N O D M]. constructor.
  - intros t I. apply filter_In in I. apply F, I.
  - apply handles_filter_nodup, N.
  - intros t I. apply filter_In in I. apply O, I.
  - exact D.
  - intros t I. apply filter_In in I. apply M, I.
Qed.

(** Rewriting entries in place, keeping their handle, kind and period. *)
Lemma table_ok_map (f : timer -> timer) :
  (forall u, t_handle (f u) = t_handle u) ->
  (forall u, t_every (f u) = t_every u) ->
  (forall u, In u ts -> is_countdown (f u) = is_countdown u) ->
  table_ok (map f ts) next field.
Proof.
  intros Hh He Hc. destruct OK as [F N O D M]. constructor.
  - intros t I. apply in_map_iff in I. destruct I as (u & <- & I).
    rewrite Hh. apply F, I.
  - rewrite handles_map; assumption.
  - intros t I C. apply in_map_iff in I. destruct I as (u & <- & I).
    rewrite Hh, He. rewrite Hc in C by assumption. apply O; assumption.
  - exact D.
  - intros t I E. apply in_map_iff in I. destruct I as (u & <- & I).
    rewrite Hh in E. rewrite Hc by assumption. apply M; assumption.
Qed.

Lemma fresh_handle_unused : ~ In next (map t_handle ts).
Proof.
  intros I. apply in_map_iff in I. destruct I as (t & E & I).
  apply (ok_fresh _ _ _ OK) in I. lia.
Qed.

Lemma handles_app_nodup t :
  t_handle t = next -> NoDup (map t_handle (ts ++ [t])).
Proof.
  intros E. rewrite map_app. simpl. apply nodup_snoc.
  - apply (ok_nodup _ _ _ OK).
  - rewrite E. apply fresh_handle_unused.
Qed.

(** Registering a timer that is not a countdown. *)
Lemma table_ok_register t :
  t_handle t = next -> is_countdown t = false ->
  table_ok (ts ++ [t]) (Pos.succ next) field.
Proof.
  intros E C. pose proof OK as [F N O D M]. constructor.
  - intros u I. apply in_app_iff in I. destruct I as [I|[<-|[]]].
    + apply F in I. lia.
    + lia.
  - apply handles_app_nodup, E.
  - intros u I. apply in_app_iff in I. destruct I as [I|[<-|[]]].
    + apply O, I.
    + congruence.
  - intros h H. apply D in H. lia.
  - intros u I. apply in_app_iff in I. destruct I as [I|[<-|[]]].
    + apply M, I.
    + intros H. apply D in H. lia.
Qed.

(** Registering a countdown and storing its handle, when none is running. *)
Lemma table_ok_start t :
  (forall u, In u ts -> is_countdown u = false) ->
  t_handle t = next -> t_every t = Some 1000 -> is_countdown t = true ->
  table_ok (ts ++ [t]) (Pos.succ next) (Some next).
Proof.
  intros Z E P C. pose proof OK as [F N O D M]. constructor.
  - intros u I. apply in_app_iff in I. destruct I as [I|[<-|[]]].
    + apply F in I. lia.
    + lia.
  - apply handles_app_nodup, E.
  - intros u I Cu. apply in_app_iff in I. destruct I as [I|[<-|[]]].
    + rewrite (Z u I) in Cu. discriminate.
    + rewrite E. auto.
  - intros h H. injection H as <-. lia.
  - intros u I H. apply in_app_iff in I. destruct I as [I|[<-|[]]].
    + injection H as H. apply F in I. lia.
    + exact C.
Qed.

(** Forgetting the handle, when no countdown is running. *)
Lemma table_ok_stop :
  (forall u, In u ts -> is_countdown u = false) -> table_ok ts next None.
Proof.
  intros Z. destruct OK as [F N O D M]. constructor; auto.
  - intros u I C. rewrite (Z u I) in C. discriminate.
  - discriminate.
  - discriminate.
Qed.

(** Clearing the handle named by the field stops every countdown. *)
Lemma cleared_no_countdown h :
  field = Some h ->
  forall u, In u (filter (fun t => negb (has_handle h t)) ts) ->
            is_countdown u = false.
Proof.
  intros E u I. apply filter_In in I. destruct I as [I Hh].
  destruct (is_countdown u) eqn:C; [| reflexivity].
  destruct (ok_owned _ _ _ OK u I C) as [Hf _].
  rewrite E in Hf. injection Hf as ->.
  unfold has_handle in Hh. rewrite Pos.eqb_refl in Hh. discriminate.
Qed.

Lemma unnamed_no_countdown :
  field = None -> forall u, In u ts -> is_countdown u = false.
Proof.
  intros E u I. destruct (is_countdown u) eqn:C; [| reflexivity].
  destruct (ok_owned _ _ _ OK u I C) as [Hf _]. congruence.
Qed.

End TimerTable.

(** ** The timer table of a running page is well formed *)

Section TimersOk.

Lemma ok_clearInterval v w : timers_ok w -> timers_ok (clearInterval v w).
Proof.
  intros H. destruct v as [h|]; [| exact H].
  exact (table_ok_filter _ _ _ H _).
Qed.

Lemma ok_register every code delay w :
  match code with CountdownTick _ _ _ => False | _ => True end ->
  timers_ok w -> timers_ok (snd (register every code delay w)).
Proof.
  intros C H. unfold timers_ok, register; simpl.
  apply table_ok_register; [exact H | reflexivity |].
  unfold is_countdown; simpl. destruct code; [contradiction | | |]; reflexivity.
Qed.

Lemma ok_deliver h phone w : timers_ok w -> timers_ok (deliver h phone w).
Proof.
  intros H. unfold deliver, generateOTP, showOTPNotification, setTimeout.
  simpl. unfold timers_ok; simpl.
  apply table_ok_register; [exact H | reflexivity | reflexivity].
Qed.

Lemma ok_reschedule t w : timers_ok w -> timers_ok (reschedule t w).
Proof.
  intros H. unfold reschedule. destruct (t_every t) as [p|].
  - apply (table_ok_map _ _ _ H); intros u; try intros _;
      destruct (has_handle (t_handle t) u); reflexivity.
  - exact (table_ok_filter _ _ _ H _).
Qed.

Lemma ok_update_closure h tl d f w :
  timers_ok w -> countdownInterval (this w) = Some h ->
  timers_ok (update_closure h (CountdownTick tl d f) w).
Proof.
  intros H E. apply (table_ok_map _ _ _ H).
  - intros u. destruct (has_handle h u); reflexivity.
  - intros u. destruct (has_handle h u); reflexivity.
  - intros u I. destruct (has_handle h u) eqn:Hh; [| reflexivity].
    apply Pos.eqb_eq in Hh. symmetry.
    apply (ok_named _ _ _ H u I). rewrite Hh. exact E.
Qed.

Lemma ok_run_callback t w :
  timers_ok w ->
  (is_countdown t = true -> countdownInterval (this w) = Some (t_handle t)) ->
  timers_ok (run_callback (t_handle t) (t_code t) w).
Proof.
  intros H E. unfold is_countdown in E.
  destruct (t_code t) as [tl d f| phone | |]; simpl.
  - specialize (E eq_refl).
    pose proof (ok_update_closure (t_handle t) (tl - 1) d f w H E) as H1.
    destruct (tl - 1 <=? 0); [| exact H1].
    change (countdownInterval
              (this (emit (TextContent d (tl - 1))
                 (update_closure (t_handle t) (CountdownTick (tl - 1) d f) w))))
      with (countdownInterval (this w)).
    rewrite E.
    destruct f; exact (table_ok_filter _ _ _ H1 _).
  - apply ok_deliver, H.
  - apply (ok_register None RemoveNotification 500 (emit NotificationSlidOut w) I H).
  - exact H.
Qed.

Lemma ok_fire t w : timers_ok w -> In t (timers (rt w)) -> timers_ok (fire t w).
Proof.
  intros H I. apply ok_run_callback; [apply ok_reschedule, H |].
  intros C. unfold reschedule.
  destruct (ok_owned _ _ _ H t I C) as [E _].
  destruct (t_every t); exact E.
Qed.

Lemma ok_fire_handle w h : timers_ok w -> timers_ok (fire_handle w h).
Proof.
  intros H. unfold fire_handle.
  destruct (find (has_handle h) (timers (rt w))) as [t|] eqn:F; [| exact H].
  apply find_some in F. apply ok_fire; tauto.
Qed.

Lemma ok_fold_fire hs : forall w, timers_ok w -> timers_ok (fold_left fire_handle hs w).
Proof.
  induction hs as [|h hs IH]; simpl; intros w H; [exact H |].
  apply IH, ok_fire_handle, H.
Qed.

Lemma ok_tick w : timers_ok w -> timers_ok (tick w).
Proof. intros H. apply ok_fold_fire. exact H. Qed.

Lemma ok_elapse n w : timers_ok w -> timers_ok (elapse n w).
Proof. intros H. induction n; simpl; [exact H | apply ok_tick, IHn]. Qed.

Lemma ok_sendOTP phone w : timers_ok w -> timers_ok (snd (sendOTP phone w)).
Proof.
  intros H. unfold sendOTP. destruct (negb _); [exact H |].
  apply (ok_register None (DeliverOTP phone) 1500 w I H).
Qed.

Lemma ok_verifyOTP entered w : timers_ok w -> timers_ok (snd (verifyOTP entered w)).
Proof.
  intros H. destruct (verifyOTP_state entered w) as [E|E]; rewrite E; exact H.
Qed.

Lemma ok_startCountdown d f w : timers_ok w -> timers_ok (startCountdown d f w).
Proof.
  intros H. unfold startCountdown, timers_ok.
  destruct (countdownInterval (this w)) as [h|] eqn:E; simpl.
  - apply (table_ok_start _ _ _ (table_ok_filter _ _ _ H _)); try reflexivity.
    apply (cleared_no_countdown _ _ _ H). exact E.
  - apply (table_ok_start _ _ _ H); try reflexivity.
    apply (unnamed_no_countdown _ _ _ H). exact E.
Qed.

Lemma stopCountdown_no_countdown w : timers_ok w -> no_countdown (stopCountdown w).
Proof.
  intros H. unfold stopCountdown, no_countdown.
  destruct (countdownInterval (this w)) as [h|] eqn:E; simpl.
  - apply (cleared_no_countdown _ _ _ H). exact E.
  - apply (unnamed_no_countdown _ _ _ H). exact E.
Qed.

Lemma ok_stopCountdown w : timers_ok w -> timers_ok (stopCountdown w).
Proof.
  intros H. pose proof (stopCountdown_no_countdown w H) as Z.
  unfold no_countdown in Z. unfold timers_ok. revert Z. unfold stopCountdown.
  destruct (countdownInterval (this w)) as [h|] eqn:E; simpl; intros Z.
  - apply (table_ok_stop _ _ _ (table_ok_filter _ _ _ H _)). exact Z.
  - exact H.
Qed.

Lemma ok_exec w a : timers_ok w -> timers_ok (exec w a).
Proof.
  destruct a; simpl; intros H.
  - exact H.
  - apply ok_sendOTP, H.
  - apply ok_verifyOTP, H.
  - apply ok_startCountdown, H.
  - apply ok_stopCountdown, H.
  - apply ok_tick, H.
Qed.

Lemma reachable_timers_ok w : reachable w -> timers_ok w.
Proof.
  intros R. induction R as [rnd t0 | w a R IH].
  - constructor; simpl; try contradiction; try discriminate. constructor.
  - apply ok_exec, IH.
Qed.

End TimersOk.

(** ** One millisecond of the event loop *)

Section EventLoop.

(** Induction over the timers fired within one millisecond. *)
Lemma fold_fire_ind (I : World -> Prop) hs :
  (forall w t, I w -> In t (timers (rt w)) -> In (t_handle t) hs ->
               I (fire t w)) ->
  forall w, I w -> I (fold_left fire_handle hs w).
Proof.
  intros Step.
  assert (G : forall hs', incl hs' hs ->
              forall w, I w -> I (fold_left fire_handle hs' w)).
  { induction hs' as [|h hs' IH]; simpl; intros Inc w H; [exact H |].
    apply IH; [intros x Hx; apply Inc; right; exact Hx |].
    unfold fire_handle.
    destruct (find (has_handle h) (timers (rt w))) as [t|] eqn:F; [| exact H].
    apply find_some in F. destruct F as [F1 F2].
    apply Pos.eqb_eq in F2. apply Step; auto.
    rewrite F2. apply Inc. left. reflexivity. }
  apply G, incl_refl.
Qed.

Lemma handle_inj ts t u :
  NoDup (map t_handle ts) -> In t ts -> In u ts ->
  t_handle t = t_handle u -> t = u.
Proof.
  induction ts as [|x ts IH]; simpl; intros N It Iu E; [contradiction |].
  inversion N as [|? ? Hn Hd]; subst.
  destruct It as [<-|It], Iu as [<-|Iu]; auto.
  - exfalso. apply Hn. rewrite E. apply in_map, Iu.
  - exfalso. apply Hn. rewrite <- E. apply in_map, It.
Qed.

Lemma find_handle ts t :
  NoDup (map t_handle ts) -> In t ts ->
  find (has_handle (t_handle t)) ts = Some t.
Proof.
  intros N I.
  destruct (find (has_handle (t_handle t)) ts) as [u|] eqn:F.
  - apply find_some in F. destruct F as [F1 F2]. apply Pos.eqb_eq in F2.
    f_equal. apply (handle_inj ts); auto.
  - apply (find_none _ _ F) in I. unfold has_handle in I.
    rewrite Pos.eqb_refl in I. discriminate.
Qed.

Lemma filter_map_same (p : timer -> bool) f ts :
  (forall u, In u ts -> p u = true -> f u = u) ->
  (forall u, In u ts -> p (f u) = p u) ->
  filter p (map f ts) = filter p ts.
Proof.
  induction ts as [|x ts IH]; simpl; intros H1 H2; [reflexivity |].
  rewrite H2 by auto. destruct (p x) eqn:P.
  - rewrite H1 by auto. f_equal. apply IH; auto.
  - apply IH; auto.
Qed.

Lemma filter_map_swap (p : timer -> bool) f ts :
  (forall u, In u ts -> p (f u) = p u) ->
  filter p (map f ts) = map f (filter p ts).
Proof.
  induction ts as [|x ts IH]; simpl; intros H; [reflexivity |].
  rewrite H by auto. destruct (p x); simpl; rewrite IH; auto.
Qed.

Lemma filter_filter_same (p q : timer -> bool) ts :
  (forall u, In u ts -> p u = true -> q u = true) ->
  filter p (filter q ts) = filter p ts.
Proof.
  induction ts as [|x ts IH]; simpl; intros H; [reflexivity |].
  destruct (p x) eqn:P.
  - rewrite (H x) by auto. simpl. rewrite P. f_equal. apply IH; auto.
  - destruct (q x); simpl; [rewrite P |]; apply IH; auto.
Qed.

Lemma filter_comm (p q : timer -> bool) ts :
  filter p (filter q ts) = filter q (filter p ts).
Proof.
  induction ts as [|x ts IH]; simpl; [reflexivity |].
  destruct (p x) eqn:P, (q x) eqn:Q; simpl; rewrite ?P, ?Q, IH; reflexivity.
Qed.

Lemma running_in t w : In t (running w) <-> In t (timers (rt w)) /\ is_countdown t = true.
Proof. apply filter_In. Qed.

(** A timer that is not a countdown leaves the countdown alone. *)
Lemma view_reschedule_other t w :
  timers_ok w -> In t (timers (rt w)) -> is_countdown t = false ->
  countdown_view (reschedule t w) = countdown_view w.
Proof.
  intros OK I C.
  assert (D : forall u, In u (timers (rt w)) -> is_countdown u = true ->
                        has_handle (t_handle t) u = false).
  { intros u Iu Cu. destruct (has_handle (t_handle t) u) eqn:Hh; [| reflexivity].
    apply Pos.eqb_eq in Hh.
    rewrite (handle_inj _ u t (ok_nodup _ _ _ OK) Iu I Hh) in Cu. congruence. }
  unfold countdown_view, running, reschedule.
  destruct (t_every t) as [p|]; simpl; f_equal; f_equal; f_equal.
  - apply filter_map_same.
    + intros u Iu Cu. rewrite (D u Iu Cu). reflexivity.
    + intros u _. destruct (has_handle (t_handle t) u); reflexivity.
  - apply filter_filter_same. intros u Iu Cu. rewrite (D u Iu Cu). reflexivity.
Qed.

Lemma view_run_other h code w :
  match code with CountdownTick _ _ _ => False | _ => True end ->
  countdown_view (run_callback h code w) = countdown_view w.
Proof.
  destruct code as [tl d f| phone | |]; [contradiction | | |]; intros _;
    unfold countdown_view, running, countdown_log; simpl;
    rewrite ?filter_app; simpl; rewrite ?app_nil_r; reflexivity.
Qed.

Lemma fire_other t w :
  timers_ok w -> In t (timers (rt w)) -> is_countdown t = false ->
  countdown_view (fire t w) = countdown_view w.
Proof.
  intros OK I C. unfold fire. rewrite view_run_other.
  - apply view_reschedule_other; assumption.
  - unfold is_countdown in C. destruct (t_code t); [discriminate | | |]; exact Logic.I.
Qed.

End EventLoop.

(** ** The countdown *)

Section Countdown.

Lemma running_owned t w :
  timers_ok w -> In t (running w) ->
  In t (timers (rt w)) /\ countdownInterval (this w) = Some (t_handle t).
Proof.
  intros OK I. apply running_in in I. destruct I as [I C].
  split; [exact I | apply (ok_owned _ _ _ OK t I C)].
Qed.

(** The countdown timer fires: one second less is displayed; at zero the
    interval is cleared and the completion callback, if any, is called. *)
Lemma fire_countdown h due tl d f w :
  timers_ok w -> running w = [countdown_timer h due tl d f] ->
  countdown_view (fire (countdown_timer h due tl d f) w)
  = (countdownInterval (this w),
     (if tl - 1 <=? 0 then []
      else [countdown_timer h (due + 1000) (tl - 1) d f]),
     clock (rt w),
     countdown_log w
     ++ TextContent d (tl - 1) :: (if tl - 1 <=? 0 then completion f else [])).
Proof.
  intros OK R.
  assert (I : In (countdown_timer h due tl d f) (running w)) by (rewrite R; left; reflexivity).
  destruct (running_owned _ _ OK I) as [It E]. simpl in E.
  set (f1 := fun u : timer =>
               if has_handle h u
               then {| t_handle := t_handle u; t_due := t_due u + 1000;
                       t_every := t_every u; t_code := t_code u |}
               else u).
  set (f2 := fun u : timer =>
               if has_handle h u
               then {| t_handle := t_handle u; t_due := t_due u;
                       t_every := t_every u;
                       t_code := CountdownTick (tl - 1) d f |}
               else u).
  assert (R1 : filter is_countdown (map f2 (map f1 (timers (rt w))))
               = [countdown_timer h (due + 1000) (tl - 1) d f]).
  { rewrite filter_map_swap.
    - rewrite filter_map_swap.
      + fold (running w). rewrite R. simpl. unfold f1, f2, has_handle; simpl.
        rewrite Pos.eqb_refl; simpl. rewrite Pos.eqb_refl. reflexivity.
      + intros u _. unfold f1. destruct (has_handle h u); reflexivity.
    - intros u' Iu'. apply in_map_iff in Iu'. destruct Iu' as (u & <- & Iu).
      unfold f2. destruct (has_handle h (f1 u)) eqn:Hh; [| reflexivity].
      unfold f1 in *. destruct (has_handle h u) eqn:Hu.
      + apply Pos.eqb_eq in Hu.
        assert (u = countdown_timer h due tl d f)
          by (apply (handle_inj _ _ _ (ok_nodup _ _ _ OK) Iu It); exact Hu).
        subst u. reflexivity.
      + congruence. }
  unfold fire, reschedule, countdown_view, running, countdown_log.
  cbn [countdown_timer t_every t_handle t_code run_callback].
  destruct (tl - 1 <=? 0).
  - cbn [emit update_closure set_timers this rt countdownInterval].
    rewrite E. destruct f as [k|]; cbn; fold f1 f2;
      rewrite ?E, filter_comm, R1, !filter_app; cbn;
      unfold has_handle; cbn; rewrite Pos.eqb_refl; cbn;
      rewrite <- ?app_assoc, ?app_nil_r; reflexivity.
  - cbn. fold f1 f2. rewrite R1, filter_app. reflexivity.
Qed.

Lemma view_log w fld r c L :
  countdown_view w = (fld, r, c, L) -> countdown_log w = L.
Proof. intros V. exact (f_equal snd V). Qed.

Lemma view_running u w :
  countdown_view u = countdown_view w -> running u = running w.
Proof. unfold countdown_view. congruence. Qed.

(** Timers other than the countdown fire without touching it. *)
Lemma fold_fire_others hs w :
  timers_ok w ->
  (forall t, In t (running w) -> ~ In (t_handle t) hs) ->
  timers_ok (fold_left fire_handle hs w)
  /\ countdown_view (fold_left fire_handle hs w) = countdown_view w.
Proof.
  intros OK Hn.
  apply (fold_fire_ind (fun u => timers_ok u /\ countdown_view u = countdown_view w)).
  - intros u t [OKu Vu] It Ih. split; [apply ok_fire; assumption |].
    rewrite <- Vu. apply fire_other; try assumption.
    destruct (is_countdown t) eqn:C; [exfalso | reflexivity].
    apply (Hn t); [| exact Ih].
    rewrite <- (view_running _ _ Vu). apply running_in. tauto.
  - tauto.
Qed.

Lemma due_handle ts now t :
  NoDup (map t_handle ts) -> In t ts ->
  In (t_handle t) (map t_handle (filter (is_due now) ts)) ->
  t_due t <= now.
Proof.
  intros N It Ih. apply in_map_iff in Ih. destruct Ih as (u & E & Iu).
  apply filter_In in Iu. destruct Iu as [Iu D].
  rewrite (handle_inj ts u t N Iu It E) in D.
  unfold is_due in D. apply Z.leb_le. exact D.
Qed.

(** A millisecond in which the countdown is not due. *)
Lemma tick_idle w fld r c L :
  timers_ok w -> countdown_view w = (fld, r, c, L) ->
  (forall t, In t r -> c + 1 < t_due t) ->
  timers_ok (tick w) /\ countdown_view (tick w) = (fld, r, c + 1, L).
Proof.
  intros OK V Hd. unfold countdown_view in V. injection V as <- <- <- <-.
  unfold tick.
  destruct (fold_fire_others
              (map t_handle
                 (filter (is_due (clock (rt (at_time (clock (rt w) + 1) w))))
                    (timers (rt (at_time (clock (rt w) + 1) w)))))
              (at_time (clock (rt w) + 1) w)) as [OK' V'].
  - exact OK.
  - intros t It Ih. specialize (Hd t It).
    apply running_in in It. destruct It as [It _].
    apply (due_handle _ _ _ (ok_nodup _ _ _ OK)) in Ih; [| exact It].
    simpl in Ih. lia.
  - split; [exact OK' | rewrite V'; reflexivity].
Qed.

(** The millisecond in which the countdown is due. *)
Lemma tick_due w fld h due tl d f c L :
  timers_ok w ->
  countdown_view w = (fld, [countdown_timer h due tl d f], c, L) ->
  due <= c + 1 ->
  timers_ok (tick w)
  /\ countdown_view (tick w)
     = (fld,
        (if tl - 1 <=? 0 then []
         else [countdown_timer h (due + 1000) (tl - 1) d f]),
        c + 1,
        L ++ TextContent d (tl - 1) :: (if tl - 1 <=? 0 then completion f else [])).
Proof.
  intros OK V Hd.
  set (t := countdown_timer h due tl d f) in *.
  set (w1 := at_time (clock (rt w) + 1) w).
  assert (OK1 : timers_ok w1) by exact OK.
  assert (V1 : countdown_view w1 = (fld, [t], c + 1, L)).
  { unfold countdown_view in *. injection V as <- R <- <-.
    change (running w1) with (running w). rewrite R. reflexivity. }
  assert (Ec : clock (rt w) = c) by (unfold countdown_view in V; congruence).
  assert (R1 : running w1 = [t]) by (unfold countdown_view in V1; congruence).
  assert (It : In t (timers (rt w1))).
  { apply (running_in t w1). rewrite R1. left. reflexivity. }
  set (hs := map t_handle (filter (is_due (clock (rt w1))) (timers (rt w1)))).
  assert (Ih : In h hs).
  { unfold hs. apply in_map_iff. exists t. split; [reflexivity |].
    apply filter_In. split; [exact It |].
    unfold is_due; simpl. apply Z.leb_le. lia. }
  assert (Nh : NoDup hs) by (apply handles_filter_nodup, (ok_nodup _ _ _ OK1)).
  destruct (in_split _ _ Ih) as (hs1 & hs2 & Eh).
  unfold tick. fold w1. fold hs. rewrite Eh in Nh |- *.
  rewrite fold_left_app. simpl.
  apply NoDup_remove_2 in Nh.
  destruct (fold_fire_others hs1 w1 OK1) as [OKa Va].
  { intros u Iu. rewrite R1 in Iu. destruct Iu as [<-|[]].
    intros X. apply Nh, in_or_app. left. exact X. }
  set (wa := fold_left fire_handle hs1 w1) in *.
  rewrite V1 in Va.
  assert (Ra : running wa = [t]) by (unfold countdown_view in Va; congruence).
  assert (Ia : In t (timers (rt wa))).
  { apply (running_in t wa). rewrite Ra. left. reflexivity. }
  assert (Fa : fire_handle wa h = fire t wa).
  { unfold fire_handle.
    pose proof (find_handle _ t (ok_nodup _ _ _ OKa) Ia) as F.
    change (t_handle t) with h in F. rewrite F. reflexivity. }
  rewrite Fa.
  pose proof (ok_fire t wa OKa Ia) as OKb.
  pose proof (fire_countdown h due tl d f wa OKa Ra) as Vb. fold t in Vb.
  unfold countdown_view in Va. injection Va as Ef _ Ek El.
  rewrite Ef, Ek, El in Vb.
  destruct (fold_fire_others hs2 (fire t wa) OKb) as [OKc Vc].
  { intros u Iu.
    assert (Rb : running (fire t wa)
                 = if tl - 1 <=? 0 then []
                   else [countdown_timer h (due + 1000) (tl - 1) d f])
      by (unfold countdown_view in Vb; congruence).
    rewrite Rb in Iu. destruct (tl - 1 <=? 0); [contradiction |].
    destruct Iu as [<-|[]]. intros X. apply Nh, in_or_app. right. exact X. }
  split; [exact OKc | rewrite Vc; exact Vb].
Qed.

Lemma elapse_0 w : elapse 0 w = w.
Proof. reflexivity. Qed.

Lemma elapse_S n w : elapse (S n) w = tick (elapse n w).
Proof. reflexivity. Qed.

Lemma elapse_add a b w : elapse (a + b) w = elapse b (elapse a w).
Proof.
  induction b as [|b IH].
  - rewrite Nat.add_0_r. reflexivity.
  - rewrite Nat.add_succ_r, !elapse_S, IH. reflexivity.
Qed.

(** Time passes without the countdown coming due. *)
Lemma elapse_idle n :
  forall w fld r c L,
    timers_ok w -> countdown_view w = (fld, r, c, L) ->
    (forall t, In t r -> c + Z.of_nat n < t_due t) ->
    timers_ok (elapse n w)
    /\ countdown_view (elapse n w) = (fld, r, c + Z.of_nat n, L).
Proof.
  induction n as [|n IH]; intros w fld r c L OK V Hd.
  - simpl. rewrite Z.add_0_r. tauto.
  - destruct (IH w fld r c L OK V) as [OK' V'].
    { intros t It. specialize (Hd t It). lia. }
    rewrite elapse_S.
    replace (c + Z.of_nat (S n)) with (c + Z.of_nat n + 1) by lia.
    apply tick_idle; [exact OK' | exact V' |].
    intros t It. specialize (Hd t It). lia.
Qed.

(** One second of a countdown that is due in one second. *)
Lemma one_second w fld h tl d f c L :
  timers_ok w ->
  countdown_view w = (fld, [countdown_timer h (c + 1000) tl d f], c, L) ->
  timers_ok (elapse 1000 w)
  /\ countdown_view (elapse 1000 w)
     = (fld,
        (if tl - 1 <=? 0 then []
         else [countdown_timer h (c + 1000 + 1000) (tl - 1) d f]),
        c + 1000,
        L ++ TextContent d (tl - 1) :: (if tl - 1 <=? 0 then completion f else [])).
Proof.
  intros OK V.
  destruct (elapse_idle 999 w _ _ _ _ OK V) as [OK' V'].
  { intros t [<-|[]]. simpl. lia. }
  replace 1000%nat with (S 999) by reflexivity. rewrite elapse_S.
  replace (c + 1000) with (c + Z.of_nat 999 + 1) at 2 by lia.
  apply tick_due; [exact OK' | exact V' | lia].
Qed.

Lemma count_down_snoc d k :
  forall hi, count_down d hi (S k)
             = count_down d hi k ++ [TextContent d (hi - Z.of_nat k)].
Proof.
  induction k as [|k IH]; intros hi.
  - simpl. rewrite Z.sub_0_r. reflexivity.
  - change (count_down d hi (S (S k)))
      with (TextContent d hi :: count_down d (hi - 1) (S k)).
    rewrite IH. cbn [count_down app]. do 4 f_equal. lia.
Qed.

(** [k] seconds of a countdown that has more than [k] seconds to go. *)
Lemma seconds fld h d f k :
  forall w tl c L,
    timers_ok w ->
    countdown_view w = (fld, [countdown_timer h (c + 1000) tl d f], c, L) ->
    Z.of_nat k < tl ->
    timers_ok (elapse (k * 1000) w)
    /\ countdown_view (elapse (k * 1000) w)
       = (fld,
          [countdown_timer h (c + 1000 * Z.of_nat k + 1000) (tl - Z.of_nat k) d f],
          c + 1000 * Z.of_nat k,
          L ++ count_down d (tl - 1) k).
Proof.
  induction k as [|k IH]; intros w tl c L OK V Hk.
  - simpl. rewrite Z.add_0_r, Z.sub_0_r, app_nil_r. tauto.
  - destruct (IH w tl c L OK V) as [OK' V']; [lia |].
    replace (S k * 1000)%nat with (k * 1000 + 1000)%nat by lia.
    rewrite elapse_add.
    destruct (one_second _ _ _ _ _ _ _ _ OK' V') as [OK2 V2].
    split; [exact OK2 |]. rewrite V2.
    destruct (Z.leb_spec (tl - Z.of_nat k - 1) 0); [lia |].
    rewrite count_down_snoc, app_assoc.
    replace (tl - Z.of_nat (S k)) with (tl - Z.of_nat k - 1) by lia.
    replace (tl - 1 - Z.of_nat k) with (tl - Z.of_nat k - 1) by lia.
    replace (c + 1000 * Z.of_nat (S k)) with (c + 1000 * Z.of_nat k + 1000) by lia.
    reflexivity.
Qed.

(** A countdown of [n + 1] seconds, run to its end: the values
    [n, ..., 0] are displayed, then the completion callback is called, and
    the interval is gone. *)
Lemma countdown_completes fld h d f n w c L :
  timers_ok w ->
  countdown_view w
  = (fld, [countdown_timer h (c + 1000) (Z.of_nat (S n)) d f], c, L) ->
  timers_ok (elapse (S n * 1000) w)
  /\ countdown_view (elapse (S n * 1000) w)
     = (fld, [], c + 1000 * Z.of_nat (S n),
        L ++ count_down d (Z.of_nat n) (S n) ++ completion f).
Proof.
  intros OK V.
  destruct (seconds fld h d f n w _ c L OK V) as [OK' V']; [lia |].
  replace (S n * 1000)%nat with (n * 1000 + 1000)%nat by lia.
  rewrite elapse_add.
  destruct (one_second _ _ _ _ _ _ _ _ OK' V') as [OK2 V2].
  split; [exact OK2 |]. rewrite V2.
  destruct (Z.leb_spec (Z.of_nat (S n) - Z.of_nat n - 1) 0); [| lia].
  rewrite count_down_snoc, <- !app_assoc.
  replace (Z.of_nat (S n) - 1) with (Z.of_nat n) by lia.
  replace (Z.of_nat (S n) - Z.of_nat n - 1) with (Z.of_nat n - Z.of_nat n) by lia.
  replace (c + 1000 * Z.of_nat n + 1000) with (c + 1000 * Z.of_nat (S n)) by lia.
  reflexivity.
Qed.

(** No countdown running: time passes without countdown events. *)
Lemma elapse_quiet n w fld c L :
  timers_ok w -> countdown_view w = (fld, [], c, L) ->
  timers_ok (elapse n w)
  /\ countdown_view (elapse n w) = (fld, [], c + Z.of_nat n, L).
Proof.
  intros OK V. apply elapse_idle; [exact OK | exact V |].
  intros t [].
Qed.

Lemma filter_none (p : timer -> bool) ts :
  (forall u, In u ts -> p u = false) -> filter p ts = [].
Proof.
  induction ts as [|x ts IH]; simpl; intros H; [reflexivity |].
  rewrite (H x) by auto. apply IH; auto.
Qed.

Lemma filter_all (p : timer -> bool) ts :
  (forall u, In u ts -> p u = true) -> filter p ts = ts.
Proof.
  induction ts as [|x ts IH]; simpl; intros H; [reflexivity |].
  rewrite (H x) by auto. f_equal. apply IH; auto.
Qed.

Lemma view_startCountdown d f w :
  timers_ok w ->
  countdown_view (startCountdown d f w)
  = (Some (next_handle (rt w)),
     [countdown_timer (next_handle (rt w)) (clock (rt w) + 1000)
        (resendCooldown (this w)) d f],
     clock (rt w),
     countdown_log w ++ [TextContent d (resendCooldown (this w))]).
Proof.
  intros OK. unfold startCountdown, countdown_view, running, countdown_log.
  destruct (countdownInterval (this w)) as [h|] eqn:E; simpl;
    rewrite !filter_app; simpl.
  - rewrite (filter_none is_countdown); [reflexivity |].
    apply (cleared_no_countdown _ _ _ OK). exact E.
  - rewrite (filter_none is_countdown); [reflexivity |].
    apply (unnamed_no_countdown _ _ _ OK). exact E.
Qed.

Lemma view_stopCountdown w :
  timers_ok w ->
  countdown_view (stopCountdown w) = (None, [], clock (rt w), countdown_log w).
Proof.
  intros OK. pose proof (stopCountdown_no_countdown w OK) as Z.
  apply filter_none in Z. fold (running (stopCountdown w)) in Z.
  unfold countdown_view. rewrite Z. unfold stopCountdown.
  destruct (countdownInterval (this w)) as [h|] eqn:E; simpl; [reflexivity |].
  rewrite E. reflexivity.
Qed.

Lemma reachable_cooldown w : reachable w -> resendCooldown (this w) = 60.
Proof.
  apply inv_reachable with (P := fun u => resendCooldown (this u) = 60).
  - intros u u' V H. unfold code_view in V. congruence.
  - intros u H. exact H.
  - intros u H. exact H.
  - reflexivity.
Qed.

(** A countdown started on a page and left alone for sixty seconds and
    [n] more milliseconds. *)
Lemma countdown_run w d f n :
  reachable w ->
  countdown_log (elapse (60 * 1000 + n) (startCountdown d f w))
  = countdown_log w ++ TextContent d 60 :: count_down d 59 60 ++ completion f.
Proof.
  intros R. pose proof (reachable_timers_ok w R) as OK.
  pose proof (ok_startCountdown d f w OK) as OK1.
  pose proof (view_startCountdown d f w OK) as V1.
  rewrite (reachable_cooldown w R) in V1.
  destruct (countdown_completes _ _ _ _ 59 _ _ _ OK1 V1) as [OK2 V2].
  rewrite elapse_add.
  destruct (elapse_quiet n _ _ _ _ OK2 V2) as [_ V3].
  rewrite (view_log _ _ _ _ _ V3), <- app_assoc. reflexivity.
Qed.

(** C3, as the code has it.  [startCountdown] first writes the full
    cooldown, 60, to the display element; the sixty one-second ticks that
    follow write exactly 59, 58, ..., 1, 0; then [onComplete] is called;
    and nothing more is written or called however long the clock runs
    on. *)
Theorem countdown_sequence :
  forall w d f, reachable w ->
    countdown_log (startCountdown d f w)
    = countdown_log w ++ [TextContent d 60]
    /\ countdown_log (elapse (60 * 1000) (startCountdown d f w))
       = countdown_log w ++ TextContent d 60 :: count_down d 59 60 ++ completion f
    /\ (forall n,
          countdown_log (elapse (60 * 1000 + n) (startCountdown d f w))
          = countdown_log (elapse (60 * 1000) (startCountdown d f w))).
Proof.
  intros w d f R. split; [| split].
  - pose proof (view_startCountdown d f w (reachable_timers_ok w R)) as V.
    rewrite (reachable_cooldown w R) in V.
    exact (view_log _ _ _ _ _ V).
  - pose proof (countdown_run w d f 0 R) as H.
    rewrite elapse_add, elapse_0 in H. exact H.
  - intros n. pose proof (countdown_run w d f 0 R) as H.
    rewrite elapse_add, elapse_0 in H.
    rewrite H. apply countdown_run, R.
Qed.

Lemma countdown_sequence_witness :
  reachable (boot one_half 0)
  /\ countdown_log (elapse (60 * 1000) (startCountdown 7 (Some 9%nat) (boot one_half 0)))
     = TextContent 7 60 :: count_down 7 59 60 ++ [Called 9].
Proof.
  assert (R : reachable (boot one_half 0)) by constructor.
  split; [exact R |].
  exact (proj1 (proj2 (countdown_sequence (boot one_half 0) 7 (Some 9%nat) R))).
Defined.

(** C3, as stated, fails: over the start and the sixty seconds after it the
    display element is written sixty-one times, the first value being 60,
    not 59. *)
Lemma countdown_shows_sixty_first :
  countdown_log (elapse (60 * 1000) (startCountdown 7 (Some 9%nat) (boot one_half 0)))
  = TextContent 7 60 :: count_down 7 59 60 ++ [Called 9]
  /\ countdown_log (elapse (60 * 1000) (startCountdown 7 (Some 9%nat) (boot one_half 0)))
     <> count_down 7 59 60 ++ [Called 9].
Proof.
  assert (E : countdown_log (elapse (60 * 1000)
                (startCountdown 7 (Some 9%nat) (boot one_half 0)))
              = TextContent 7 60 :: count_down 7 59 60 ++ [Called 9]).
  { pose proof (countdown_run (boot one_half 0) 7 (Some 9%nat) 0
                  (reachable_boot one_half 0)) as H.
    rewrite elapse_add, elapse_0 in H. exact H. }
  split; [exact E |]. rewrite E. discriminate.
Qed.

(** With no countdown in the table, [stopCountdown] changes nothing but the
    handle field. *)
Lemma stopCountdown_idle w :
  timers_ok w -> running w = [] ->
  timers (rt (stopCountdown w)) = timers (rt w)
  /\ log (rt (stopCountdown w)) = log (rt w)
  /\ code_view (stopCountdown w) = code_view w.
Proof.
  intros OK R. unfold stopCountdown.
  destruct (countdownInterval (this w)) as [h|] eqn:E; simpl; [| tauto].
  repeat split. apply filter_all. intros u Iu.
  destruct (has_handle h u) eqn:Hh; [| reflexivity].
  apply Pos.eqb_eq in Hh. exfalso.
  assert (C : is_countdown u = true).
  { apply (ok_named _ _ _ OK u Iu). rewrite Hh. exact E. }
  assert (Ir : In u (running w)) by (apply running_in; tauto).
  rewrite R in Ir. exact Ir.
Qed.

(** C8. After [stopCountdown] returns, however far the clock advances,
    nothing more is written to a display element and no completion
    callback is called; and with no countdown active [stopCountdown] is a
    no-op (exactly, when the handle field is null; and up to resetting the
    stale handle, when the countdown has already run out). *)
Theorem stopCountdown_silences :
  forall w, reachable w ->
    (forall n, countdown_log (elapse n (stopCountdown w)) = countdown_log w
               /\ running (elapse n (stopCountdown w)) = [])
    /\ (countdownInterval (this w) = None -> stopCountdown w = w)
    /\ (running w = [] ->
          timers (rt (stopCountdown w)) = timers (rt w)
          /\ log (rt (stopCountdown w)) = log (rt w)
          /\ code_view (stopCountdown w) = code_view w).
Proof.
  intros w R. pose proof (reachable_timers_ok w R) as OK.
  split; [| split].
  - intros n.
    destruct (elapse_quiet n _ _ _ _ (ok_stopCountdown w OK)
                (view_stopCountdown w OK)) as [_ V].
    split; [exact (view_log _ _ _ _ _ V) |].
    unfold countdown_view in V. congruence.
  - intros E. unfold stopCountdown. rewrite E. reflexivity.
  - apply stopCountdown_idle, OK.
Qed.

Lemma stopCountdown_silences_witness :
  let w := startCountdown 7 (Some 9%nat) (boot one_half 0) in
  reachable w
  /\ countdown_log (elapse (60 * 1000) (stopCountdown w)) = [TextContent 7 60]
  /\ countdownInterval (this (stopCountdown w)) = None
  /\ stopCountdown (stopCountdown w) = stopCountdown w
  /\ running (stopCountdown w) = []
  /\ timers (rt (stopCountdown (stopCountdown w))) = timers (rt (stopCountdown w)).
Proof.
  intros w.
  assert (R : reachable w)
    by (apply (reachable_exec _ (CallStartCountdown 7 (Some 9%nat))); constructor).
  assert (R' : reachable (stopCountdown w))
    by (apply (reachable_exec _ CallStopCountdown); exact R).
  assert (E : countdownInterval (this (stopCountdown w)) = None) by reflexivity.
  assert (Z : running (stopCountdown w) = []) by reflexivity.
  destruct (stopCountdown_silences (stopCountdown w) R') as (_ & H2 & H3).
  split; [exact R | split; [| split; [exact E | split; [exact (H2 E) | split;
    [exact Z | exact (proj1 (H3 Z))]]]]].
  exact (proj1 (proj1 (stopCountdown_silences w R) (60 * 1000)%nat)).
Defined.

End Countdown.

(** ** Requesting a code *)

Section Request.

Lemma fire_clock t w : clock (rt (fire t w)) = clock (rt w).
Proof.
  unfold fire, reschedule.
  destruct (t_every t), (t_code t) as [tl d f| phone | |]; simpl;
    try reflexivity;
    destruct (tl - 1 <=? 0); try reflexivity;
    destruct (countdownInterval (this w)), f; reflexivity.
Qed.

Lemma fire_log_mono e t w :
  In e (log (rt w)) -> In e (log (rt (fire t w))).
Proof.
  intros H. unfold fire, reschedule.
  destruct (t_every t), (t_code t) as [tl d f| phone | |]; simpl;
    rewrite ?in_app_iff; auto;
    destruct (tl - 1 <=? 0); simpl; rewrite ?in_app_iff; auto;
    destruct (countdownInterval (this w)), f; simpl; rewrite ?in_app_iff; auto.
Qed.

Lemma fold_log_mono e hs w :
  In e (log (rt w)) -> In e (log (rt (fold_left fire_handle hs w))).
Proof.
  apply (fold_fire_ind (fun u => In e (log (rt u)))).
  intros u t H _ _. apply fire_log_mono, H.
Qed.

(** Firing one timer leaves every other timer in the table. *)
Lemma fire_keeps td t w :
  timers_ok w -> In t (timers (rt w)) -> In td (timers (rt w)) ->
  t_handle t <> t_handle td ->
  In td (timers (rt (fire t w))).
Proof.
  intros OK It Id N.
  assert (Hh : forall h, h <> t_handle td -> has_handle h td = false).
  { intros h Hn. unfold has_handle. apply Pos.eqb_neq. congruence. }
  assert (Id1 : In td (timers (rt (reschedule t w)))).
  { unfold reschedule. destruct (t_every t) as [p|]; simpl.
    - apply in_map_iff. exists td. rewrite (Hh _ N). tauto.
    - apply filter_In. rewrite (Hh _ N). tauto. }
  assert (F1 : is_countdown t = true ->
               countdownInterval (this (reschedule t w)) = Some (t_handle t)).
  { intros C. destruct (ok_owned _ _ _ OK t It C) as [E _].
    unfold reschedule. destruct (t_every t); exact E. }
  unfold fire. revert Id1 F1. generalize (reschedule t w). intros u Id1 F1.
  unfold is_countdown in F1.
  destruct (t_code t) as [tl d f| phone | |]; simpl.
  - specialize (F1 eq_refl).
    assert (Id2 : In td (map (fun x => if has_handle (t_handle t) x
                               then {| t_handle := t_handle x; t_due := t_due x;
                                       t_every := t_every x;
                                       t_code := CountdownTick (tl - 1) d f |}
                               else x) (timers (rt u)))).
    { apply in_map_iff. exists td. rewrite (Hh _ N). tauto. }
    destruct (tl - 1 <=? 0); [| exact Id2].
    rewrite F1.
    destruct f; simpl; apply filter_In; rewrite (Hh _ N); tauto.
  - apply in_or_app. left. exact Id1.
  - apply in_or_app. left. exact Id1.
  - exact Id1.
Qed.

Lemma fold_keeps td hs w :
  timers_ok w -> In td (timers (rt w)) -> ~ In (t_handle td) hs ->
  timers_ok (fold_left fire_handle hs w)
  /\ In td (timers (rt (fold_left fire_handle hs w)))
  /\ clock (rt (fold_left fire_handle hs w)) = clock (rt w).
Proof.
  intros OK Id N.
  apply (fold_fire_ind
           (fun u => timers_ok u /\ In td (timers (rt u))
                     /\ clock (rt u) = clock (rt w))).
  - intros u t (OKu & Idu & Ec) It Ih. split; [| split].
    + apply ok_fire; assumption.
    + apply fire_keeps; try assumption. intros E. apply N. rewrite <- E. exact Ih.
    + rewrite fire_clock. exact Ec.
  - tauto.
Qed.

(** A pending timeout waits in the table until it is due. *)
Lemma elapse_keeps td n :
  forall w, timers_ok w -> In td (timers (rt w)) ->
    clock (rt w) + Z.of_nat n < t_due td ->
    timers_ok (elapse n w)
    /\ In td (timers (rt (elapse n w)))
    /\ clock (rt (elapse n w)) = clock (rt w) + Z.of_nat n.
Proof.
  induction n as [|n IH]; intros w OK Id Hd.
  - simpl. rewrite Z.add_0_r. tauto.
  - destruct (IH w OK Id) as (OK' & Id' & Ec); [lia |].
    rewrite elapse_S. unfold tick.
    destruct (fold_keeps td
                (map t_handle
                   (filter (is_due (clock (rt (at_time (clock (rt (elapse n w)) + 1)
                                                 (elapse n w)))))
                      (timers (rt (at_time (clock (rt (elapse n w)) + 1)
                                     (elapse n w))))))
                (at_time (clock (rt (elapse n w)) + 1) (elapse n w)))
      as (OK2 & Id2 & Ec2).
    + exact OK'.
    + exact Id'.
    + intros Ih. apply (due_handle _ _ _ (ok_nodup _ _ _ OK') Id') in Ih.
      simpl in Ih. lia.
    + split; [exact OK2 | split; [exact Id2 |]].
      rewrite Ec2. simpl. lia.
Qed.

(** When it comes due it fires and resolves its promise. *)
Lemma tick_delivers h due phone w :
  timers_ok w -> In (delivery h due phone) (timers (rt w)) ->
  due <= clock (rt w) + 1 ->
  In (Resolved h (otp_sent phone)) (log (rt (tick w))).
Proof.
  intros OK Id Hd.
  set (td := delivery h due phone) in *.
  set (w1 := at_time (clock (rt w) + 1) w).
  assert (OK1 : timers_ok w1) by exact OK.
  set (hs := map t_handle (filter (is_due (clock (rt w1))) (timers (rt w1)))).
  assert (Ih : In h hs).
  { unfold hs. apply in_map_iff. exists td. split; [reflexivity |].
    apply filter_In. split; [exact Id |].
    unfold is_due; simpl. apply Z.leb_le. exact Hd. }
  assert (Nh : NoDup hs) by (apply handles_filter_nodup, (ok_nodup _ _ _ OK1)).
  destruct (in_split _ _ Ih) as (hs1 & hs2 & Eh).
  unfold tick. fold w1. fold hs. rewrite Eh in Nh |- *.
  rewrite fold_left_app. simpl.
  apply NoDup_remove_2 in Nh.
  destruct (fold_keeps td hs1 w1 OK1 Id) as (OKa & Ia & _).
  { intros X. apply Nh, in_or_app. left. exact X. }
  apply fold_log_mono.
  set (wa := fold_left fire_handle hs1 w1) in *.
  unfold fire_handle.
  pose proof (find_handle _ td (ok_nodup _ _ _ OKa) Ia) as F.
  change (t_handle td) with h in F. rewrite F.
  unfold fire, reschedule; simpl. rewrite !in_app_iff. simpl. auto.
Qed.

(** What a firing timer adds to the log: it resolves no promise but its
    own; and handles are only ever handed out, never taken back. *)
Lemma fire_log_shape t w :
  exists l,
    log (rt (fire t w)) = log (rt w) ++ l
    /\ (forall h r, In (Resolved h r) l -> h = t_handle t)
    /\ (next_handle (rt w) <= next_handle (rt (fire t w)))%positive.
Proof.
  unfold fire, reschedule.
  destruct (t_every t), (t_code t) as [tl d f| phone | |]; simpl.
  1, 5: destruct (tl - 1 <=? 0);
        [ destruct (countdownInterval (this w)), f; simpl;
          rewrite <- ?app_assoc; simpl
        | simpl ].
  all: eexists; (split; [try reflexivity; rewrite <- ?app_assoc; reflexivity |]).
  all: split; [| lia].
  all: intros h r; simpl; intros H;
       repeat (destruct H as [H | H]; try discriminate H; try contradiction);
       congruence.
Qed.

Lemma fire_known t w :
  timers_ok w -> In t (timers (rt w)) ->
  resolutions_known w -> resolutions_known (fire t w).
Proof.
  intros OK It K h r H.
  destruct (fire_log_shape t w) as (l & El & Hl & Hn).
  rewrite El in H. apply in_app_iff in H. destruct H as [H|H].
  - apply K in H. lia.
  - apply Hl in H. subst h. pose proof (ok_fresh _ _ _ OK t It). lia.
Qed.

Lemma tick_known w :
  timers_ok w -> resolutions_known w -> resolutions_known (tick w).
Proof.
  intros OK K. unfold tick.
  apply (fold_fire_ind (fun u => timers_ok u /\ resolutions_known u)).
  - intros u t [OKu Ku] It _. split; [apply ok_fire | apply fire_known]; assumption.
  - split; [exact OK | exact K].
Qed.

Lemma reachable_resolutions_known w : reachable w -> resolutions_known w.
Proof.
  intros R. induction R as [rnd t0 | w a R IH]; [intros h r [] |].
  pose proof (reachable_timers_ok w R) as OK.
  destruct a; simpl.
  - exact IH.
  - unfold sendOTP. destruct (negb _); [exact IH |].
    intros h r H. apply IH in H. simpl. lia.
  - destruct (verifyOTP_state enteredOTP w) as [E|E]; rewrite E; exact IH.
  - intros h r H. unfold startCountdown in *.
    destruct (countdownInterval (this w)); simpl in *;
      apply in_app_iff in H; destruct H as [H|[H|[]]];
      try discriminate H; apply IH in H; lia.
  - unfold stopCountdown. destruct (countdownInterval (this w)); exact IH.
  - apply tick_known; assumption.
Qed.

Lemma sendOTP_valid phone w :
  validatePhoneNumber phone = true ->
  sendOTP phone w
  = (Pending (next_handle (rt w)),
     snd (setTimeout (DeliverOTP phone) 1500 w)).
Proof. intros V. unfold sendOTP. rewrite V. reflexivity. Qed.

(** C5. For every string of exactly ten ASCII digits [sendOTP] returns a
    pending promise, not resolved yet, leaves [code], [expiresAt] and the
    countdown handle untouched while the delivery is under way, and 1.5 s
    later the promise is resolved with [success: true]; for every other
    string it returns a promise rejected with "Invalid phone number format"
    (InvalidPhoneFormat) and the state is exactly as before the call. *)
Theorem sendOTP_contract :
  forall w phone, reachable w ->
    (ten_digits phone ->
       exists h,
         fst (sendOTP phone w) = Pending h
         /\ (forall r, ~ In (Resolved h r) (log (rt (snd (sendOTP phone w)))))
         /\ session_state (snd (sendOTP phone w)) = session_state w
         /\ In (Resolved h (otp_sent phone))
               (log (rt (elapse 1500 (snd (sendOTP phone w)))))
         /\ sent_success (otp_sent phone) = true)
    /\ (~ ten_digits phone ->
          sendOTP phone w = (InvalidPhoneFormat, w)
          /\ session_state (snd (sendOTP phone w)) = session_state w).
Proof.
  intros w phone R. pose proof (reachable_timers_ok w R) as OK. split.
  - intros T. apply validatePhoneNumber_spec in T.
    exists (next_handle (rt w)). rewrite (sendOTP_valid phone w T).
    cbn [fst snd].
    split; [reflexivity | split; [| split; [reflexivity | split; [| reflexivity]]]].
    { intros r H. apply (reachable_resolutions_known w R) in H. lia. }
    set (u := snd (setTimeout (DeliverOTP phone) 1500 w)).
    assert (OKu : timers_ok u).
    { pose proof (ok_sendOTP phone w OK) as H.
      rewrite (sendOTP_valid phone w T) in H. exact H. }
    assert (Iu : In (delivery (next_handle (rt w)) (clock (rt w) + 1500) phone)
                    (timers (rt u))).
    { unfold u; simpl. apply in_or_app. right. left. reflexivity. }
    destruct (elapse_keeps _ 1499 u OKu Iu) as (OK' & I' & Ec).
    { unfold u; simpl. lia. }
    replace 1500%nat with (S 1499) by reflexivity. rewrite elapse_S.
    apply tick_delivers with (due := clock (rt w) + 1500); try assumption.
    rewrite Ec. unfold u; simpl. lia.
  - intros T. apply validatePhoneNumber_false in T.
    unfold sendOTP. rewrite T. simpl. split; reflexivity.
Qed.

Lemma sendOTP_contract_witness :
  reachable (boot one_half 0)
  /\ ten_digits "0811234567"%string
  /\ ~ ten_digits "08112345678"%string
  /\ (exists h, fst (sendOTP "0811234567"%string (boot one_half 0)) = Pending h
                /\ In (Resolved h (otp_sent "0811234567"%string))
                      (log (rt (elapse 1500 (snd (sendOTP "0811234567"%string
                                                    (boot one_half 0)))))))
  /\ sendOTP "08112345678"%string (boot one_half 0)
     = (InvalidPhoneFormat, boot one_half 0).
Proof.
  assert (R : reachable (boot one_half 0)) by constructor.
  assert (T : ten_digits "0811234567"%string)
    by (apply validatePhoneNumber_spec; reflexivity).
  assert (N : ~ ten_digits "08112345678"%string)
    by (apply validatePhoneNumber_false; reflexivity).
  repeat (split; [assumption |]). split.
  - destruct (proj1 (sendOTP_contract (boot one_half 0) "0811234567"%string R) T)
      as (h & H1 & _ & _ & H3 & _).
    exists h. split; assumption.
  - exact (proj1 (proj2 (sendOTP_contract (boot one_half 0) "08112345678"%string R) N)).
Defined.

End Request.

(** ** More on verification *)

Section VerificationWindow.

Local Open Scope string_scope.

(** X1. A stored code is accepted at every clock reading up to and
    including its expiry instant and refused as expired at every later
    one. *)
Theorem verifyOTP_window :
  forall w c e t,
    reachable w ->
    generatedOTP (this w) = Some c ->
    otpExpiry (this w) = Some e ->
    (t <= e -> fst (verifyOTP c (at_time t w)) = otp_verified)
    /\ (e < t -> fst (verifyOTP c (at_time t w)) = otp_expired).
Proof.
  intros w c e t R Ec Ee.
  destruct (reachable_issued_ok w R c Ec) as [Ht _].
  split; intros L.
  - rewrite (verifyOTP_match c (at_time t w)); [reflexivity | | |];
      unfold Date_now; simpl.
    + rewrite Ec. exact Ht.
    + rewrite Ee. exact L.
    + exact Ec.
  - rewrite (verifyOTP_expired c (at_time t w)); [reflexivity | |];
      unfold Date_now; simpl.
    + rewrite Ec. exact Ht.
    + rewrite Ee. exact L.
Qed.

Lemma verifyOTP_window_witness :
  let w := snd (generateOTP (boot one_half 0)) in
  reachable w
  /\ fst (verifyOTP "550000" (at_time 300000 w)) = otp_verified
  /\ fst (verifyOTP "550000" (at_time 300001 w)) = otp_expired.
Proof.
  intros w.
  assert (R : reachable w) by (apply (reachable_exec _ CallGenerateOTP); constructor).
  destruct (verifyOTP_window w "550000" 300000 300000 R eq_refl eq_refl) as [H1 _].
  destruct (verifyOTP_window w "550000" 300000 300001 R eq_refl eq_refl) as [_ H2].
  split; [exact R | split; [apply H1 | apply H2]]; lia.
Defined.

Lemma attempts_fail c guesses :
  forall w,
    JS.truthy (generatedOTP (this w)) = true ->
    Date_now w <= JS.to_number (otpExpiry (this w)) ->
    generatedOTP (this w) = Some c ->
    Forall (fun g => g <> c) guesses ->
    run (attempts guesses) w = w.
Proof.
  induction guesses as [|g guesses IH]; intros w Ht L Ec F; [reflexivity |].
  inversion F as [|? ? Hg Hr]; subst. simpl.
  rewrite (verifyOTP_mismatch g c w Ht L Ec Hg). simpl.
  apply IH; assumption.
Qed.

(** X2. There is no lockout: while the code [c] is stored and unexpired,
    any number of attempts with other strings each fail with "invalid OTP",
    leave the whole state as it was, and the right code still verifies
    afterwards. *)
Theorem wrong_guesses_keep_code :
  forall w c guesses,
    reachable w ->
    generatedOTP (this w) = Some c ->
    Date_now w <= JS.to_number (otpExpiry (this w)) ->
    Forall (fun g => g <> c) guesses ->
    Forall (fun g => fst (verifyOTP g w) = otp_invalid) guesses
    /\ run (attempts guesses) w = w
    /\ fst (verifyOTP c (run (attempts guesses) w)) = otp_verified.
Proof.
  intros w c guesses R Ec L F.
  destruct (reachable_issued_ok w R c Ec) as [Ht _].
  assert (Ht' : JS.truthy (generatedOTP (this w)) = true) by (rewrite Ec; exact Ht).
  split; [| split].
  - apply Forall_forall. intros g Ig.
    rewrite Forall_forall in F.
    rewrite (verifyOTP_mismatch g c w Ht' L Ec (F g Ig)). reflexivity.
  - apply (attempts_fail c); assumption.
  - rewrite (attempts_fail c guesses w Ht' L Ec F).
    rewrite (verifyOTP_match c w Ht' L Ec). reflexivity.
Qed.

Lemma wrong_guesses_keep_code_witness :
  let w := snd (generateOTP (boot one_half 0)) in
  reachable w
  /\ Forall (fun g => g <> "550000") ["000000"; "123456"; ""]
  /\ run (attempts ["000000"; "123456"; ""]) w = w
  /\ fst (verifyOTP "550000" (run (attempts ["000000"; "123456"; ""]) w))
     = otp_verified.
Proof.
  intros w.
  assert (R : reachable w) by (apply (reachable_exec _ CallGenerateOTP); constructor).
  assert (L : Date_now w <= JS.to_number (otpExpiry (this w))) by (vm_compute; discriminate).
  assert (F : Forall (fun g => g <> "550000") ["000000"; "123456"; ""])
    by (repeat constructor; discriminate).
  destruct (wrong_guesses_keep_code w "550000" _ R eq_refl L F) as (_ & H2 & H3).
  split; [exact R | split; [exact F | split; [exact H2 | exact H3]]].
Defined.

End VerificationWindow.

(** ** More on the countdown *)

Section CountdownMore.

Lemma same_handle_short (ts : list timer) h :
  NoDup (map t_handle ts) ->
  (forall t, In t ts -> t_handle t = h) ->
  ts = [] \/ exists t, ts = [t].
Proof.
  intros N H. destruct ts as [|a [|b ts]]; [left; reflexivity | right; eauto |].
  exfalso. simpl in N. inversion N as [|? ? Hn _]; subst.
  apply Hn. left. rewrite (H a), (H b); simpl; auto.
Qed.

(** X3. In every reachable state at most one countdown timer exists; when
    one exists it is a one-second interval and [countdownInterval] holds its
    handle. *)
Theorem at_most_one_countdown :
  forall w, reachable w ->
    running w = []
    \/ exists t, running w = [t]
                 /\ countdownInterval (this w) = Some (t_handle t)
                 /\ t_every t = Some 1000.
Proof.
  intros w R. pose proof (reachable_timers_ok w R) as OK.
  destruct (countdownInterval (this w)) as [h|] eqn:E.
  - destruct (same_handle_short (running w) h) as [Z | [t Z]].
    + apply handles_filter_nodup, (ok_nodup _ _ _ OK).
    + intros t It. apply running_in in It. destruct It as [It C].
      destruct (ok_owned _ _ _ OK t It C) as [Hf _]. congruence.
    + left. exact Z.
    + right. exists t. split; [exact Z |].
      assert (It : In t (running w)) by (rewrite Z; left; reflexivity).
      apply running_in in It. destruct It as [It C].
      destruct (ok_owned _ _ _ OK t It C) as [Hf He]. split; [congruence | exact He].
  - left. apply filter_none. apply (unnamed_no_countdown _ _ _ OK). exact E.
Qed.

Lemma at_most_one_countdown_witness :
  let w := startCountdown 1 None (startCountdown 7 (Some 9%nat) (boot one_half 0)) in
  reachable w
  /\ (running w = []
      \/ exists t, running w = [t]
                   /\ countdownInterval (this w) = Some (t_handle t)
                   /\ t_every t = Some 1000).
Proof.
  intros w.
  assert (R : reachable w).
  { apply (reachable_exec _ (CallStartCountdown 1 None)).
    apply (reachable_exec _ (CallStartCountdown 7 (Some 9%nat))). constructor. }
  split; [exact R | exact (at_most_one_countdown w R)].
Defined.

(** X4. A countdown cancelled after [k] of its sixty seconds has shown
    60, 59, ..., 60 - k and nothing else; its completion callback is never
    called, however long the clock runs on. *)
Theorem countdown_cancelled_midway :
  forall w d f k n, reachable w -> (k < 60)%nat ->
    countdown_log
      (elapse n (stopCountdown (elapse (k * 1000) (startCountdown d f w))))
    = countdown_log w ++ TextContent d 60 :: count_down d 59 k.
Proof.
  intros w d f k n R Hk. pose proof (reachable_timers_ok w R) as OK.
  pose proof (ok_startCountdown d f w OK) as OK1.
  pose proof (view_startCountdown d f w OK) as V1.
  rewrite (reachable_cooldown w R) in V1.
  destruct (seconds _ _ _ _ k _ _ _ _ OK1 V1) as [OK2 V2]; [lia |].
  pose proof (ok_stopCountdown _ OK2) as OK3.
  pose proof (view_stopCountdown _ OK2) as V3.
  destruct (elapse_quiet n _ _ _ _ OK3 V3) as [_ V4].
  rewrite (view_log _ _ _ _ _ V4), (view_log _ _ _ _ _ V2), <- app_assoc.
  reflexivity.
Qed.

Lemma countdown_cancelled_midway_witness :
  reachable (boot one_half 0) /\ (2 < 60)%nat
  /\ countdown_log
       (elapse 5000 (stopCountdown
          (elapse (2 * 1000) (startCountdown 7 (Some 9%nat) (boot one_half 0)))))
     = [TextContent 7 60; TextContent 7 59; TextContent 7 58].
Proof.
  assert (R : reachable (boot one_half 0)) by constructor.
  assert (L : (2 < 60)%nat) by lia.
  split; [exact R | split; [exact L |]].
  exact (countdown_cancelled_midway (boot one_half 0) 7 (Some 9%nat) 2 5000 R L).
Defined.

End CountdownMore.

(** ** More on masking *)

Section MaskMore.

Local Open Scope string_scope.

Lemma substring_all s : String.substring 0 (String.length s) s = s.
Proof. induction s as [|c s IH]; simpl; [reflexivity | rewrite IH; reflexivity]. Qed.

(** The mask of a string of ten or more characters. *)
Lemma maskPhoneNumber_long phone :
  (10 <= String.length phone)%nat ->
  exists c0 c1 c2 c3 c4 c5 c6 c7 c8 c9 rest,
    phone = String c0 (String c1 (String c2 (String c3 (String c4
              (String c5 (String c6 (String c7 (String c8 (String c9 rest)))))))))
    /\ maskPhoneNumber phone
       = String c0 (String c1 (String c2
           (String "*" (String "*" (String "*" (String "*"
              (String c7 (String c8 (String c9 rest))))))))).
Proof.
  intros H.
  do 10 (destruct phone as [|? phone]; [simpl in H; lia |]).
  do 11 eexists. split; [reflexivity |].
  unfold maskPhoneNumber, JS.substring_from, JS.substring.
  cbn [String.length Nat.ltb Nat.leb Nat.min Nat.max Nat.sub].
  rewrite Nat.min_id. cbn [Nat.min Nat.max Nat.sub String.substring append].
  rewrite substring_all. reflexivity.
Qed.

(** X5. Masking never changes the length of its input and never changes
    the first three characters or any character from the eighth on; for an
    input of ten or more characters the fourth to seventh characters become
    ['*'].  An input longer than ten characters therefore keeps more than
    three trailing characters visible. *)
Theorem maskPhoneNumber_shape :
  forall phone,
    String.length (maskPhoneNumber phone) = String.length phone
    /\ (forall i, (i < 3 \/ 7 <= i)%nat ->
          String.get i (maskPhoneNumber phone) = String.get i phone)
    /\ ((10 <= String.length phone)%nat ->
        forall i, (3 <= i < 7)%nat ->
          String.get i (maskPhoneNumber phone) = Some "*"%char).
Proof.
  intros phone.
  destruct (Nat.lt_ge_cases (String.length phone) 10) as [S | L].
  - rewrite (maskPhoneNumber_short phone S).
    split; [reflexivity | split; [reflexivity | lia]].
  - destruct (maskPhoneNumber_long phone L)
      as (c0 & c1 & c2 & c3 & c4 & c5 & c6 & c7 & c8 & c9 & rest & -> & ->).
    split; [reflexivity | split].
    + intros i [Hi | Hi].
      * do 3 (destruct i as [|i]; [reflexivity |]). lia.
      * do 7 (destruct i as [|i]; [lia |]). reflexivity.
    + intros _ i Hi.
      do 3 (destruct i as [|i]; [lia |]).
      do 4 (destruct i as [|i]; [reflexivity |]). lia.
Qed.

Lemma maskPhoneNumber_shape_witness :
  (10 <= String.length "08112345678")%nat
  /\ (3 <= 4 < 7)%nat
  /\ String.get 4 (maskPhoneNumber "08112345678") = Some "*"%char
  /\ maskPhoneNumber "08112345678" = "081****5678".
Proof.
  assert (L : (10 <= String.length "08112345678")%nat) by (simpl; lia).
  assert (I : (3 <= 4 < 7)%nat) by lia.
  split; [exact L | split; [exact I | split; [| reflexivity]]].
  exact (proj2 (proj2 (maskPhoneNumber_shape "08112345678")) L 4%nat I).
Defined.

End MaskMore.

(** ** The generated code *)

Section SixDigits.

Ltac digit_cases k H :=
  let E := fresh "E" in
  assert (E : (k = 0 \/ k = 1 \/ k = 2 \/ k = 3 \/ k = 4 \/ k = 5 \/ k = 6
               \/ k = 7 \/ k = 8 \/ k = 9)%N) by lia;
  clear H;
  repeat (destruct E as [E | E]); subst k.

Lemma of_lu_digit k d :
  (k < 10)%N ->
  DecimalPos.Unsigned.of_lu (digit k d) = (k + 10 * DecimalPos.Unsigned.of_lu d)%N.
Proof. intros H. digit_cases k H; reflexivity. Qed.

Lemma revapp_digit k d acc :
  (k < 10)%N -> Decimal.revapp (digit k d) acc = Decimal.revapp d (digit k acc).
Proof. intros H. digit_cases k H; reflexivity. Qed.

Lemma unorm_digit k d :
  (1 <= k < 10)%N -> Decimal.unorm (digit k d) = digit k d.
Proof.
  intros H.
  assert (E : (k = 1 \/ k = 2 \/ k = 3 \/ k = 4 \/ k = 5 \/ k = 6
               \/ k = 7 \/ k = 8 \/ k = 9)%N) by lia.
  clear H. repeat (destruct E as [E | E]); subst k; reflexivity.
Qed.

Lemma string_of_digit k d :
  (k < 10)%N ->
  exists c, JS.is_digit c = true
            /\ (k <> 0%N -> c <> "0"%char)
            /\ NilEmpty.string_of_uint (digit k d)
               = String c (NilEmpty.string_of_uint d).
Proof.
  intros H. digit_cases k H; eexists; (split; [| split; [| reflexivity]]);
    try reflexivity; intros; try discriminate; try congruence.
Qed.

(** The decimal digits of a number between 100000 and 999999. *)
Lemma six_digit_number n :
  100000 <= n <= 999999 ->
  exists a b c d e f,
    (1 <= a < 10 /\ b < 10 /\ c < 10 /\ d < 10 /\ e < 10 /\ f < 10)%N
    /\ Z.to_int n
       = Decimal.Pos (digit a (digit b (digit c (digit d (digit e (digit f Decimal.Nil)))))).
Proof.
  intros H.
  set (m := Z.to_N n).
  assert (Hm : (100000 <= m <= 999999)%N) by (unfold m; lia).
  pose proof (N.div_mod' m 10) as E1. pose proof (N.mod_lt m 10 ltac:(discriminate)) as L1.
  pose proof (N.div_mod' (m / 10) 10) as E2.
  pose proof (N.mod_lt (m / 10) 10 ltac:(discriminate)) as L2.
  pose proof (N.div_mod' (m / 10 / 10) 10) as E3.
  pose proof (N.mod_lt (m / 10 / 10) 10 ltac:(discriminate)) as L3.
  pose proof (N.div_mod' (m / 10 / 10 / 10) 10) as E4.
  pose proof (N.mod_lt (m / 10 / 10 / 10) 10 ltac:(discriminate)) as L4.
  pose proof (N.div_mod' (m / 10 / 10 / 10 / 10) 10) as E5.
  pose proof (N.mod_lt (m / 10 / 10 / 10 / 10) 10 ltac:(discriminate)) as L5.
  set (f := (m mod 10)%N) in *. set (q1 := (m / 10)%N) in *.
  set (e := (q1 mod 10)%N) in *. set (q2 := (q1 / 10)%N) in *.
  set (d := (q2 mod 10)%N) in *. set (q3 := (q2 / 10)%N) in *.
  set (c := (q3 mod 10)%N) in *. set (q4 := (q3 / 10)%N) in *.
  set (b := (q4 mod 10)%N) in *. set (a := (q4 / 10)%N) in *.
  exists a, b, c, d, e, f. split; [lia |].
  set (le := digit f (digit e (digit d (digit c (digit b (digit a Decimal.Nil)))))).
  assert (Hle : DecimalPos.Unsigned.of_lu le = m).
  { unfold le. rewrite !of_lu_digit by lia. simpl DecimalPos.Unsigned.of_lu. lia. }
  assert (Hrev : Decimal.rev le
                 = digit a (digit b (digit c (digit d (digit e (digit f Decimal.Nil)))))).
  { unfold le, Decimal.rev. rewrite !revapp_digit by lia. reflexivity. }
  assert (Hu : N.to_uint m = Decimal.rev le).
  { rewrite <- Hle at 1. rewrite <- (DecimalFacts.rev_rev le) at 1.
    rewrite <- DecimalPos.Unsigned.of_uint_alt, DecimalPos.Unsigned.to_of.
    rewrite Hrev. apply unorm_digit. lia. }
  destruct n as [|p|p]; try lia.
  change (Z.to_int (Z.pos p)) with (Decimal.Pos (N.to_uint (N.pos p))).
  change (N.pos p) with m. rewrite Hu, Hrev. reflexivity.
Qed.

Lemma six_digit_string n :
  100000 <= n <= 999999 ->
  JS.test_digits 6 (JS.Number_toString n) = true
  /\ String.get 0 (JS.Number_toString n) <> Some "0"%char.
Proof.
  intros H. destruct (six_digit_number n H) as (a & b & c & d & e & f & Hd & E).
  unfold JS.Number_toString. rewrite E.
  unfold NilZero.string_of_int, NilZero.string_of_uint.
  destruct (string_of_digit a (digit b (digit c (digit d (digit e (digit f Decimal.Nil))))))
    as (ca & Da & Na & Ea); [lia |].
  destruct (string_of_digit b (digit c (digit d (digit e (digit f Decimal.Nil)))))
    as (cb & Db & _ & Eb); [lia |].
  destruct (string_of_digit c (digit d (digit e (digit f Decimal.Nil))))
    as (cc & Dc & _ & Ec); [lia |].
  destruct (string_of_digit d (digit e (digit f Decimal.Nil)))
    as (cd & Dd & _ & Ed); [lia |].
  destruct (string_of_digit e (digit f Decimal.Nil)) as (ce & De & _ & Ee); [lia |].
  destruct (string_of_digit f Decimal.Nil) as (cf & Df & _ & Ef); [lia |].
  replace (match digit a (digit b (digit c (digit d (digit e (digit f Decimal.Nil))))) with
           | Decimal.Nil => "0"%string
           | _ => NilEmpty.string_of_uint
                    (digit a (digit b (digit c (digit d (digit e (digit f Decimal.Nil))))))
           end)
    with (NilEmpty.string_of_uint
            (digit a (digit b (digit c (digit d (digit e (digit f Decimal.Nil))))))).
  - rewrite Ea, Eb, Ec, Ed, Ee, Ef. simpl.
    rewrite Da, Db, Dc, Dd, De, Df. split; [reflexivity |].
    intros X. injection X as X. apply Na; [lia | exact X].
  - destruct (digit a (digit b (digit c (digit d (digit e (digit f Decimal.Nil))))))
      eqn:X; try reflexivity.
    exfalso. revert X. destruct Hd as [Ha _].
    assert (E' : (a = 1 \/ a = 2 \/ a = 3 \/ a = 4 \/ a = 5 \/ a = 6
               \/ a = 7 \/ a = 8 \/ a = 9)%N) by lia.
    repeat (destruct E' as [E' | E']); subst a; discriminate.
Qed.

Lemma Number_toString_inj n m :
  JS.Number_toString n = JS.Number_toString m -> n = m.
Proof.
  unfold JS.Number_toString. intros E.
  apply (f_equal NilZero.int_of_string) in E.
  assert (G : forall k, Z.to_int k <> Decimal.Pos Decimal.Nil
                        /\ Z.to_int k <> Decimal.Neg Decimal.Nil).
  { intros [|p|p]; simpl; split; try discriminate; intros X; injection X as X;
      exact (DecimalPos.Unsigned.to_uint_nonnil p X). }
  rewrite !NilZero.isi in E by apply G.
  injection E as E. apply DecimalZ.to_int_inj, E.
Qed.

Lemma random_code_range (r : Q) :
  (0 <= r)%Q -> (r < 1)%Q ->
  100000 <= JS.Math_floor (100000 + r * 900000)%Q <= 999999.
Proof.
  intros H0 H1. unfold JS.Math_floor. split.
  - pose proof (Qfloor_resp_le (inject_Z 100000) (100000 + r * 900000)%Q) as H.
    rewrite Qfloor_Z in H. apply H. unfold inject_Z. Lqa.lra.
  - assert (H : Qfloor (100000 + r * 900000)%Q < 1000000); [| lia].
    rewrite Zlt_Qlt. eapply Qle_lt_trans; [apply Qfloor_le |].
    unfold inject_Z. Lqa.lra.
Qed.




End SixDigits.

(** ** A request from start to finish *)

Section Delivery.

Lemma deliveries_in t w :
  In t (deliveries w) <-> In t (timers (rt w)) /\ is_delivery t = true.
Proof. apply filter_In. Qed.

(** No delivery timer carries the handle of a timer of another kind. *)
Lemma other_handle t ts :
  NoDup (map t_handle ts) -> In t ts -> is_delivery t = false ->
  forall u, In u ts -> is_delivery u = true -> has_handle (t_handle t) u = false.
Proof.
  intros N It C u Iu Du.
  destruct (has_handle (t_handle t) u) eqn:Hh; [| reflexivity].
  apply Pos.eqb_eq in Hh. rewrite (handle_inj ts u t N Iu It Hh) in Du. congruence.
Qed.

Lemma other_handle_transfer h ts ts' :
  filter is_delivery ts' = filter is_delivery ts ->
  (forall u, In u ts -> is_delivery u = true -> has_handle h u = false) ->
  forall u, In u ts' -> is_delivery u = true -> has_handle h u = false.
Proof.
  intros E D u Iu Du.
  assert (I : In u (filter is_delivery ts')) by (apply filter_In; tauto).
  rewrite E in I. apply filter_In in I. apply D; tauto.
Qed.

Lemma deliveries_update h (g : timer -> timer) ts :
  (forall u, In u ts -> is_delivery u = true -> has_handle h u = false) ->
  (forall u, In u ts -> has_handle h u = true -> is_delivery (g u) = false) ->
  filter is_delivery (map (fun u => if has_handle h u then g u else u) ts)
  = filter is_delivery ts.
Proof.
  intros D G. apply filter_map_same.
  - intros u Iu Du. rewrite (D u Iu Du). reflexivity.
  - intros u Iu. destruct (has_handle h u) eqn:Hh; [| reflexivity].
    rewrite (G u Iu Hh). destruct (is_delivery u) eqn:Du; [| reflexivity].
    rewrite (D u Iu Du) in Hh. discriminate.
Qed.

Lemma not_delivery_at h ts :
  (forall u, In u ts -> is_delivery u = true -> has_handle h u = false) ->
  forall u, In u ts -> has_handle h u = true -> is_delivery u = false.
Proof.
  intros D u Iu Hh. destruct (is_delivery u) eqn:Du; [| reflexivity].
  rewrite (D u Iu Du) in Hh. discriminate.
Qed.

Lemma deliveries_remove h ts :
  (forall u, In u ts -> is_delivery u = true -> has_handle h u = false) ->
  filter is_delivery (filter (fun t => negb (has_handle h t)) ts)
  = filter is_delivery ts.
Proof.
  intros D. apply filter_filter_same. intros u Iu Du. rewrite (D u Iu Du). reflexivity.
Qed.

Lemma fire_other_code t w :
  is_delivery t = false -> code_view (fire t w) = code_view w.
Proof.
  unfold is_delivery, fire, reschedule. intros C.
  destruct (t_every t), (t_code t) as [tl d f| phone | |]; try discriminate C; simpl;
    try reflexivity;
    destruct (tl - 1 <=? 0); try reflexivity;
    destruct (countdownInterval (this w)), f; reflexivity.
Qed.

Lemma fire_entropy t w : entropy (rt (fire t w)) = entropy (rt w).
Proof.
  unfold fire, reschedule.
  destruct (t_every t), (t_code t) as [tl d f| phone | |]; simpl;
    try reflexivity;
    destruct (tl - 1 <=? 0); try reflexivity;
    destruct (countdownInterval (this w)), f; reflexivity.
Qed.

(** A timer of another kind fires without touching the pending deliveries. *)
Lemma fire_other_deliveries t w :
  timers_ok w -> In t (timers (rt w)) -> is_delivery t = false ->
  deliveries (fire t w) = deliveries w.
Proof.
  intros OK It C.
  pose proof (other_handle t _ (ok_nodup _ _ _ OK) It C) as D0.
  assert (E1 : deliveries (reschedule t w) = deliveries w).
  { unfold deliveries, reschedule. destruct (t_every t) as [p|]; simpl.
    - apply (deliveries_update (t_handle t)
               (fun u => {| t_handle := t_handle u; t_due := t_due u + p;
                            t_every := t_every u; t_code := t_code u |})); [exact D0 |].
      intros u Iu Hh. exact (not_delivery_at _ _ D0 u Iu Hh).
    - apply deliveries_remove. exact D0. }
  pose proof (other_handle_transfer (t_handle t) _ _ E1 D0) as D1.
  assert (F1 : is_countdown t = true ->
               countdownInterval (this (reschedule t w)) = Some (t_handle t)).
  { intros X. destruct (ok_owned _ _ _ OK t It X) as [E _].
    unfold reschedule. destruct (t_every t); exact E. }
  rewrite <- E1. unfold fire. revert D1 F1. generalize (reschedule t w).
  intros u D1 F1. unfold is_delivery in C. unfold is_countdown in F1.
  destruct (t_code t) as [tl d f| phone | |]; try discriminate C.
  - specialize (F1 eq_refl).
    assert (E2 : filter is_delivery
                   (map (fun x => if has_handle (t_handle t) x
                                  then {| t_handle := t_handle x; t_due := t_due x;
                                          t_every := t_every x;
                                          t_code := CountdownTick (tl - 1) d f |}
                                  else x) (timers (rt u)))
                 = filter is_delivery (timers (rt u))).
    { apply (deliveries_update (t_handle t)
               (fun x => {| t_handle := t_handle x; t_due := t_due x;
                            t_every := t_every x;
                            t_code := CountdownTick (tl - 1) d f |})); [exact D1 |].
      reflexivity. }
    pose proof (other_handle_transfer (t_handle t) _ _ E2 D1) as D2.
    unfold deliveries; simpl. destruct (tl - 1 <=? 0); [| exact E2].
    rewrite F1. destruct f; simpl; rewrite deliveries_remove by exact D2; exact E2.
  - unfold deliveries; simpl. rewrite filter_app; simpl. apply app_nil_r.
  - reflexivity.
Qed.

Lemma fold_fire_others_deliveries hs w :
  timers_ok w ->
  (forall t, In t (deliveries w) -> ~ In (t_handle t) hs) ->
  timers_ok (fold_left fire_handle hs w)
  /\ deliveries (fold_left fire_handle hs w) = deliveries w
  /\ code_view (fold_left fire_handle hs w) = code_view w
  /\ clock (rt (fold_left fire_handle hs w)) = clock (rt w)
  /\ entropy (rt (fold_left fire_handle hs w)) = entropy (rt w).
Proof.
  intros OK Hn.
  apply (fold_fire_ind
           (fun u => timers_ok u /\ deliveries u = deliveries w
                     /\ code_view u = code_view w
                     /\ clock (rt u) = clock (rt w)
                     /\ entropy (rt u) = entropy (rt w))).
  - intros u t (OKu & Du & Vu & Cu & Eu) It Ih.
    assert (C : is_delivery t = false).
    { destruct (is_delivery t) eqn:C; [exfalso | reflexivity].
      apply (Hn t); [| exact Ih]. rewrite <- Du. apply deliveries_in. tauto. }
    split; [apply ok_fire; assumption |].
    split; [rewrite fire_other_deliveries by assumption; exact Du |].
    split; [rewrite fire_other_code by assumption; exact Vu |].
    split; [rewrite fire_clock; exact Cu | rewrite fire_entropy; exact Eu].
  - split; [exact OK | repeat split].
Qed.

(** The code a world will generate next. *)
Lemma generateOTP_code w :
  fst (generateOTP w)
  = JS.Number_toString
      (JS.Math_floor (100000 + entropy (rt w) (draws (rt w)) * 900000)%Q).
Proof. reflexivity. Qed.

(** A millisecond in which no delivery is due. *)
Lemma tick_no_delivery w :
  timers_ok w ->
  (forall t, In t (deliveries w) -> clock (rt w) + 1 < t_due t) ->
  timers_ok (tick w)
  /\ deliveries (tick w) = deliveries w
  /\ code_view (tick w) = code_view w
  /\ clock (rt (tick w)) = clock (rt w) + 1
  /\ entropy (rt (tick w)) = entropy (rt w).
Proof.
  intros OK Hd. unfold tick.
  apply (fold_fire_others_deliveries _ (at_time (clock (rt w) + 1) w) OK).
  intros t It Ih. specialize (Hd t It).
  apply deliveries_in in It. destruct It as [It _].
  apply (due_handle _ _ _ (ok_nodup _ _ _ OK)) in Ih; [| exact It].
  simpl in Ih. lia.
Qed.

Lemma elapse_no_delivery n :
  forall w,
    timers_ok w ->
    (forall t, In t (deliveries w) -> clock (rt w) + Z.of_nat n < t_due t) ->
    timers_ok (elapse n w)
    /\ deliveries (elapse n w) = deliveries w
    /\ code_view (elapse n w) = code_view w
    /\ clock (rt (elapse n w)) = clock (rt w) + Z.of_nat n
    /\ entropy (rt (elapse n w)) = entropy (rt w).
Proof.
  induction n as [|n IH]; intros w OK Hd.
  - simpl. rewrite Z.add_0_r. tauto.
  - destruct (IH w OK) as (OK' & D' & V' & C' & E').
    { intros t It. specialize (Hd t It). lia. }
    rewrite elapse_S.
    destruct (tick_no_delivery (elapse n w) OK') as (OK2 & D2 & V2 & C2 & E2).
    { intros t It. rewrite D' in It. specialize (Hd t It). lia. }
    split; [exact OK2 |]. split; [congruence |]. split; [congruence |].
    split; [lia | congruence].
Qed.

(** The millisecond in which the one pending delivery is due: a code is
    generated, stored with its expiry, shown, and the promise resolved. *)
Lemma tick_delivery w h due phone :
  timers_ok w ->
  deliveries w = [delivery h due phone] ->
  due <= clock (rt w) + 1 ->
  forall otp, fst (generateOTP w) = otp ->
  timers_ok (tick w)
  /\ deliveries (tick w) = []
  /\ code_view (tick w)
     = (Some otp, Some (clock (rt w) + 1 + 300000), S (draws (rt w)),
        resendCooldown (this w))
  /\ clock (rt (tick w)) = clock (rt w) + 1
  /\ In (NotificationShown phone otp) (log (rt (tick w)))
  /\ In (Resolved h (otp_sent phone)) (log (rt (tick w))).
Proof.
  intros OK D Hd otp Eotp.
  set (td := delivery h due phone) in *.
  set (w1 := at_time (clock (rt w) + 1) w).
  assert (OK1 : timers_ok w1) by exact OK.
  assert (D1 : deliveries w1 = [td]) by exact D.
  assert (It : In td (timers (rt w1))).
  { apply (deliveries_in td w1). rewrite D1. left. reflexivity. }
  set (hs := map t_handle (filter (is_due (clock (rt w1))) (timers (rt w1)))).
  assert (Ih : In h hs).
  { unfold hs. apply in_map_iff. exists td. split; [reflexivity |].
    apply filter_In. split; [exact It |].
    unfold is_due; simpl. apply Z.leb_le. exact Hd. }
  assert (Nh : NoDup hs) by (apply handles_filter_nodup, (ok_nodup _ _ _ OK1)).
  destruct (in_split _ _ Ih) as (hs1 & hs2 & Eh).
  unfold tick. fold w1. fold hs. rewrite Eh in Nh |- *.
  rewrite fold_left_app. simpl.
  apply NoDup_remove_2 in Nh.
  destruct (fold_fire_others_deliveries hs1 w1 OK1) as (OKa & Da & Va & Ca & Ea).
  { intros u Iu. rewrite D1 in Iu. destruct Iu as [<-|[]].
    intros X. apply Nh, in_or_app. left. exact X. }
  set (wa := fold_left fire_handle hs1 w1) in *.
  rewrite D1 in Da.
  assert (Ia : In td (timers (rt wa))).
  { apply (deliveries_in td wa). rewrite Da. left. reflexivity. }
  assert (Fa : fire_handle wa h = fire td wa).
  { unfold fire_handle.
    pose proof (find_handle _ td (ok_nodup _ _ _ OKa) Ia) as F.
    change (t_handle td) with h in F. rewrite F. reflexivity. }
  rewrite Fa.
  pose proof (ok_fire td wa OKa Ia) as OKb.
  assert (Oa : fst (generateOTP wa) = otp).
  { rewrite <- Eotp. rewrite !generateOTP_code, Ea.
    unfold code_view in Va. replace (draws (rt wa)) with (draws (rt w1)) by congruence.
    reflexivity. }
  assert (Db : deliveries (fire td wa) = []).
  { unfold deliveries, fire, reschedule; simpl.
    rewrite filter_app; simpl. rewrite app_nil_r, filter_comm.
    fold (deliveries wa). rewrite Da. simpl.
    unfold has_handle; simpl. rewrite Pos.eqb_refl. reflexivity. }
  assert (Vb : code_view (fire td wa)
               = (Some otp, Some (clock (rt w) + 1 + 300000), S (draws (rt w)),
                  resendCooldown (this w))).
  { rewrite <- Oa. unfold code_view in Va |- *.
    unfold fire, reschedule; simpl. unfold Date_now; simpl.
    rewrite Ca. injection Va as _ _ V3 V4. rewrite V3, V4. reflexivity. }
  assert (Lb : In (NotificationShown phone otp) (log (rt (fire td wa)))
               /\ In (Resolved h (otp_sent phone)) (log (rt (fire td wa)))).
  { rewrite <- Oa. unfold fire, reschedule; simpl.
    rewrite !in_app_iff; simpl. split; auto. }
  destruct (fold_fire_others_deliveries hs2 (fire td wa) OKb)
    as (OKc & Dc & Vc & Cc & _).
  { intros u Iu. rewrite Db in Iu. contradiction. }
  split; [exact OKc |]. split; [congruence |]. split; [congruence |].
  split; [rewrite Cc, fire_clock, Ca; reflexivity |].
  split; apply fold_log_mono; tauto.
Qed.

Lemma generateOTP_code_eq a b :
  entropy (rt a) = entropy (rt b) -> code_view a = code_view b ->
  fst (generateOTP a) = fst (generateOTP b).
Proof.
  intros E V. rewrite !generateOTP_code, E.
  unfold code_view in V. injection V as _ _ V _. rewrite V. reflexivity.
Qed.

(** What the delivery of a code leaves behind. *)
Lemma delivered_code v h due phone otp :
  timers_ok v ->
  deliveries v = [delivery h due phone] ->
  due <= clock (rt v) + 1 ->
  fst (generateOTP v) = otp ->
  generatedOTP (this (tick v)) = Some otp
  /\ otpExpiry (this (tick v)) = Some (clock (rt v) + 1 + 300000)
  /\ In (NotificationShown phone otp) (log (rt (tick v)))
  /\ fst (verifyOTP otp (tick v)) = otp_verified
  /\ (forall g, g <> otp -> verifyOTP g (tick v) = (otp_invalid, tick v)).
Proof.
  intros OK D Hd Eo.
  destruct (tick_delivery v h due phone OK D Hd otp Eo)
    as (_ & _ & V & C & L & _).
  unfold code_view in V. injection V as G X _ _.
  assert (Ht : JS.truthy (generatedOTP (this (tick v))) = true).
  { rewrite G, <- Eo. apply Number_toString_truthy. }
  assert (Le : Date_now (tick v) <= JS.to_number (otpExpiry (this (tick v)))).
  { unfold Date_now. rewrite X, C. simpl. lia. }
  split; [exact G |]. split; [exact X |]. split; [exact L |].
  split.
  - rewrite (verifyOTP_match otp _ Ht Le G). reflexivity.
  - intros g Hg. apply (verifyOTP_mismatch g otp _ Ht Le G Hg).
Qed.

(** What [sendOTP] leaves behind when it accepts the number. *)
Lemma sendOTP_pending phone w :
  validatePhoneNumber phone = true -> deliveries w = [] ->
  deliveries (snd (sendOTP phone w))
  = [delivery (next_handle (rt w)) (clock (rt w) + 1500) phone]
  /\ clock (rt (snd (sendOTP phone w))) = clock (rt w)
  /\ entropy (rt (snd (sendOTP phone w))) = entropy (rt w)
  /\ code_view (snd (sendOTP phone w)) = code_view w.
Proof.
  intros T D. rewrite (sendOTP_valid phone w T).
  unfold deliveries in *; simpl. rewrite filter_app, D. repeat split.
Qed.

(** X8. End to end: on a page with no other request in flight, 1.5 s
    after [sendOTP] was given ten digits the code drawn from the random
    source is stored, expires five minutes after that instant, was shown in
    the demo notification, verifies, and any other string is refused as
    invalid with the state left as it is.  The code does not depend on the
    phone number. *)
Theorem requested_code_verifies :
  forall w phone,
    reachable w -> deliveries w = [] -> ten_digits phone ->
    let w' := elapse 1500 (snd (sendOTP phone w)) in
    let otp := fst (generateOTP w) in
    generatedOTP (this w') = Some otp
    /\ otpExpiry (this w') = Some (clock (rt w) + 1500 + 300000)
    /\ In (NotificationShown phone otp) (log (rt w'))
    /\ fst (verifyOTP otp w') = otp_verified
    /\ (forall g, g <> otp -> verifyOTP g w' = (otp_invalid, w')).
Proof.
  intros w phone R D T. cbv zeta.
  pose proof (reachable_timers_ok w R) as OK.
  apply validatePhoneNumber_spec in T.
  pose proof (ok_sendOTP phone w OK) as OKu.
  destruct (sendOTP_pending phone w T D) as (Du & Cu & Eu & Vu).
  revert OKu Du Cu Eu Vu. generalize (snd (sendOTP phone w)).
  intros u OKu Du Cu Eu Vu.
  destruct (elapse_no_delivery 1499 u OKu) as (OK1 & D1 & V1 & C1 & E1).
  { intros t It. rewrite Du in It. destruct It as [<-|[]].
    cbn [t_due delivery]. rewrite Cu. lia. }
  replace 1500%nat with (S 1499) by reflexivity. rewrite elapse_S.
  revert OK1 D1 V1 C1 E1. generalize (elapse 1499 u). intros v OK1 D1 V1 C1 E1.
  rewrite Du in D1.
  assert (Eo : fst (generateOTP v) = fst (generateOTP w)).
  { apply generateOTP_code_eq; congruence. }
  replace (clock (rt w) + 1500 + 300000) with (clock (rt v) + 1 + 300000)
    by (rewrite C1, Cu; lia).
  apply (delivered_code v _ _ phone _ OK1 D1); [| exact Eo].
  rewrite C1, Cu. lia.
Qed.

Lemma requested_code_verifies_witness :
  reachable (boot one_half 0)
  /\ deliveries (boot one_half 0) = []
  /\ ten_digits "0811234567"%string
  /\ fst (verifyOTP "550000"%string
            (elapse 1500 (snd (sendOTP "0811234567"%string (boot one_half 0)))))
     = otp_verified.
Proof.
  assert (R : reachable (boot one_half 0)) by constructor.
  assert (D : deliveries (boot one_half 0) = []) by reflexivity.
  assert (T : ten_digits "0811234567"%string)
    by (apply validatePhoneNumber_spec; reflexivity).
  split; [exact R | split; [exact D | split; [exact T |]]].
  exact (proj1 (proj2 (proj2 (proj2
           (requested_code_verifies (boot one_half 0) "0811234567"%string R D T))))).
Defined.

End Delivery.

(** ** The forms of the login and registration pages *)

Section FormValidation.

Local Open Scope string_scope.

Lemma trimEnd_head c s :
  Form.is_white_space c = false -> Form.trimEnd (String c s) <> "".
Proof.
  intros H. simpl. destruct (Form.trimEnd s); [rewrite H |]; discriminate.
Qed.

Lemma trimStart_spec s :
  (Form.trimStart s = "" /\ all_white_space s)
  \/ (exists c r, Form.trimStart s = String c r /\ Form.is_white_space c = false
                  /\ ~ all_white_space s).
Proof.
  induction s as [|c s IH]; simpl.
  - left. split; [reflexivity | constructor].
  - destruct (Form.is_white_space c) eqn:W.
    + destruct IH as [[E A] | (c' & r & E & W' & A)].
      * left. split; [exact E | constructor; assumption].
      * right. exists c', r. split; [exact E | split; [exact W' |]].
        intros X. inversion X; subst. tauto.
    + right. exists c, s. split; [reflexivity | split; [exact W |]].
      intros X. inversion X; subst. congruence.
Qed.

Lemma trim_empty s : Form.trim s = "" <-> all_white_space s.
Proof.
  unfold Form.trim.
  destruct (trimStart_spec s) as [[E A] | (c & r & E & W & A)]; rewrite E.
  - simpl. tauto.
  - split; [intros X; exfalso; exact (trimEnd_head c r W X) | tauto].
Qed.

Lemma blank_false v : Form.blank v = false <-> filled v.
Proof.
  unfold Form.blank, filled. destruct v as [s|].
  - split.
    + intros H. exists s. split; [reflexivity |]. intros A.
      apply trim_empty in A. rewrite A in H.
      rewrite orb_true_r in H. discriminate.
    + intros (s' & E & A). injection E as <-.
      apply orb_false_iff. split.
      * destruct s; [exfalso; apply A; constructor | reflexivity].
      * apply String.eqb_neq. intros X. apply A, trim_empty, X.
  - split; [discriminate | intros (s & E & _); discriminate].
Qed.

Lemma digit_not_space c :
  JS.is_digit c = true -> Form.is_white_space c = false.
Proof.
  destruct c as [[] [] [] [] [] [] [] []]; vm_compute; congruence.
Qed.

Lemma digits_filled n v : digits (S n) v -> filled v.
Proof.
  intros (s & -> & T). exists s. split; [reflexivity |].
  destruct s as [|c s]; [discriminate |]. simpl in T.
  apply andb_true_iff in T. destruct T as [D _].
  intros A. inversion A as [|? ? W _]; subst.
  rewrite (digit_not_space c D) in W. discriminate.
Qed.

(** X9. [validateForm] declares a form valid exactly when every rule
    passes, and otherwise reports the message of the first rule, in the
    order of the rules object, that fails; later problems are not
    reported. *)
Theorem validateForm_first_failure :
  forall formData rules,
    (Form.validateForm formData rules
     = {| Form.valid := true; Form.message := None |}
     <-> all_pass formData rules)
    /\ (forall m,
          Form.validateForm formData rules
          = {| Form.valid := false; Form.message := Some m |}
          <-> exists before field r after,
                rules = (before ++ (field, r) :: after)%list
                /\ all_pass formData before
                /\ Form.check formData field r = Some m).
Proof.
  intros fd rules. induction rules as [|[f r] rules [IH1 IH2]]; simpl.
  - split.
    + split; [constructor | reflexivity].
    + intros m. split; [discriminate |].
      intros (b & ? & ? & ? & E & _). destruct b; discriminate.
  - destruct (Form.check fd f r) as [m0|] eqn:C.
    + split.
      * split; [discriminate |]. intros A. inversion A; subst. simpl in *. congruence.
      * intros m. split.
        -- intros E. injection E as <-. exists [], f, r, rules.
           repeat split; [constructor | exact C].
        -- intros (b & f' & r' & a & E & A & C').
           destruct b as [|[f0 r0] b]; simpl in E; injection E as <- <- ?.
           ++ congruence.
           ++ inversion A; subst. simpl in *. congruence.
    + split.
      * rewrite IH1. split; [intros A; constructor; assumption |].
        intros A. inversion A; assumption.
      * intros m. rewrite IH2. split.
        -- intros (b & f' & r' & a & -> & A & C').
           exists ((f, r) :: b), f', r', a.
           repeat split; [constructor; assumption | exact C'].
        -- intros (b & f' & r' & a & E & A & C').
           destruct b as [|[f0 r0] b]; simpl in E; injection E as <- <- ->.
           ++ congruence.
           ++ inversion A; subst. exists b, f', r', a. repeat split; assumption.
Qed.

Lemma valid_all_pass fd rules :
  Form.valid (Form.validateForm fd rules) = true <-> all_pass fd rules.
Proof.
  rewrite <- (proj1 (validateForm_first_failure fd rules)).
  induction rules as [|[f r] rules IH]; simpl.
  - tauto.
  - destruct (Form.check fd f r); simpl; [split; discriminate | exact IH].
Qed.

Lemma check_required fd f l :
  Form.check fd f (Form.only_required l) = None <-> filled (Form.get fd f).
Proof.
  rewrite <- blank_false. unfold Form.check; simpl.
  destruct (Form.blank (Form.get fd f)); simpl; split; congruence.
Qed.

Lemma check_digits fd f l m n :
  Form.check fd f
    {| Form.required := true; Form.label := Some l; Form.minLength := None;
       Form.pattern := Some (Form.ExactDigits (S n));
       Form.patternMessage := Some m; Form.matches := None |} = None
  <-> digits (S n) (Form.get fd f).
Proof.
  unfold Form.check; cbn [Form.required Form.label Form.minLength Form.pattern
                          Form.patternMessage Form.matches andb].
  split.
  - destruct (Form.blank (Form.get fd f)) eqn:B; [discriminate |].
    destruct (Form.get fd f) as [[|c v]|]; try discriminate B.
    cbn [Form.test]. destruct (JS.test_digits (S n) (String c v)) eqn:T;
      [| discriminate].
    intros _. exists (String c v). tauto.
  - intros D. pose proof (digits_filled _ _ D) as F.
    apply blank_false in F. rewrite F.
    destruct D as (s & -> & T). destruct s as [|c v]; [discriminate |].
    cbn [Form.test]. rewrite T. reflexivity.
Qed.

Lemma check_min_length fd f l n :
  Form.check fd f
    {| Form.required := true; Form.label := Some l;
       Form.minLength := Some (S n); Form.pattern := None;
       Form.patternMessage := None; Form.matches := None |} = None
  <-> exists s, Form.get fd f = Some s /\ ~ all_white_space s
                /\ (S n <= String.length s)%nat.
Proof.
  unfold Form.check; cbn [Form.required Form.label Form.minLength Form.pattern
                          Form.patternMessage Form.matches andb].
  split.
  - destruct (Form.blank (Form.get fd f)) eqn:B; [discriminate |].
    apply blank_false in B. destruct B as (s & E & A). rewrite E.
    destruct s as [|c v]; [exfalso; apply A; constructor |].
    destruct (Nat.ltb_spec (String.length (String c v)) (S n)); [discriminate |].
    intros _. exists (String c v). tauto.
  - intros (s & E & A & L).
    assert (F : filled (Form.get fd f)) by (exists s; tauto).
    apply blank_false in F. rewrite F, E.
    destruct s as [|c v]; [simpl in L; lia |].
    destruct (Nat.ltb_spec (String.length (String c v)) (S n)); [lia | reflexivity].
Qed.

Lemma strict_equal_eq a b : Form.strict_equal a b = true <-> a = b.
Proof.
  destruct a as [x|], b as [y|]; simpl; try (split; congruence).
  rewrite String.eqb_eq. split; congruence.
Qed.

Lemma check_matches fd f l c m :
  Form.check fd f
    {| Form.required := true; Form.label := Some l; Form.minLength := None;
       Form.pattern := None; Form.patternMessage := None;
       Form.matches := Some (String c m) |} = None
  <-> filled (Form.get fd f) /\ Form.get fd f = Form.get fd (String c m).
Proof.
  rewrite <- blank_false.
  unfold Form.check; cbn [Form.required Form.label Form.minLength Form.pattern
                          Form.patternMessage Form.matches andb].
  destruct (Form.blank (Form.get fd f)).
  - split; [discriminate | intros [X _]; discriminate].
  - destruct (Form.strict_equal (Form.get fd f) (Form.get fd (String c m))) eqn:E;
      simpl.
    + apply strict_equal_eq in E. split; [intros _; split; [reflexivity | exact E] | reflexivity].
    + split; [discriminate |]. intros [_ X]. apply strict_equal_eq in X. congruence.
Qed.

(** X10. The login form validates exactly when the username and the
    password are present and not blank and the phone number consists of
    exactly ten digits. *)
Theorem login_form_valid_iff :
  forall formData,
    Form.valid (Form.validateForm formData Form.login_rules) = true
    <-> filled (Form.get formData "username")
        /\ filled (Form.get formData "password")
        /\ digits 10 (Form.get formData "phone").
Proof.
  intros fd. rewrite valid_all_pass. unfold all_pass, Form.login_rules.
  rewrite !Forall_cons_iff. cbn [fst snd].
  rewrite !check_required, check_digits.
  split; [tauto |]. intros (A & B & C). repeat split; try assumption. constructor.
Qed.


End FormValidation.

Section UserStore.

Variable toISOString : Z -> string.

Lemma find_ext_in {A} (p q : A -> bool) l :
  (forall x, p x = q x) -> find p l = find q l.
Proof.
  intros H. induction l as [|x l IH]; simpl; [reflexivity |].
  rewrite H, IH. reflexivity.
Qed.

Lemma find_snoc {A} (p : A -> bool) l x :
  find p (l ++ [x])
  = match find p l with
    | Some y => Some y
    | None => if p x then Some x else None
    end.
Proof.
  induction l as [|y l IH]; simpl; [reflexivity |].
  destruct (p y); [reflexivity | exact IH].
Qed.

(** X12. [findUser] returns the first stored user whose phone number is
    the given one; the username it is given has no influence on the
    result. *)
Theorem findUser_ignores_username :
  forall name number st,
    Users.findUser name number st
    = find (fun u => Users.same (Users.phone (Users.data u)) number)
           (Users.stored_users st)
    /\ forall name', Users.findUser name' number st = Users.findUser name number st.
Proof.
  assert (H : forall name number st,
            Users.findUser name number st
            = find (fun u => Users.same (Users.phone (Users.data u)) number)
                   (Users.stored_users st)).
  { intros name number st. unfold Users.findUser. apply find_ext_in.
    intros u. destruct (Users.same (Users.username (Users.data u)) name),
                       (Users.same (Users.phone (Users.data u)) number); reflexivity. }
  intros name number st. split; [apply H |].
  intros name'. rewrite !H. reflexivity.
Qed.

Lemma find_phone_none (p : string) users :
  find (fun x => String.eqb (Users.phone (Users.data x)) p) users = None
  <-> ~ In p (map (fun u => Users.phone (Users.data u)) users).
Proof.
  split.
  - intros F I. apply in_map_iff in I. destruct I as (x & E & I).
    apply (find_none _ _ F) in I. simpl in I. rewrite E, String.eqb_refl in I.
    discriminate.
  - intros N. destruct (find _ users) as [x|] eqn:F; [| reflexivity].
    apply find_some in F. destruct F as [I E]. apply String.eqb_eq in E.
    exfalso. apply N. apply in_map_iff. exists x. tauto.
Qed.

(** X13. [storeUserData] refuses a phone number that is already stored,
    leaving the storage as it is, and otherwise appends the new user; so
    phone numbers stay distinct among the stored users. *)
Theorem storeUserData_distinct_phones :
  forall u now st,
    let r := Users.storeUserData toISOString u now st in
    (success (fst r) = false
     <-> In (Users.phone u)
            (map (fun x => Users.phone (Users.data x)) (Users.stored_users st)))
    /\ (success (fst r) = false -> snd r = st)
    /\ (success (fst r) = true ->
        snd r = Some (Users.stored_users st
                      ++ [ {| Users.data := u; Users.id := now;
                              Users.createdAt := toISOString now |} ]))
    /\ (distinct_phones st -> distinct_phones (snd r)).
Proof.
  intros u now st. unfold Users.storeUserData. cbv zeta.
  destruct (find _ (Users.stored_users st)) as [x|] eqn:F; cbn [fst snd success].
  - split; [| split; [reflexivity | split; [discriminate | tauto]]].
    split; [intros _ | reflexivity].
    apply find_some in F. destruct F as [I E]. apply String.eqb_eq in E.
    apply in_map_iff. exists x. tauto.
  - apply find_phone_none in F.
    split; [split; [discriminate | tauto] |].
    split; [discriminate | split; [reflexivity |]].
    unfold distinct_phones; simpl. intros N. rewrite map_app. simpl.
    apply NoDup_rev in N. rewrite <- (rev_involutive (_ ++ _)).
    apply NoDup_rev. rewrite rev_app_distr. simpl. constructor; [| exact N].
    rewrite <- in_rev. exact F.
Qed.

(** X14. After [storeUserData] has accepted a user, [findUser] with that
    phone number returns exactly the stored record, whatever username is
    given, [verifyPassword] accepts its password and no other, and lookups
    of other phone numbers are as before. *)
Theorem stored_user_is_found :
  forall u now st name,
    success (fst (Users.storeUserData toISOString u now st)) = true ->
    let st' := snd (Users.storeUserData toISOString u now st) in
    let stored := {| Users.data := u; Users.id := now;
                     Users.createdAt := toISOString now |} in
    Users.findUser name (Some (Users.phone u)) st' = Some stored
    /\ (forall pass,
          Users.verifyPassword (Users.findUser name (Some (Users.phone u)) st') pass
          = true <-> pass = Some (Users.password u))
    /\ (forall p, p <> Users.phone u ->
          Users.findUser name (Some p) st' = Users.findUser name (Some p) st).
Proof.
  intros u now st name S.
  destruct (storeUserData_distinct_phones u now st) as (H1 & _ & H3 & _).
  cbv zeta in *. rewrite (H3 S).
  assert (N : ~ In (Users.phone u)
                  (map (fun x => Users.phone (Users.data x)) (Users.stored_users st))).
  { intros I. apply H1 in I. congruence. }
  apply find_phone_none in N.
  assert (F : Users.findUser name (Some (Users.phone u))
                (Some (Users.stored_users st
                       ++ [ {| Users.data := u; Users.id := now;
                               Users.createdAt := toISOString now |} ]))
              = Some {| Users.data := u; Users.id := now;
                        Users.createdAt := toISOString now |}).
  { rewrite (proj1 (findUser_ignores_username _ _ _)). simpl.
    rewrite find_snoc. simpl. rewrite N. simpl. rewrite String.eqb_refl. reflexivity. }
  split; [exact F | split].
  - intros pass. rewrite F. simpl. destruct pass as [p|]; simpl.
    + rewrite String.eqb_eq. split; congruence.
    + split; discriminate.
  - intros p Hp. rewrite !(proj1 (findUser_ignores_username _ _ _)). simpl.
    rewrite find_snoc. simpl. clear N F.
    destruct (find _ (Users.stored_users st)); [reflexivity |].
    apply String.eqb_neq in Hp. rewrite String.eqb_sym, Hp. reflexivity.
Qed.

End UserStore.

Section LoginPage.

Variable toISOString : Z -> string.

Lemma verifyOTP_success_iff o w :
  success (fst (verifyOTP o w)) = true
  <-> generatedOTP (this w) = Some o
      /\ o <> EmptyString
      /\ Date_now w <= JS.to_number (otpExpiry (this w)).
Proof.
  split.
  - intros S. pose proof (verifyOTP_success_code o w S) as E.
    split; [exact E |]. revert S. unfold verifyOTP. rewrite E.
    destruct o as [|c o]; simpl; [discriminate |].
    destruct (Z.gtb_spec (Date_now w) (JS.to_number (otpExpiry (this w))));
      [discriminate |].
    intros _. split; [discriminate | assumption].
  - intros (E & N & L).
    rewrite (verifyOTP_match o w); [reflexivity | | exact L | exact E].
    rewrite E. destruct o; [congruence | reflexivity].
Qed.

(** X15. A submission of the login form stores a session exactly when
    the form validates, a code has been sent, the entered code is the stored
    one and has not expired, a user with the submitted phone number exists
    and the submitted password is that user's; the session is then the one
    of the first stored user with that phone number. *)
Theorem login_succeeds_iff :
  forall formData otpSent st w s,
    Login.stored (fst (Login.submit toISOString formData otpSent st w)) = Some s
    <-> filled (Form.get formData "username")
        /\ filled (Form.get formData "password")
        /\ digits 10 (Form.get formData "phone")
        /\ otpSent = true
        /\ (exists o, Form.get formData "otp" = Some o
                      /\ generatedOTP (this w) = Some o
                      /\ o <> EmptyString
                      /\ Date_now w <= JS.to_number (otpExpiry (this w)))
        /\ (exists u,
              find (fun x => Users.same (Users.phone (Users.data x))
                                        (Form.get formData "phone"))
                   (Users.stored_users st) = Some u
              /\ Form.get formData "password"
                 = Some (Users.password (Users.data u))
              /\ s = session_of toISOString u (Date_now w)).
Proof.
  intros fd sent st w s. unfold Login.submit. cbv zeta.
  pose proof (login_form_valid_iff fd) as V.
  destruct (Form.valid (Form.validateForm fd Form.login_rules)); cbn [negb].
  2: { split; [discriminate |]. intros (A & B & C & _).
       assert (X : false = true) by (apply V; tauto). discriminate. }
  destruct V as [V _]. specialize (V eq_refl). destruct V as (A & B & C).
  destruct sent; cbn [negb].
  2: { split; [discriminate |]. intros (_ & _ & _ & X & _). discriminate. }
  destruct (Form.get fd "otp") as [[|c o]|] eqn:Eo.
  1, 3: split; [discriminate |];
        intros (_ & _ & _ & _ & (o & Ho & _ & N & _) & _); congruence.
  pose proof (verifyOTP_success_iff (String c o) w) as S.
  destruct (verifyOTP (String c o) w) as [res w1] eqn:Ev. cbn [fst] in S.
  destruct (success res) eqn:Es; cbn [negb].
  2: { split; [discriminate |].
       intros (_ & _ & _ & _ & (o' & Ho & G & N & L) & _).
       injection Ho as <-. assert (X : false = true) by (apply S; tauto).
       discriminate. }
  destruct S as [S _]. specialize (S eq_refl). destruct S as (G & N & L).
  assert (Ew : w1 = set_generatedOTP None w).
  { pose proof (verifyOTP_success (String c o) w) as X. rewrite Ev in X.
    specialize (X Es). congruence. }
  rewrite (proj1 (findUser_ignores_username _ _ _)).
  destruct (find _ (Users.stored_users st)) as [u|] eqn:F.
  2: { split; [discriminate |]. intros (_ & _ & _ & _ & _ & (u & X & _)). discriminate. }
  unfold Users.verifyPassword.
  destruct (Users.same (Users.password (Users.data u)) (Form.get fd "password")) eqn:P;
    cbn [negb fst Login.stored Login.refused].
  - assert (Ep : Form.get fd "password" = Some (Users.password (Users.data u))).
    { destruct (Form.get fd "password") as [p|]; simpl in P; [| discriminate].
      apply String.eqb_eq in P. congruence. }
    rewrite Ew. split.
    + intros X. injection X as <-.
      repeat split; try assumption.
      * exists (String c o). tauto.
      * exists u. repeat split; assumption.
    + intros (_ & _ & _ & _ & _ & (u' & Fu & _ & ->)).
      injection Fu as <-. reflexivity.
  - split; [discriminate |].
    intros (_ & _ & _ & _ & _ & (u' & Fu & Pu & _)). injection Fu as <-.
    rewrite Pu in P. simpl in P. rewrite String.eqb_refl in P. discriminate.
Qed.

Lemma login_validation_messages fd :
  let m := Form.message (Form.validateForm fd Form.login_rules) in
  m = None \/ m = Some "Username is required."%string
  \/ m = Some "Password is required."%string
  \/ m = Some "Phone Number is required."%string
  \/ m = Some "Phone number must be 10 digits."%string.
Proof.
  unfold Form.login_rules, Form.validateForm, Form.check, Form.only_required.
  cbn [Form.required Form.label Form.minLength Form.pattern
       Form.patternMessage Form.matches andb Form.or_else].
  destruct (Form.blank (Form.get fd "username")); [simpl; tauto |].
  destruct (Form.blank (Form.get fd "password")); [simpl; tauto |].
  destruct (Form.blank (Form.get fd "phone")); [simpl; tauto |].
  destruct (Form.get fd "phone") as [[|c v]|]; [simpl; tauto | | simpl; tauto].
  destruct (negb _); simpl; tauto.
Qed.

Lemma verifyOTP_four o w :
  verifyOTP o w = (no_otp_generated, w)
  \/ verifyOTP o w = (otp_expired, set_generatedOTP None w)
  \/ verifyOTP o w = (otp_verified, set_generatedOTP None w)
  \/ verifyOTP o w = (otp_invalid, w).
Proof.
  unfold verifyOTP.
  destruct (negb _); [tauto |].
  destruct (_ >? _); [tauto |].
  destruct (strict_equal _ _); tauto.
Qed.

(** X16. The login form acts on the OTP handler through [verifyOTP]
    alone: a submission leaves the handler and its timers exactly as they
    were, or with the stored code cleared and nothing else changed.  It
    leaves them as they were whenever the form does not validate, no code
    has been sent or the code field is empty, and also when it answers
    "Invalid OTP", so a mistyped code can be corrected. *)
Theorem login_leaves_handler :
  forall formData otpSent st w,
    let r := Login.submit toISOString formData otpSent st w in
    (snd r = w \/ snd r = set_generatedOTP None w)
    /\ (Form.valid (Form.validateForm formData Form.login_rules) = false
        \/ otpSent = false
        \/ JS.truthy (Form.get formData "otp") = false ->
        snd r = w)
    /\ (fst (Login.alert (fst r)) = Some (message otp_invalid) -> snd r = w).
Proof.
  intros fd sent st w. unfold Login.submit. cbv zeta.
  pose proof (login_validation_messages fd) as M. cbv zeta in M.
  destruct (Form.valid (Form.validateForm fd Form.login_rules)); cbn [negb].
  2: { split; [left; reflexivity | split; reflexivity]. }
  destruct sent; cbn [negb].
  2: { split; [left; reflexivity | split; reflexivity]. }
  destruct (Form.get fd "otp") as [[|c o]|].
  1, 3: split; [left; reflexivity | split; reflexivity].
  destruct (verifyOTP_four (String c o) w) as [E | [E | [E | E]]]; rewrite E;
    cbn [success negb no_otp_generated otp_expired otp_verified otp_invalid
         fst snd Login.alert Login.refused message].
  - split; [left; reflexivity | split; [| reflexivity]].
    intros [X | [X | X]]; discriminate.
  - split; [right; reflexivity | split; [| discriminate]].
    intros [X | [X | X]]; discriminate.
  - destruct (Users.findUser _ _ st) as [u|];
      [destruct (negb (Users.verifyPassword (Some u) _)) |];
      cbn [fst snd Login.alert Login.refused];
      (split; [right; reflexivity | split; [| discriminate]]);
      intros [X | [X | X]]; discriminate.
  - split; [left; reflexivity | split; reflexivity].
Qed.

(** X17. The code is spent before the credentials are looked at: when a
    submission answers "Invalid password." or "No account found. Please
    register first.", the entered code was the right one and is now cleared,
    and no later submission stores a session until a new code has been
    generated, whatever it contains; a corrected submission is answered "No
    OTP has been generated". *)
Theorem login_failure_spends_code :
  forall formData otpSent st w,
    let r := Login.submit toISOString formData otpSent st w in
    (fst (Login.alert (fst r)) = Some "Invalid password."%string
     \/ fst (Login.alert (fst r))
        = Some "No account found. Please register first."%string) ->
    snd r = set_generatedOTP None w
    /\ (exists o, Form.get formData "otp" = Some o
                  /\ generatedOTP (this w) = Some o)
    /\ (forall formData' otpSent' st',
          let r' := Login.submit toISOString formData' otpSent' st' (snd r) in
          Login.stored (fst r') = None
          /\ (Form.valid (Form.validateForm formData' Form.login_rules) = true ->
              otpSent' = true ->
              JS.truthy (Form.get formData' "otp") = true ->
              Login.alert (fst r')
              = (Some (message no_otp_generated), "error"%string))).
Proof.
  intros fd sent st w r H.
  assert (G : snd r = set_generatedOTP None w
              /\ exists o, Form.get fd "otp" = Some o
                           /\ generatedOTP (this w) = Some o).
  { revert H. unfold r, Login.submit. cbv zeta.
    pose proof (login_validation_messages fd) as M. cbv zeta in M.
    destruct (Form.valid (Form.validateForm fd Form.login_rules)); cbn [negb].
    2: { cbn [fst Login.alert Login.refused].
         intros [X | X]; rewrite X in M;
           repeat (destruct M as [M | M]; try discriminate M). }
    destruct sent; cbn [negb].
    2: { intros [X | X]; discriminate. }
    destruct (Form.get fd "otp") as [[|c o]|].
    1, 3: intros [X | X]; discriminate.
    destruct (verifyOTP_four (String c o) w) as [E | [E | [E | E]]];
      pose proof E as E'; rewrite E;
      cbn [success negb no_otp_generated otp_expired otp_verified otp_invalid
           fst snd Login.alert Login.refused message];
      try (intros [X | X]; discriminate).
    intros _. split.
    - destruct (Users.findUser _ _ st) as [u|];
        [destruct (negb (Users.verifyPassword (Some u) _)) |]; reflexivity.
    - exists (String c o). split; [reflexivity |].
      apply verifyOTP_success_code. rewrite E'. reflexivity. }
  destruct G as [G1 G2]. split; [exact G1 | split; [exact G2 |]].
  intros fd' sent' st' r'. unfold r'. rewrite G1. split.
  - destruct (Login.stored _) as [s|] eqn:X; [| reflexivity].
    apply login_succeeds_iff in X.
    destruct X as (_ & _ & _ & _ & (o & _ & Y & _) & _). discriminate.
  - intros V S T. unfold Login.submit. cbv zeta. rewrite V, S. cbn [negb].
    destruct (Form.get fd' "otp") as [[|c o]|]; try discriminate T.
    rewrite verifyOTP_no_code by reflexivity. reflexivity.
Qed.

End LoginPage.

Section FormExamples.

Local Open Scope string_scope.

Lemma stored_user_is_found_witness :
  let st' := snd (Users.storeUserData sample_iso sample_user 5 None) in
  success (fst (Users.storeUserData sample_iso sample_user 5 None)) = true
  /\ Users.findUser (Some "someone else") (Some "0811234567") st'
     = Some {| Users.data := sample_user; Users.id := 5;
               Users.createdAt := sample_iso 5 |}
  /\ Users.verifyPassword
       (Users.findUser (Some "someone else") (Some "0811234567") st')
       (Some "secret12") = true.
Proof.
  intros st'.
  assert (S : success (fst (Users.storeUserData sample_iso sample_user 5 None)) = true)
    by reflexivity.
  destruct (stored_user_is_found sample_iso sample_user 5 None
              (Some "someone else") S) as (H1 & H2 & _).
  split; [exact S | split; [exact H1 |]].
  apply (H2 (Some "secret12")). reflexivity.
Defined.

Lemma login_failure_spends_code_witness :
  let w := snd (generateOTP (boot one_half 0)) in
  let st := snd (Users.storeUserData sample_iso sample_user 5 None) in
  let wrong := ("password", "guess") :: sample_login in
  fst (Login.alert (fst (Login.submit sample_iso wrong true st w)))
  = Some "Invalid password."
  /\ snd (Login.submit sample_iso wrong true st w) = set_generatedOTP None w
  /\ Login.alert
       (fst (Login.submit sample_iso sample_login true st
               (snd (Login.submit sample_iso wrong true st w))))
     = (Some (message no_otp_generated), "error").
Proof.
  intros w st wrong.
  assert (A : fst (Login.alert (fst (Login.submit sample_iso wrong true st w)))
              = Some "Invalid password.") by reflexivity.
  destruct (login_failure_spends_code sample_iso wrong true st w (or_introl A))
    as (H1 & _ & H3).
  split; [exact A | split; [exact H1 |]].
  apply (H3 sample_login true st); reflexivity.
Defined.

End FormExamples.

(** ** Simulated transactions (mockData.js) *)

Section Simulation.

Variable toISOString : Z -> string.

Lemma floor_scaled_range (q : Q) (n : Z) :
  0 < n -> (0 <= q)%Q -> (q < 1)%Q -> 0 <= Qfloor (q * inject_Z n) < n.
Proof.
  intros Hn H0 H1.
  assert (Hq : (0 < inject_Z n)%Q) by (change 0%Q with (inject_Z 0); rewrite <- Zlt_Qlt; exact Hn).
  split.
  - pose proof (Qfloor_resp_le (inject_Z 0) (q * inject_Z n)) as H.
    rewrite Qfloor_Z in H. apply H.
    apply Qmult_le_0_compat; [exact H0 | apply Qlt_le_weak; exact Hq].
  - rewrite Zlt_Qlt. eapply Qle_lt_trans; [apply Qfloor_le |].
    setoid_replace (inject_Z n) with (1 * inject_Z n)%Q at 2 by ring.
    apply Qmult_lt_compat_r; assumption.
Qed.

Lemma at_index_in_range {A : Type} (l : list A) (k : Z) :
  0 <= k < Z.of_nat (List.length l) ->
  exists x, HydraData.at_index l k = Some x /\ In x l.
Proof.
  intros [H0 H1]. unfold HydraData.at_index.
  destruct (Z.ltb_spec k 0) as [|_]; [lia |].
  destruct (nth_error l (Z.to_nat k)) as [x |] eqn:E.
  - exists x. split; [reflexivity | eapply nth_error_In; exact E].
  - apply nth_error_None in E. lia.
Qed.


Lemma fair_draws_four (w : World) :
  fair_draws 4 w ->
  let q := entropy (rt w) in
  let d := draws (rt w) in
  ((0 <= q d)%Q /\ (q d < 1)%Q)
  /\ ((0 <= q (S d))%Q /\ (q (S d) < 1)%Q)
  /\ ((0 <= q (S (S d)))%Q /\ (q (S (S d)) < 1)%Q)
  /\ ((0 <= q (S (S (S d))))%Q /\ (q (S (S (S d))) < 1)%Q).
Proof.
  intros F q d.
  pose proof (F 0%nat ltac:(lia)) as F0.
  pose proof (F 1%nat ltac:(lia)) as F1.
  pose proof (F 2%nat ltac:(lia)) as F2.
  pose proof (F 3%nat ltac:(lia)) as F3.
  replace (draws (rt w) + 0)%nat with d in F0 by (subst d; lia).
  replace (draws (rt w) + 1)%nat with (S d) in F1 by (subst d; lia).
  replace (draws (rt w) + 2)%nat with (S (S d)) in F2 by (subst d; lia).
  replace (draws (rt w) + 3)%nat with (S (S (S d))) in F3 by (subst d; lia).
  repeat split; tauto.
Qed.

Lemma sender_is_normal (s : HydraData.account) :
  In s (filter (fun a => String.eqb (HydraData.type a) "normal")
               HydraData.mockAccounts) ->
  In s HydraData.mockAccounts /\ HydraData.type s = "normal"%string.
Proof.
  intros H. apply filter_In in H. destruct H as [I T].
  split; [exact I | apply String.eqb_eq; exact T].
Qed.


Ltac unfold_generate :=
  cbv beta iota zeta delta [HydraData.generateRandomTransaction Math_random];
  cbn [rt entropy draws clock this timers next_handle log].

(** With four fair draws the generator returns the transaction below. *)
Lemma generate_fair (w : World) :
  fair_draws 4 w ->
  exists s r amount q,
    In s HydraData.mockAccounts
    /\ HydraData.type s = "normal"%string
    /\ In r HydraData.mockAccounts
    /\ 1000 <= amount <= 100999
    /\ (0 <= q)%Q /\ (q < 1)%Q
    /\ HydraData.generateRandomTransaction toISOString w
       = (let riskScore :=
            if String.eqb (HydraData.type r) "mule"
            then 80 + JS.Math_floor (q * 20)%Q
            else if String.eqb (HydraData.type r) "suspect"
                 then 60 + JS.Math_floor (q * 20)%Q
                 else JS.Math_floor (q * 30)%Q in
          (Some {| HydraData.TxId :=
                     ("TX" ++ JS.Number_toString (Date_now w))%string;
                   HydraData.CreDtTm := toISOString (Date_now w);
                   HydraData.Amt := {| HydraData.Ccy := "THB"%string;
                                       HydraData.Val := amount |};
                   HydraData.Dbtr := party_of s;
                   HydraData.Cdtr := party_of r;
                   HydraData.RiskScore := riskScore;
                   HydraData.Status :=
                     if 80 <=? riskScore then "blocked"%string
                     else if 60 <=? riskScore then "flagged"%string
                     else "pending"%string;
                   HydraData.Flags :=
                     if 80 <=? riskScore then ["auto_block"%string]
                     else [] |},
           drawn w 4)).
Proof.
  intros F. apply fair_draws_four in F. cbv zeta in F.
  destruct F as (F1 & F2 & F3 & F4).
  destruct (at_index_in_range
              (filter (fun a => String.eqb (HydraData.type a) "normal")
                      HydraData.mockAccounts)
              (JS.Math_floor
                 (entropy (rt w) (draws (rt w))
                  * inject_Z (Z.of_nat (List.length
                      (filter (fun a => String.eqb (HydraData.type a) "normal")
                              HydraData.mockAccounts))))%Q))
    as (s & Es & Is);
  [ apply floor_scaled_range; [reflexivity | apply F1 | apply F1] |].
  destruct (at_index_in_range HydraData.mockAccounts
              (JS.Math_floor
                 (entropy (rt w) (S (draws (rt w)))
                  * inject_Z (Z.of_nat (List.length HydraData.mockAccounts)))%Q))
    as (r & Er & Ir);
  [ apply floor_scaled_range; [reflexivity | apply F2 | apply F2] |].
  apply sender_is_normal in Is. destruct Is as [Is Ts].
  exists s, r,
    (JS.Math_floor (entropy (rt w) (S (S (draws (rt w)))) * 100000)%Q + 1000),
    (entropy (rt w) (S (S (S (draws (rt w)))))).
  repeat (split; [first [assumption | apply F4] |]).
  split.
  - pose proof (floor_scaled_range _ 100000 eq_refl (proj1 F3) (proj2 F3)) as B.
    change (inject_Z 100000) with 100000%Q in B. unfold JS.Math_floor. lia.
  - split; [apply F4 | split; [apply F4 |]].
    unfold_generate. rewrite Er, Es. reflexivity.
Qed.

Lemma risk_band (q : Q) (n : Z) :
  0 < n -> (0 <= q)%Q -> (q < 1)%Q ->
  0 <= JS.Math_floor (q * inject_Z n) <= n - 1.
Proof.
  intros Hn H0 H1. pose proof (floor_scaled_range q n Hn H0 H1).
  unfold JS.Math_floor. lia.
Qed.

Lemma account_types (a : HydraData.account) :
  In a HydraData.mockAccounts ->
  HydraData.type a = "mule"%string \/ HydraData.type a = "suspect"%string
  \/ HydraData.type a = "normal"%string.
Proof.
  intros H. simpl in H.
  repeat (destruct H as [<- | H]; [cbn; tauto |]). contradiction.
Qed.

Lemma party_of_inj (a b : HydraData.account) :
  In a HydraData.mockAccounts -> In b HydraData.mockAccounts ->
  party_of a = party_of b -> a = b.
Proof.
  intros Ha Hb. simpl in Ha, Hb.
  repeat (destruct Ha as [<- | Ha]; [
    repeat (destruct Hb as [<- | Hb];
            [first [reflexivity | discriminate] |]); contradiction |]).
  contradiction.
Qed.

Lemma Qle_bool_inject (a b : Z) :
  Qle_bool (inject_Z a) (inject_Z b) = (a <=? b).
Proof. unfold Qle_bool, inject_Z. cbn. rewrite !Z.mul_1_r. reflexivity. Qed.



(** X20. Whatever the random source returns, the status of a generated
    transaction agrees with [getRiskLevel] of its score: [blocked] exactly
    at level [critical], [flagged] exactly at [high], [pending] exactly at
    [medium] or [low]; and the flag [auto_block] is set exactly on blocked
    transactions, the list of flags being empty otherwise. *)
Theorem generateRandomTransaction_status_matches_level :
  forall w tx,
    fst (HydraData.generateRandomTransaction toISOString w) = Some tx ->
    let level := HydraData.getRiskLevel (inject_Z (HydraData.RiskScore tx)) in
    (HydraData.Status tx = "blocked"%string <-> level = "critical"%string)
    /\ (HydraData.Status tx = "flagged"%string <-> level = "high"%string)
    /\ (HydraData.Status tx = "pending"%string
        <-> level = "medium"%string \/ level = "low"%string)
    /\ (HydraData.Flags tx = ["auto_block"%string]
        <-> HydraData.Status tx = "blocked"%string)
    /\ (HydraData.Flags tx = [] <-> HydraData.Status tx <> "blocked"%string).
Proof.
  intros w tx E level. subst level. revert E. unfold_generate.
  destruct (HydraData.at_index HydraData.mockAccounts _) as [r |];
    [| discriminate].
  destruct (HydraData.at_index (filter _ _) _) as [s |]; [| discriminate].
  cbn [fst]. intros E.
  apply (f_equal (fun o => match o with Some x => x | None => tx end)) in E.
  cbv beta iota in E. subst tx.
  cbn [HydraData.RiskScore HydraData.Status HydraData.Flags].
  match goal with
  | |- context [80 <=? ?x] => generalize x
  end.
  intros n. unfold HydraData.getRiskLevel.
  change 80%Q with (inject_Z 80). change 60%Q with (inject_Z 60).
  change 40%Q with (inject_Z 40). rewrite !Qle_bool_inject.
  destruct (80 <=? n); [repeat split; intros; try congruence; try tauto; try discriminate |].
  - intuition discriminate.
  - destruct (60 <=? n); [| destruct (40 <=? n)];
      repeat split; intros; try congruence; try discriminate; try tauto;
      intuition discriminate.
Qed.

End Simulation.

(** ** Relative times (mockData.js) *)

Section RelativeTime.

Variable Date_parse : string -> option Z.

Lemma div_lt_iff (a b q : Z) : 0 < b -> a / b < q <-> a < b * q.
Proof.
  intros Hb. split; intros H.
  - apply Z.nle_gt. intros C.
    apply (Z.div_le_lower_bound a b q Hb) in C. lia.
  - apply Z.div_lt_upper_bound; assumption.
Qed.

(** X21. For a valid timestamp [formatRelativeTime] prints the age
    rounded down to whole units of the largest unit that fits: seconds below
    one minute (also for timestamps in the future, whose age is negative),
    minutes below one hour, hours below one day, days from then on. *)
Theorem formatRelativeTime_rounds_down :
  forall timestamp now date,
    Date_parse timestamp = Some date ->
    let age := now - date in
    let shown := HydraData.formatRelativeTime Date_parse timestamp now in
    (age < 60000 ->
     shown = (JS.Number_toString (age / 1000) ++ "s ago")%string)
    /\ (60000 <= age < 3600000 ->
        shown = (JS.Number_toString (age / 60000) ++ "m ago")%string)
    /\ (3600000 <= age < 86400000 ->
        shown = (JS.Number_toString (age / 3600000) ++ "h ago")%string)
    /\ (86400000 <= age ->
        shown = (JS.Number_toString (age / 86400000) ++ "d ago")%string).
Proof.
  intros timestamp now date P age shown. subst shown.
  unfold HydraData.formatRelativeTime. rewrite P. fold age.
  cbv zeta. generalize age. clear. intros age.
  assert (M : age / 1000 / 60 = age / 60000)
    by (rewrite Z.div_div by lia; reflexivity).
  assert (H : age / 1000 / 3600 = age / 3600000)
    by (rewrite Z.div_div by lia; reflexivity).
  assert (D : age / 1000 / 86400 = age / 86400000)
    by (rewrite Z.div_div by lia; reflexivity).
  rewrite M, H, D.
  pose proof (div_lt_iff age 1000 60 eq_refl) as B1.
  pose proof (div_lt_iff age 1000 3600 eq_refl) as B2.
  pose proof (div_lt_iff age 1000 86400 eq_refl) as B3.
  destruct (Z.ltb_spec (age / 1000) 60);
    [| destruct (Z.ltb_spec (age / 1000) 3600);
       [| destruct (Z.ltb_spec (age / 1000) 86400)]];
    repeat split; intros; first [reflexivity | exfalso; lia].
Qed.

End RelativeTime.

Section DataExamples.
Local Open Scope string_scope.

Lemma fair_one_half : fair_draws 4 (boot one_half 0).
Proof. intros i _. cbn. unfold one_half. split; Lqa.lra. Qed.



Lemma generateRandomTransaction_status_matches_level_witness :
  exists tx,
    fst (HydraData.generateRandomTransaction sample_iso (boot one_half 0))
    = Some tx
    /\ HydraData.Status tx <> "blocked"
    /\ HydraData.Flags tx = [].
Proof.
  destruct (HydraData.generateRandomTransaction sample_iso (boot one_half 0))
    as [[tx |] w'] eqn:E; [| vm_compute in E; discriminate].
  assert (Et : fst (HydraData.generateRandomTransaction sample_iso
                      (boot one_half 0)) = Some tx) by (rewrite E; reflexivity).
  assert (L : HydraData.getRiskLevel (inject_Z (HydraData.RiskScore tx))
              = "low").
  { vm_compute in E. injection E as E _. subst tx. reflexivity. }
  exists tx. split; [reflexivity |].
  destruct (generateRandomTransaction_status_matches_level sample_iso
              (boot one_half 0) tx Et) as (B & _ & _ & _ & F).
  assert (N : HydraData.Status tx <> "blocked").
  { intros S. apply B in S. rewrite L in S. discriminate S. }
  split; [exact N | apply F; exact N].
Defined.

Lemma formatRelativeTime_rounds_down_witness :
  HydraData.formatRelativeTime sample_parse "then" 1125000 = "2m ago".
Proof.
  exact (proj1 (proj2 (formatRelativeTime_rounds_down sample_parse
                         "then" 1125000 1000000 eq_refl))
           ltac:(lia)).
Defined.

End DataExamples.

(** ** The life of a notification *)

Section Notifications.

Lemma how_many_snoc {A : Type} (p : A -> bool) l x :
  how_many p (l ++ [x]) = (how_many p l + if p x then 1 else 0)%nat.
Proof.
  unfold how_many. rewrite filter_app, length_app. simpl.
  destruct (p x); reflexivity.
Qed.

Lemma how_many_map {A : Type} (p : A -> bool) g l :
  (forall u, In u l -> p (g u) = p u) ->
  how_many p (map g l) = how_many p l.
Proof.
  unfold how_many. induction l as [|x l IH]; simpl; intros H; [reflexivity |].
  rewrite (H x (or_introl eq_refl)).
  destruct (p x); simpl; rewrite IH; auto.
Qed.

Lemma how_many_drop_other (p : timer -> bool) h ts :
  (forall u, In u ts -> has_handle h u = true -> p u = false) ->
  how_many p (filter (fun u => negb (has_handle h u)) ts) = how_many p ts.
Proof.
  unfold how_many. induction ts as [|x ts IH]; simpl; intros H; [reflexivity |].
  specialize (IH (fun u I => H u (or_intror I))).
  destruct (has_handle h x) eqn:E; simpl.
  - rewrite (H x (or_introl eq_refl) E). exact IH.
  - destruct (p x); simpl; rewrite IH; reflexivity.
Qed.

Lemma how_many_drop (p : timer -> bool) t ts :
  NoDup (map t_handle ts) -> In t ts ->
  (how_many p (filter (fun u => negb (has_handle (t_handle t) u)) ts)
   + if p t then 1 else 0)%nat
  = how_many p ts.
Proof.
  induction ts as [|x ts IH]; simpl; intros N I; [contradiction |].
  inversion N as [|? ? Nx Nts]; subst.
  destruct I as [-> | I].
  - unfold has_handle at 1. rewrite Pos.eqb_refl. simpl.
    rewrite how_many_drop_other.
    + unfold how_many. simpl. destruct (p t); simpl; lia.
    + intros u Iu E. apply Pos.eqb_eq in E. exfalso. apply Nx.
      rewrite <- E. apply in_map. exact Iu.
  - destruct (has_handle (t_handle t) x) eqn:E.
    + apply Pos.eqb_eq in E. exfalso. apply Nx. rewrite E.
      apply in_map. exact I.
    + simpl. specialize (IH Nts I). unfold how_many in *. simpl.
      destruct (p x); simpl; lia.
Qed.

Lemma nok_emit e w :
  shown_event e = false -> slid_event e = false -> removed_event e = false ->
  notifications_ok w -> notifications_ok (emit e w).
Proof.
  intros A B C [H1 H2 H3]. constructor; simpl.
  - rewrite !how_many_snoc, A, B. lia.
  - rewrite !how_many_snoc, B, C. lia.
  - exact H3.
Qed.

Lemma nok_map g w :
  (forall u, In u (timers (rt w)) ->
     is_slide_out (g u) = is_slide_out u
     /\ is_removal (g u) = is_removal u
     /\ (is_slide_out u || is_removal u = true -> t_every (g u) = t_every u)) ->
  notifications_ok w ->
  notifications_ok (set_timers (map g (timers (rt w))) w).
Proof.
  intros G [H1 H2 H3]. constructor; simpl.
  - rewrite how_many_map; [exact H1 | intros u I; apply (G u I)].
  - rewrite how_many_map; [exact H2 | intros u I; apply (G u I)].
  - intros t I. apply in_map_iff in I. destruct I as (u & <- & I).
    destruct (G u I) as (A & B & C). rewrite A, B. intros E.
    rewrite (C E). apply (H3 u I E).
Qed.

Lemma nok_drop_other h w :
  (forall u, In u (timers (rt w)) -> has_handle h u = true ->
     is_slide_out u = false /\ is_removal u = false) ->
  notifications_ok w ->
  notifications_ok
    (set_timers (filter (fun u => negb (has_handle h u)) (timers (rt w))) w).
Proof.
  intros G [H1 H2 H3]. constructor; simpl.
  - rewrite how_many_drop_other; [exact H1 | intros u I E; apply (G u I E)].
  - rewrite how_many_drop_other; [exact H2 | intros u I E; apply (G u I E)].
  - intros t I. apply filter_In in I. apply H3, I.
Qed.

Lemma countdown_not_notification u :
  is_countdown u = true -> is_slide_out u = false /\ is_removal u = false.
Proof.
  unfold is_countdown, is_slide_out, is_removal.
  destruct (t_code u); [split; reflexivity | discriminate ..].
Qed.

Lemma nok_clearInterval w :
  timers_ok w -> notifications_ok w ->
  notifications_ok (clearInterval (countdownInterval (this w)) w).
Proof.
  intros T H. destruct (countdownInterval (this w)) as [h|] eqn:E;
    [| exact H].
  apply nok_drop_other; [| exact H].
  intros u I Hh. apply countdown_not_notification.
  apply (ok_named _ _ _ T u I). apply Pos.eqb_eq in Hh.
  rewrite Hh. exact E.
Qed.

Lemma nok_register every code delay w :
  is_slide_out {| t_handle := 1; t_due := 0; t_every := every;
                  t_code := code |} = false ->
  is_removal {| t_handle := 1; t_due := 0; t_every := every;
                t_code := code |} = false ->
  notifications_ok w -> notifications_ok (snd (register every code delay w)).
Proof.
  intros A B [H1 H2 H3]. constructor; simpl.
  - rewrite how_many_snoc. unfold is_slide_out in *. simpl in *. rewrite A. lia.
  - rewrite how_many_snoc. unfold is_removal in *. simpl in *. rewrite B. lia.
  - intros t I. apply in_app_or in I. destruct I as [I | [<- | []]].
    + apply H3, I.
    + unfold is_slide_out, is_removal in *. simpl in *. rewrite A, B.
      discriminate.
Qed.

Lemma nok_fields w w' :
  timers (rt w') = timers (rt w) -> log (rt w') = log (rt w) ->
  notifications_ok w -> notifications_ok w'.
Proof.
  intros A B [H1 H2 H3]. constructor; rewrite ?A, ?B; assumption.
Qed.

Lemma nok_deliver h phone w :
  notifications_ok w -> notifications_ok (deliver h phone w).
Proof.
  intros [H1 H2 H3]. constructor; simpl.
  - rewrite !how_many_snoc. simpl. lia.
  - rewrite !how_many_snoc. simpl. lia.
  - intros t I. apply in_app_or in I. destruct I as [I | [<- | []]].
    + apply H3, I.
    + reflexivity.
Qed.

Lemma nok_reschedule_other t w :
  is_slide_out t = false -> is_removal t = false ->
  timers_ok w -> In t (timers (rt w)) ->
  notifications_ok w -> notifications_ok (reschedule t w).
Proof.
  intros A B T I H. unfold reschedule. destruct (t_every t) as [p|].
  - apply nok_map; [| exact H]. intros u _.
    destruct (has_handle (t_handle t) u); repeat split; reflexivity.
  - apply nok_drop_other; [| exact H]. intros u Iu E.
    apply Pos.eqb_eq in E.
    rewrite (handle_inj _ _ _ (ok_nodup _ _ _ T) Iu I E). tauto.
Qed.

Lemma nok_fire t w :
  timers_ok w -> In t (timers (rt w)) ->
  notifications_ok w -> notifications_ok (fire t w).
Proof.
  intros T I H. unfold fire.
  destruct (t_code t) as [tl d f | phone | |] eqn:C.
  - assert (Cd : is_countdown t = true) by (unfold is_countdown; rewrite C; reflexivity).
    destruct (countdown_not_notification t Cd) as [A B].
    pose proof (nok_reschedule_other t w A B T I H) as H1.
    pose proof (ok_reschedule t w T) as T1.
    assert (E : countdownInterval (this (reschedule t w)) = Some (t_handle t)).
    { destruct (ok_owned _ _ _ T t I Cd) as [E _]. unfold reschedule.
      destruct (t_every t); exact E. }
    pose proof (ok_update_closure (t_handle t) (tl - 1) d f _ T1 E) as T2.
    assert (H2 : notifications_ok
                   (update_closure (t_handle t) (CountdownTick (tl - 1) d f)
                      (reschedule t w))).
    { apply nok_map; [| exact H1]. intros u Iu.
      destruct (has_handle (t_handle t) u) eqn:Hh;
        [| repeat split; reflexivity].
      apply Pos.eqb_eq in Hh.
      assert (Cu : is_countdown u = true)
        by (apply (ok_named _ _ _ T1 u Iu); rewrite Hh; exact E).
      destruct (countdown_not_notification u Cu) as [Au Bu].
      rewrite Au, Bu. repeat split; reflexivity. }
    simpl.
    pose proof (nok_emit (TextContent d (tl - 1)) _ eq_refl eq_refl eq_refl H2)
      as H3.
    destruct (tl - 1 <=? 0); [| exact H3].
    assert (H4 : notifications_ok
                   (clearInterval
                      (countdownInterval
                         (this (emit (TextContent d (tl - 1))
                            (update_closure (t_handle t)
                               (CountdownTick (tl - 1) d f) (reschedule t w)))))
                      (emit (TextContent d (tl - 1))
                         (update_closure (t_handle t)
                            (CountdownTick (tl - 1) d f) (reschedule t w)))))
      by (apply nok_clearInterval; [exact T2 | exact H3]).
    destruct f as [f|]; [| exact H4].
    apply nok_emit; [reflexivity .. | exact H4].
  - simpl. apply nok_deliver.
    apply nok_reschedule_other; try assumption;
      unfold is_slide_out, is_removal; rewrite C; reflexivity.
  - assert (S : is_slide_out t = true)
      by (unfold is_slide_out; rewrite C; reflexivity).
    assert (R : is_removal t = false)
      by (unfold is_removal; rewrite C; reflexivity).
    destruct H as [H1 H2 H3].
    assert (E : t_every t = None) by (apply (H3 t I); rewrite S; reflexivity).
    pose proof (how_many_drop is_slide_out t _ (ok_nodup _ _ _ T) I) as D1.
    pose proof (how_many_drop is_removal t _ (ok_nodup _ _ _ T) I) as D2.
    rewrite S in D1. rewrite R in D2.
    unfold reschedule. rewrite E. constructor; simpl.
    + rewrite !how_many_snoc. simpl. lia.
    + rewrite !how_many_snoc. simpl. lia.
    + intros u Iu. apply in_app_or in Iu. destruct Iu as [Iu | [<- | []]].
      * apply filter_In in Iu. apply H3, Iu.
      * reflexivity.
  - assert (S : is_slide_out t = false)
      by (unfold is_slide_out; rewrite C; reflexivity).
    assert (R : is_removal t = true)
      by (unfold is_removal; rewrite C; reflexivity).
    destruct H as [H1 H2 H3].
    assert (E : t_every t = None)
      by (apply (H3 t I); rewrite R; apply orb_true_r).
    pose proof (how_many_drop is_slide_out t _ (ok_nodup _ _ _ T) I) as D1.
    pose proof (how_many_drop is_removal t _ (ok_nodup _ _ _ T) I) as D2.
    rewrite S in D1. rewrite R in D2.
    unfold reschedule. rewrite E. constructor; simpl.
    + rewrite !how_many_snoc. simpl. lia.
    + rewrite !how_many_snoc. simpl. lia.
    + intros u Iu. apply filter_In in Iu. apply H3, Iu.
Qed.

Lemma nok_tick w :
  timers_ok w -> notifications_ok w -> notifications_ok (tick w).
Proof.
  intros T H. unfold tick.
  apply (fold_fire_ind (fun v => timers_ok v /\ notifications_ok v)).
  - intros v t [Tv Hv] I _. split; [apply ok_fire | apply nok_fire]; assumption.
  - split; [exact T |]. destruct H as [H1 H2 H3]. constructor; assumption.
Qed.

Lemma nok_exec w a :
  timers_ok w -> notifications_ok w -> notifications_ok (exec w a).
Proof.
  intros T H. destruct a; simpl.
  - apply (nok_fields w); [reflexivity | reflexivity | exact H].
  - unfold sendOTP. destruct (negb _); [exact H |].
    apply nok_register; [reflexivity | reflexivity | exact H].
  - destruct (verifyOTP_state enteredOTP w) as [E | E]; rewrite E;
      [exact H | apply (nok_fields w); [reflexivity | reflexivity | exact H]].
  - unfold startCountdown.
    pose proof (nok_clearInterval w T H) as H1.
    destruct (countdownInterval (this w)) as [h|].
    + apply (nok_fields
               (snd (register (Some 1000)
                       (CountdownTick (resendCooldown (this w)) displayElement
                          onComplete) 1000
                       (emit (TextContent displayElement
                                (resendCooldown (this w)))
                          (clearInterval (Some h) w)))));
        [reflexivity | reflexivity |].
      apply nok_register; [reflexivity | reflexivity |].
      apply nok_emit; [reflexivity .. | exact H1].
    + apply (nok_fields
               (snd (register (Some 1000)
                       (CountdownTick (resendCooldown (this w)) displayElement
                          onComplete) 1000
                       (emit (TextContent displayElement
                                (resendCooldown (this w))) w))));
        [reflexivity | reflexivity |].
      apply nok_register; [reflexivity | reflexivity |].
      apply nok_emit; [reflexivity .. | exact H1].
  - unfold stopCountdown.
    pose proof (nok_clearInterval w T H) as H1.
    destruct (countdownInterval (this w)) as [h|]; [| exact H].
    apply (nok_fields (clearInterval (Some h) w));
      [reflexivity | reflexivity | exact H1].
  - apply nok_tick; assumption.
Qed.

Lemma reachable_notifications_ok w : reachable w -> notifications_ok w.
Proof.
  intros R. induction R as [rnd t0 | w a R IH].
  - constructor; simpl; try reflexivity. contradiction.
  - apply nok_exec; [apply reachable_timers_ok, R | exact IH].
Qed.

(** X22. In every state a session can reach the notifications are
    accounted for: each notification shown has either slid out or still has
    its ten-second timeout pending, and each one that slid out has either
    been removed or still has its half-second removal timeout pending.  So
    at no time have more notifications been removed than have slid out, or
    more slid out than have been shown. *)
Theorem notifications_accounted_for :
  forall w,
    reachable w ->
    let shown := how_many shown_event (log (rt w)) in
    let slid := how_many slid_event (log (rt w)) in
    let removed := how_many removed_event (log (rt w)) in
    shown = (slid + how_many is_slide_out (timers (rt w)))%nat
    /\ slid = (removed + how_many is_removal (timers (rt w)))%nat
    /\ (removed <= slid <= shown)%nat.
Proof.
  intros w R. destruct (reachable_notifications_ok w R) as [H1 H2 _].
  cbv zeta. repeat split; lia.
Qed.

Lemma notifications_accounted_for_witness :
  how_many shown_event (log (rt (run one_request (boot one_half 0))))
  = (how_many slid_event (log (rt (run one_request (boot one_half 0))))
     + how_many is_slide_out
         (timers (rt (run one_request (boot one_half 0)))))%nat.
Proof.
  exact (proj1 (notifications_accounted_for _
                  (reachable_run one_request _ (reachable_boot one_half 0)))).
Defined.

End Notifications.
